(** * Verification of the Incus deployment orchestrator ([deploy.py])

    The orchestrator drives a remote hypervisor through the [pyincus]
    client library.  The library is an external collaborator: every method
    call and every attribute read on one of its handles is modelled as an
    operation [Op] answered by an arbitrary hypervisor (a handler over an
    abstract world), so the theorems hold for every behaviour of the
    collaborator, including failures.  The orchestrator's own functions are
    programs [Prog] over those operations; running a program yields its
    outcome, the ordered trace of what it asked and printed, and the final
    world. *)

From Stdlib Require Import ZArith Ascii String.
From stdpp Require Import base option list strings pretty gmap fin_maps.

Local Open Scope Z_scope.
Local Open Scope string_scope.
Local Open Scope list_scope.

(** ** Python values used by the script *)

(** A [dict] with string keys and scalar values (instance and network
    configuration, one device's settings). *)
Abbreviation Dict := (gmap string string).
(** [instance.devices]: device name to device settings. *)
Abbreviation Devices := (gmap string (gmap string string)).

(** The subclasses of [pyincus.exceptions.InstanceException] the script
    tells apart, and every other subclass. *)
Inductive InstanceExceptionClass :=
| InstanceIsNotRunningException
| InstanceIsAlreadyStoppedException
| InstanceIsPausedException
| InstanceExecFailedException
| InstanceNotFoundException
| OtherInstanceException.

(** Python exceptions, with their message ([str(error)]). *)
Inductive PyExc :=
| InstanceException (c : InstanceExceptionClass) (msg : string)
| KeyError (key : string)
| TypeError (msg : string)
| ValueError (msg : string)
| Exception (msg : string)
| OtherError (cls msg : string).

Definition exc_str (e : PyExc) : string :=
  match e with
  | InstanceException _ m | TypeError m | ValueError m | Exception m
  | OtherError _ m => m
  | KeyError k => "'" +:+ k +:+ "'"
  end.

(** [type(error).__name__] *)
Definition exc_type_name (e : PyExc) : string :=
  match e with
  | InstanceException InstanceIsNotRunningException _ => "InstanceIsNotRunningException"
  | InstanceException InstanceIsAlreadyStoppedException _ => "InstanceIsAlreadyStoppedException"
  | InstanceException InstanceIsPausedException _ => "InstanceIsPausedException"
  | InstanceException InstanceExecFailedException _ => "InstanceExecFailedException"
  | InstanceException InstanceNotFoundException _ => "InstanceNotFoundException"
  | InstanceException OtherInstanceException _ => "InstanceException"
  | KeyError _ => "KeyError"
  | TypeError _ => "TypeError"
  | ValueError _ => "ValueError"
  | Exception _ => "Exception"
  | OtherError c _ => c
  end.

(** Truth value of an optional string: [None] and [""] are falsy. *)
Definition truthy (o : option string) : bool :=
  match o with
  | Some s => negb (String.eqb s "")
  | None => false
  end.

(** [str(x)] for an optional string inside an f-string. *)
Definition fmt (o : option string) : string := default "None" o.

(** [s.lower()] on ASCII letters. *)
Definition ascii_lower (c : ascii) : ascii :=
  let n := nat_of_ascii c in
  if (Nat.leb 65 n && Nat.leb n 90)%bool then ascii_of_nat (n + 32) else c.

Fixpoint lower (s : string) : string :=
  match s with
  | EmptyString => EmptyString
  | String c s' => String (ascii_lower c) (lower s')
  end.

(** [needle in hay] on strings: substring test. *)
Fixpoint str_in (needle hay : string) : bool :=
  String.prefix needle hay ||
  match hay with
  | EmptyString => false
  | String _ hay' => str_in needle hay'
  end.

(** [sep.join(l)] *)
Fixpoint join (sep : string) (l : list string) : string :=
  match l with
  | [] => ""
  | [x] => x
  | x :: l' => x +:+ sep +:+ join sep l'
  end.

(** [str(l)] for a list of plain strings. *)
Definition str_list (l : list string) : string :=
  match l with
  | [] => "[]"
  | _ => "['" +:+ join "', '" l +:+ "']"
  end.

(** ** Handles of the [pyincus] object model *)

Record Remote := { remote_name : string }.
Record Project := { project_remote : Remote; project_name : string }.
Record Instance := { instance_project : Project; instance_name : string }.
Record NetworkACL := { acl_project : Project; acl_name : string }.
Record Network := { network_project : Project; network_name : string }.
Record NetworkForward := { forward_network : Network; forward_listenAddress : string }.

(** One entry of [instance.state["network"][nic]["addresses"]]. *)
Record Address := { family : string; scope : string; address : string }.

(** One entry of [forward.ports]. *)
Record Port := {
  port_protocol : string;
  port_listen_port : string;
  port_target_address : string;
  port_target_port : string
}.

(** The parsed command line ([argparse] namespace). *)
Record Args := {
  challengePath : string;
  verbose : bool;
  force : bool;
  keepInstancesOnFailure : bool;
  apply : bool;
  test : bool;
  purge : bool;
  arg_remote : option string;
  arg_project : option string
}.

(** ** Hypervisor operations

    One constructor per [pyincus] call or attribute access made by the
    script, indexed by the type of its answer. *)
Inductive Op : Type -> Type :=
| RemotesExists (name : string) : Op bool
| RemotesGet (name : string) : Op Remote
| ProjectsExists (r : Remote) (name : string) : Op bool
| ProjectsGet (r : Remote) (name : string) : Op Project
| InstancesExists (p : Project) (name : string) : Op bool
| InstancesGet (p : Project) (name : string) : Op Instance
| InstancesCopy (p : Project) (source : option string) (name : string)
    (remoteSource projectSource : option string) (config : option Dict)
    (device : option Devices) (instanceOnly vm : bool) : Op Instance
| InstancesLaunch (p : Project) (image : option string) (name : string)
    (remoteSource : option string) (config : option Dict)
    (network : option string) (vm : bool) : Op Instance
| InstanceStart (i : Instance) : Op unit
| InstancePause (i : Instance) : Op unit
| InstanceStop (i : Instance) : Op unit
| InstanceDelete (i : Instance) : Op unit
| InstanceRestart (i : Instance) : Op unit
| InstanceExec (i : Instance) (cmd : string) : Op unit
| InstanceStatus (i : Instance) : Op string
| InstanceDevices (i : Instance) : Op Devices
| InstanceSetDevices (i : Instance) (d : Devices) : Op unit
| InstanceExpandedDevices (i : Instance) : Op Devices
| InstanceState (i : Instance) : Op (gmap string (list Address))
| AclsList (p : Project) : Op (list NetworkACL)
| AclsExists (p : Project) (name : string) : Op bool
| AclsGet (p : Project) (name : string) : Op NetworkACL
| AclsCreate (p : Project) (name : string) (description : option string)
    (egress ingress : list Dict) : Op NetworkACL
| AclUsedBy (a : NetworkACL) : Op (list string)
| AclDelete (a : NetworkACL) : Op unit
| NetworksExists (p : Project) (name : string) : Op bool
| NetworksGet (p : Project) (name : string) : Op Network
| NetworksCreate (p : Project) (name : string) (type : option string)
    (description : option string) (config : option Dict) : Op Network
| NetworkDescription (n : Network) : Op (option string)
| NetworkSetDescription (n : Network) (d : option string) : Op unit
| NetworkConfig (n : Network) : Op Dict
| NetworkSetConfig (n : Network) (c : Dict) : Op unit
| ForwardsList (n : Network) : Op (list NetworkForward)
| ForwardsGet (n : Network) (listenAddress : option string) : Op NetworkForward
| ForwardPorts (f : NetworkForward) : Op (list Port)
| ForwardRemovePort (f : NetworkForward) (protocol listenPorts : string) : Op unit
| ForwardAddPort (f : NetworkForward) (protocol : string) (listenPorts : Z)
    (targetAddress : option string) (targetPorts : Z) : Op unit.

(** What a call gives back: a value, or a raised exception. *)
Inductive result (R : Type) : Type :=
| Ok (r : R)
| Err (e : PyExc).
Arguments Ok {R} r.
Arguments Err {R} e.

(** ** Programs *)

Inductive Prog (A : Type) : Type :=
| Ret (a : A)
| Raise (e : PyExc)
| SysExit (code : Z)
| Print (s : string) (k : Prog A)
| Sleep (k : Prog A)
| OutOfFuel
| Call {R : Type} (op : Op R) (k : result R -> Prog A).
Arguments Ret {A} a.
Arguments Raise {A} e.
Arguments SysExit {A} code.
Arguments Print {A} s k.
Arguments Sleep {A} k.
Arguments OutOfFuel {A}.
Arguments Call {A R} op k.

Fixpoint bind {A B : Type} (p : Prog A) (f : A -> Prog B) : Prog B :=
  match p with
  | Ret a => f a
  | Raise e => Raise e
  | SysExit c => SysExit c
  | Print s k => Print s (bind k f)
  | Sleep k => Sleep (bind k f)
  | OutOfFuel => OutOfFuel
  | Call op k => Call op (fun r => bind (k r) f)
  end.

Declare Scope prog_scope.
Delimit Scope prog_scope with prog.
Bind Scope prog_scope with Prog.
Notation "x <- p ;; q" := (bind p (fun x => q))
  (at level 100, p at next level, right associativity) : prog_scope.
Notation "p ;; q" := (bind p (fun _ => q))
  (at level 100, right associativity) : prog_scope.
Local Open Scope prog_scope.

(** A call whose exception, if any, propagates. *)
Definition call {R : Type} (op : Op R) : Prog R :=
  Call op (fun r => match r with Ok v => Ret v | Err e => Raise e end).

Definition print (s : string) : Prog unit := Print s (Ret tt).

Definition when (b : bool) (p : Prog unit) : Prog unit :=
  if b then p else Ret tt.

(** [d[k]] *)
Definition getitem {V : Type} (d : gmap string V) (k : string) : Prog V :=
  match d !! k with
  | Some v => Ret v
  | None => Raise (KeyError k)
  end.

(** [try: p  except pyincus.exceptions.InstanceException as error: handler] *)
Fixpoint try_except_InstanceException {A : Type} (p : Prog A)
    (handler : InstanceExceptionClass -> string -> Prog A) : Prog A :=
  match p with
  | Ret a => Ret a
  | Raise (InstanceException c m) => handler c m
  | Raise e => Raise e
  | SysExit c => SysExit c
  | Print s k => Print s (try_except_InstanceException k handler)
  | Sleep k => Sleep (try_except_InstanceException k handler)
  | OutOfFuel => OutOfFuel
  | Call op k => Call op (fun r => try_except_InstanceException (k r) handler)
  end.

(** [for x in l: body x] *)
Fixpoint for_each {A : Type} (l : list A) (body : A -> Prog unit) : Prog unit :=
  match l with
  | [] => Ret tt
  | x :: l' => body x ;; for_each l' body
  end.

(** ** Running a program against a hypervisor *)

Inductive Event : Type :=
| EvCall {R : Type} (op : Op R) (r : result R)
| EvPrint (s : string)
| EvSleep.

Inductive Outcome (A : Type) : Type :=
| Returned (a : A)
| Uncaught (e : PyExc)
| Exited (code : Z)
| StillWaiting.
Arguments Returned {A} a.
Arguments Uncaught {A} e.
Arguments Exited {A} code.
Arguments StillWaiting {A}.

(** A hypervisor: how a world answers an operation, and the world after. *)
Definition Handler (World : Type) : Type :=
  forall R : Type, World -> Op R -> result R * World.

Fixpoint run {World A : Type} (h : Handler World) (p : Prog A) (w : World)
    : Outcome A * list Event * World :=
  match p with
  | Ret a => (Returned a, [], w)
  | Raise e => (Uncaught e, [], w)
  | SysExit c => (Exited c, [], w)
  | Print s k => let '(o, t, w') := run h k w in (o, EvPrint s :: t, w')
  | Sleep k => let '(o, t, w') := run h k w in (o, EvSleep :: t, w')
  | OutOfFuel => (StillWaiting, [], w)
  | Call op k =>
      let '(r, w1) := h _ w op in
      let '(o, t, w') := run h (k r) w1 in
      (o, EvCall op r :: t, w')
  end.

(** The exit status of the process. *)
Definition exit_code {A : Type} (o : Outcome A) : option Z :=
  match o with
  | Returned _ => Some 0
  | Uncaught _ => Some 1
  | Exited c => Some c
  | StillWaiting => None
  end.

(** ** Teardown and provisioning ([deploy.py], lines 103-226) *)

(** The [instance] parameter of the helpers: a handle or an instance name. *)
Inductive InstanceRef :=
| ByHandle (i : Instance)
| ByName (name : string).

(** [if(isinstance(instance, str)): instance = project.instances.get(name=instance)] *)
Definition resolve (project : Project) (instance : InstanceRef) : Prog Instance :=
  match instance with
  | ByName n => call (InstancesGet project n)
  | ByHandle i => Ret i
  end.

(** [l[0]] *)
Definition first_item (l : list string) : Prog string :=
  match l with
  | x :: _ => Ret x
  | [] => Raise (OtherError "IndexError" "list index out of range")
  end.

Fixpoint associatedACLs_loop (args : Args) (instance : Instance)
    (acls toRemove : list NetworkACL) : Prog (list NetworkACL) :=
  match acls with
  | [] => Ret toRemove
  | acl :: rest =>
      usedBy <- call (AclUsedBy acl) ;;
      if Nat.eqb (length usedBy) 1 then
        usedBy' <- call (AclUsedBy acl) ;;
        ref <- first_item usedBy' ;;
        if str_in (instance_name instance) ref then
          when (verbose args)
            (print ("[DEBUG] Found ACL to delete: " +:+ acl_name acl)) ;;
          associatedACLs_loop args instance rest (toRemove ++ [acl])
        else associatedACLs_loop args instance rest toRemove
      else associatedACLs_loop args instance rest toRemove
  end.

Definition associatedACLs (project : Project) (args : Args)
    (instance : InstanceRef) : Prog (list NetworkACL) :=
  instance <- resolve project instance ;;
  acls <- call (AclsList project) ;;
  associatedACLs_loop args instance acls [].

(** The address scan shared by [removeForwardPort] and [setForwardsPorts]:
    the pair [(targetAddress4, targetAddress6)] when the loop ends. *)
Fixpoint scan_addresses (addresses : list Address) : option string * option string :=
  match addresses with
  | [] => (None, None)
  | a :: rest =>
      if String.eqb (family a) "inet" && String.eqb (scope a) "global" then
        (Some (address a), None)
      else if String.eqb (family a) "inet6" && String.eqb (scope a) "global" then
        (None, Some (address a))
      else scan_addresses rest
  end.

(** [port["target_address"] in [targetAddress4, targetAddress6]] *)
Definition targets (targetAddress4 targetAddress6 : option string) (port : Port) : bool :=
  bool_decide (targetAddress4 = Some (port_target_address port))
  || bool_decide (targetAddress6 = Some (port_target_address port)).

Definition removeForwardPort (project : Project) (args : Args)
    (instance : InstanceRef) : Prog unit :=
  instance <- resolve project instance ;;
  status <- call (InstanceStatus instance) ;;
  found <-
    (if negb (String.eqb (lower status) "running") then
       devices <- call (InstanceDevices instance) ;;
       match devices !! "eth0" with
       | Some eth0 => Ret (eth0 !! "ipv4.address", eth0 !! "ipv6.address")
       | None => Ret (None, None)
       end
     else
       state <- call (InstanceState instance) ;;
       eth0 <- getitem state "eth0" ;;
       Ret (scan_addresses eth0)) ;;
  let '(targetAddress4, targetAddress6) := found in
  if bool_decide (targetAddress4 <> None) || bool_decide (targetAddress6 <> None) then
    expanded <- call (InstanceExpandedDevices instance) ;;
    eth0 <- getitem expanded "eth0" ;;
    netname <- getitem eth0 "network" ;;
    network <- call (NetworksGet project netname) ;;
    forwards <- call (ForwardsList network) ;;
    for_each forwards (fun forward =>
      ports <- call (ForwardPorts forward) ;;
      for_each ports (fun port =>
        if targets targetAddress4 targetAddress6 port then
          call (ForwardRemovePort forward (port_protocol port) (port_listen_port port)) ;;
          when (verbose args)
            (print ("[DEBUG] Forward port was removed: " +:+ port_listen_port port))
        else Ret tt))
  else Ret tt.

Definition destroy (project : Project) (args : Args) (instance : Instance) : Prog unit :=
  when (verbose args)
    (print ("[DEBUG] Attempt to destroy instance: " +:+ instance_name instance)) ;;
  aclsToRemove <- associatedACLs project args (ByHandle instance) ;;
  removeForwardPort project args (ByHandle instance) ;;
  try_except_InstanceException
    (call (InstancePause instance) ;;
     when (verbose args)
       (print ("[DEBUG] Instance was paused: " +:+ instance_name instance)))
    (fun c msg =>
       match c with
       | InstanceIsNotRunningException => Ret tt
       | _ => Print msg (SysExit 1)
       end) ;;
  try_except_InstanceException
    (call (InstanceStop instance) ;;
     when (verbose args)
       (print ("[DEBUG] Instance was stopped: " +:+ instance_name instance)))
    (fun c msg =>
       match c with
       | InstanceIsAlreadyStoppedException | InstanceIsNotRunningException => Ret tt
       | _ => Print msg (SysExit 1)
       end) ;;
  call (InstanceDelete instance) ;;
  when (verbose args)
    (print ("[DEBUG] Instance was deleted: " +:+ instance_name instance)) ;;
  for_each aclsToRemove (fun acl =>
    usedBy <- call (AclUsedBy acl) ;;
    if Nat.eqb (length usedBy) 0 then
      call (AclDelete acl) ;;
      when (verbose args) (print ("[DEBUG] ACL was deleted: " +:+ acl_name acl))
    else Ret tt).

(** [f"{'virtual machine' if isVM else 'instance'}"] and the source prefix
    [f"{f'{remoteSource}:' if remoteSource else ''}{nameSource}"]. *)
Definition kind_text (capital isVM : bool) : string :=
  if isVM then (if capital then "Virtual machine" else "virtual machine")
  else (if capital then "Instance" else "instance").

Definition source_text (remoteSource nameSource : option string) : string :=
  (if truthy remoteSource then fmt remoteSource +:+ ":" else "") +:+ fmt nameSource.

Definition deploy (project : Project) (args : Args) (name : string)
    (nameSource remoteSource projectSource : option string)
    (config : option Dict) (network : option Network)
    (isVM isClone : bool) : Prog Instance :=
  exists_ <- call (InstancesExists project name) ;;
  (if exists_ then
     if force args then
       instance <- call (InstancesGet project name) ;;
       destroy project args instance
     else
       Print "Instance already exists. Use --force if you want to redeploy."
         (SysExit 1)
   else Ret tt) ;;
  if isClone then
    when (verbose args)
      (print ("[DEBUG] Copying " +:+ kind_text false isVM +:+ " from "
              +:+ source_text remoteSource nameSource +:+ " to " +:+ name)) ;;
    let device :=
      match network with
      | Some n =>
          Some ({[ "eth0" := {[ "name" := "eth0"; "type" := "nic";
                                "network" := network_name n ]} ]} : Devices)
      | None => None
      end in
    instance <- call (InstancesCopy project nameSource name remoteSource
                        projectSource config device true isVM) ;;
    call (InstanceStart instance) ;;
    when (verbose args)
      (print ("[DEBUG] " +:+ kind_text true isVM +:+ " was copied from "
              +:+ source_text remoteSource nameSource +:+ ": " +:+ name)) ;;
    Ret instance
  else
    when (verbose args)
      (print ("[DEBUG] Launching " +:+ kind_text false isVM +:+ " from image "
              +:+ source_text remoteSource nameSource +:+ " to create " +:+ name)) ;;
    instance <- call (InstancesLaunch project nameSource name remoteSource config
                        (network_name <$> network) isVM) ;;
    when (verbose args)
      (print ("[DEBUG] " +:+ kind_text true isVM +:+ " was launched: "
              +:+ instance_name instance)) ;;
    Ret instance.

(** ** Reading runs and traces *)

Definition outcome {World A : Type} (r : Outcome A * list Event * World) : Outcome A := r.1.1.
Definition trace {World A : Type} (r : Outcome A * list Event * World) : list Event := r.1.2.
Definition world {World A : Type} (r : Outcome A * list Event * World) : World := r.2.

(** Did the program run to its end? *)
Definition returned {A : Type} (o : Outcome A) : bool :=
  match o with Returned _ => true | _ => false end.

(** An outcome other than a normal return, at another result type. *)
Definition abort_as {A : Type} (B : Type) (o : Outcome A) : Outcome B :=
  match o with
  | Returned _ | StillWaiting => StillWaiting
  | Uncaught e => Uncaught e
  | Exited c => Exited c
  end.

Definition is_print (e : Event) : bool :=
  match e with EvPrint _ => true | _ => false end.

(** A call that raised. *)
Definition is_error (e : Event) : bool :=
  match e with EvCall _ (Err _) => true | _ => false end.

(** Calls that change hypervisor state. *)
Definition is_mutation (e : Event) : bool :=
  match e with
  | EvCall (InstancesCopy _ _ _ _ _ _ _ _ _) _
  | EvCall (InstancesLaunch _ _ _ _ _ _ _) _
  | EvCall (InstanceStart _) _ | EvCall (InstancePause _) _
  | EvCall (InstanceStop _) _ | EvCall (InstanceDelete _) _
  | EvCall (InstanceRestart _) _ | EvCall (InstanceExec _ _) _
  | EvCall (InstanceSetDevices _ _) _
  | EvCall (AclsCreate _ _ _ _ _) _ | EvCall (AclDelete _) _
  | EvCall (NetworksCreate _ _ _ _ _) _
  | EvCall (NetworkSetDescription _ _) _ | EvCall (NetworkSetConfig _ _) _
  | EvCall (ForwardRemovePort _ _ _) _
  | EvCall (ForwardAddPort _ _ _ _ _) _ => true
  | _ => false
  end.

(** The name of the instance a call asks to create, by copy or by launch. *)
Definition creates (e : Event) : option string :=
  match e with
  | EvCall (InstancesCopy _ _ name _ _ _ _ _ _) _
  | EvCall (InstancesLaunch _ _ name _ _ _ _) _ => Some name
  | _ => None
  end.

Definition is_pause (e : Event) : bool :=
  match e with EvCall (InstancePause _) _ => true | _ => false end.


(** ** The teardown order, as the specification words it

    A teardown is a sequence of phases.  A phase relates the part of the
    trace it produced to whether the teardown goes on ([true]) or the run is
    aborted there ([false]). *)

Definition Phase : Type := list Event -> bool -> Prop.

Inductive in_order : list Phase -> list Event -> bool -> Prop :=
| in_order_done : in_order [] [] true
| in_order_abort (P : Phase) Ps t :
    P t false -> in_order (P :: Ps) t false
| in_order_next (P : Phase) Ps t t' ok :
    P t true -> in_order Ps t' ok -> in_order (P :: Ps) (t ++ t') ok.

(** The idempotent hypervisor states that teardown ignores: "not running"
    on pause, "already stopped" and "not running" on stop. *)
Definition swallowed (e : Event) : bool :=
  match e with
  | EvCall (InstancePause _)
      (Err (InstanceException InstanceIsNotRunningException _)) => true
  | EvCall (InstanceStop _)
      (Err (InstanceException InstanceIsAlreadyStoppedException _)) => true
  | EvCall (InstanceStop _)
      (Err (InstanceException InstanceIsNotRunningException _)) => true
  | _ => false
  end.

(** Every failed call that is not swallowed ends the phase without success,
    with nothing but messages after it. *)
Fixpoint guarded (t : list Event) (ok : bool) : Prop :=
  match t with
  | [] => True
  | e :: t' =>
      (is_error e = true -> swallowed e = false ->
       ok = false /\ Forall (fun x => is_print x = true) t')
      /\ guarded t' ok
  end.

(** Reading the ACLs of the project and their [usedBy]. *)
Definition acl_scan_event (e : Event) : bool :=
  match e with
  | EvPrint _ | EvCall (AclsList _) _ | EvCall (AclUsedBy _) _ => true
  | _ => false
  end.

(** Discovering the instance's address and network, reading forwards,
    removing forward ports. *)
Definition forward_event (e : Event) : bool :=
  match e with
  | EvPrint _
  | EvCall (InstanceStatus _) _ | EvCall (InstanceDevices _) _
  | EvCall (InstanceState _) _ | EvCall (InstanceExpandedDevices _) _
  | EvCall (NetworksGet _ _) _ | EvCall (ForwardsList _) _
  | EvCall (ForwardPorts _) _ | EvCall (ForwardRemovePort _ _ _) _ => true
  | _ => false
  end.

(** ACL [a] was seen with exactly one [usedBy] entry, and that entry names
    the instance (contains its name). *)
Definition referenced_once (i : Instance) (t : list Event) (a : NetworkACL) : Prop :=
  exists u ref u',
    length u = 1%nat /\
    EvCall (AclUsedBy a) (Ok u) ∈ t /\
    EvCall (AclUsedBy a) (Ok (ref :: u')) ∈ t /\
    str_in (instance_name i) ref = true.

Definition scan_phase (i : Instance) (acls : list NetworkACL) : Phase :=
  fun t ok =>
    Forall (fun e => acl_scan_event e = true) t /\
    guarded t ok /\
    (ok = true -> Forall (referenced_once i t) acls).

Definition forward_phase : Phase :=
  fun t ok => Forall (fun e => forward_event e = true) t /\ guarded t ok.

Definition pause_continues (r : result unit) : bool :=
  match r with
  | Ok _ | Err (InstanceException InstanceIsNotRunningException _) => true
  | Err _ => false
  end.

Definition stop_continues (r : result unit) : bool :=
  match r with
  | Ok _
  | Err (InstanceException InstanceIsAlreadyStoppedException _)
  | Err (InstanceException InstanceIsNotRunningException _) => true
  | Err _ => false
  end.

Definition delete_continues (r : result unit) : bool :=
  match r with Ok _ => true | Err _ => false end.

Definition pause_phase (i : Instance) : Phase :=
  fun t ok => exists r msgs,
    t = EvCall (InstancePause i) r :: msgs /\
    Forall (fun x => is_print x = true) msgs /\ ok = pause_continues r.

Definition stop_phase (i : Instance) : Phase :=
  fun t ok => exists r msgs,
    t = EvCall (InstanceStop i) r :: msgs /\
    Forall (fun x => is_print x = true) msgs /\ ok = stop_continues r.

Definition delete_phase (i : Instance) : Phase :=
  fun t ok => exists r msgs,
    t = EvCall (InstanceDelete i) r :: msgs /\
    Forall (fun x => is_print x = true) msgs /\ ok = delete_continues r.

(** Each identified ACL is looked at again, in turn, and deleted only when
    its [usedBy] is empty at that moment. *)
Inductive cleanup_phase : list NetworkACL -> Phase :=
| cleanup_done : cleanup_phase [] [] true
| cleanup_keep a acls u t ok :
    u <> [] -> cleanup_phase acls t ok ->
    cleanup_phase (a :: acls) (EvCall (AclUsedBy a) (Ok u) :: t) ok
| cleanup_delete a acls msgs t ok :
    Forall (fun x => is_print x = true) msgs -> cleanup_phase acls t ok ->
    cleanup_phase (a :: acls)
      (EvCall (AclUsedBy a) (Ok []) :: EvCall (AclDelete a) (Ok tt) :: msgs ++ t) ok
| cleanup_read_fails a acls e :
    cleanup_phase (a :: acls) [EvCall (AclUsedBy a) (Err e)] false
| cleanup_delete_fails a acls e :
    cleanup_phase (a :: acls)
      [EvCall (AclUsedBy a) (Ok []); EvCall (AclDelete a) (Err e)] false.

(** The ACL a call asks to delete, and what a successful [usedBy] read saw. *)
Definition deletes_acl (e : Event) : option NetworkACL :=
  match e with EvCall (AclDelete a) _ => Some a | _ => None end.

Definition reads_usedBy (e : Event) : option (NetworkACL * list string) :=
  match e with EvCall (AclUsedBy a) (Ok u) => Some (a, u) | _ => None end.

(** ** Port forwards and static addresses ([deploy.py], lines 258-317) *)

(** [Config.Network.Forward] *)
Record Forward := {
  forward_source : Z;
  forward_destination : Z;
  forward_protocol : string
}.

Definition setForwardsPorts (project : Project) (args : Args)
    (instance : InstanceRef) (network : string) (listenAddress : option string)
    (forwards : list Forward) : Prog unit :=
  instance <- resolve project instance ;;
  state <- call (InstanceState instance) ;;
  eth0 <- getitem state "eth0" ;;
  let '(targetAddress4, targetAddress6) := scan_addresses eth0 in
  if bool_decide (targetAddress4 = None) && bool_decide (targetAddress6 = None) then
    Print "Failed to find IPv4 or IPv6 addresses for instance." (SysExit 1)
  else
    let targetAddress := if truthy targetAddress4 then targetAddress4 else targetAddress6 in
    network <- call (NetworksGet project network) ;;
    forward <- call (ForwardsGet network listenAddress) ;;
    for_each forwards (fun f =>
      call (ForwardAddPort forward (forward_protocol f) (forward_source f)
              targetAddress (forward_destination f)) ;;
      when (verbose args)
        (print ("[DEBUG] Forward port was added: " +:+ pretty (forward_source f)))).

(** [devices["eth0"][key] = value] *)
Definition set_eth0 (key value : string) (devices : Devices) : Devices :=
  alter (insert key value) "eth0" devices.

(** The first global-scope address of a family in the list, if any: the
    loops of [setStaticIP] that stop at the first match. *)
Fixpoint first_global (fam : string) (addresses : list Address) : option string :=
  match addresses with
  | [] => None
  | a :: rest =>
      if String.eqb (family a) fam && String.eqb (scope a) "global"
      then Some (address a)
      else first_global fam rest
  end.

(** Python functions and [pyincus] helpers the script calls and whose code
    is outside the repository. *)
Inductive IPAddress :=
| IPv4 (ip : Z)
| IPv6 (ip : Z).

Record IPNetwork := {
  net_v6 : bool;
  network_address : Z;
  prefixlen : Z
}.

Definition max_prefixlen (v6 : bool) : Z := if v6 then 128 else 32.

Definition netmask (n : IPNetwork) : Z :=
  Z.shiftl (Z.ones (prefixlen n)) (max_prefixlen (net_v6 n) - prefixlen n).

(** [a in n] for an address and a network of the [ipaddress] module. *)
Definition ip_in (a : IPAddress) (n : IPNetwork) : bool :=
  match a with
  | IPv4 ip => negb (net_v6 n) && Z.eqb (Z.land ip (netmask n)) (network_address n)
  | IPv6 ip => net_v6 n && Z.eqb (Z.land ip (netmask n)) (network_address n)
  end.

Class PyLib := {
  (** [pyincus.utils.isFalse], [pyincus.utils.isNone] *)
  isFalse : option string -> bool;
  isNone : string -> bool;
  (** validators of the [pyincus] models: [None] when the value is accepted,
      the exception raised otherwise *)
  validateObjectFormat : list (option string) -> option PyExc;
  validateImageName : string -> option PyExc;
  validatePortList : Z -> option PyExc;
  validateGress : list Dict -> option PyExc;
  possibleProtocols : list string;
  (** [ipaddress]: [None] when the constructor raises *)
  IPv4Address : string -> option Z;
  IPv6Address : string -> option Z;
  ip_address : string -> option IPAddress;
  ip_network : string -> option IPNetwork;
  (** [str(devices)] *)
  str_devices : Devices -> string
}.

Section WithPyLib.
Context {pylib : PyLib}.

Definition setStaticIP (project : Project) (args : Args) (instance : InstanceRef)
    (ipv4 ipv6 : option string) : Prog unit :=
  instance <- resolve project instance ;;
  devices <- call (InstanceDevices instance) ;;
  devices <-
    (match devices !! "eth0" with
     | None =>
         expanded <- call (InstanceExpandedDevices instance) ;;
         eth0 <- getitem expanded "eth0" ;;
         Ret (<["eth0" := eth0]> devices)
     | Some _ => Ret devices
     end) ;;
  devices <-
    (if truthy ipv4 then Ret (set_eth0 "ipv4.address" (fmt ipv4) devices)
     else
       state <- call (InstanceState instance) ;;
       eth0 <- getitem state "eth0" ;;
       match first_global "inet" eth0 with
       | Some a => Ret (set_eth0 "ipv4.address" a devices)
       | None => Ret devices
       end) ;;
  expanded <- call (InstanceExpandedDevices instance) ;;
  eth0 <- getitem expanded "eth0" ;;
  netname <- getitem eth0 "network" ;;
  network <- call (NetworksGet project netname) ;;
  config <- call (NetworkConfig network) ;;
  stateful <-
    (match config !! "ipv6.dhcp.stateful" with
     | None => Ret false
     | Some _ =>
         config <- call (NetworkConfig network) ;;
         v <- getitem config "ipv6.dhcp.stateful" ;;
         Ret (truthy (Some v))
     end) ;;
  devices <-
    (if stateful : bool then
       if truthy ipv6 then Ret (set_eth0 "ipv6.address" (fmt ipv6) devices)
       else
         state <- call (InstanceState instance) ;;
         eth0 <- getitem state "eth0" ;;
         match first_global "inet6" eth0 with
         | Some a => Ret (set_eth0 "ipv6.address" a devices)
         | None => Ret devices
         end
     else Ret devices) ;;
  call (InstanceSetDevices instance devices) ;;
  when (verbose args)
    (print ("[DEBUG] Instance has now static ips: " +:+ instance_name instance
            +:+ " with " +:+ str_devices devices +:+ ".")).

(** ** Waiting for addresses ([deploy.py], lines 319-352) *)

(** [(not ipv4Enabled or ipv4) and (not ipv6Enabled or ipv6)] *)
Definition satisfied (ipv4Enabled ipv6Enabled : bool) (ipv4 ipv6 : option string) : bool :=
  (negb ipv4Enabled || truthy ipv4) && (negb ipv6Enabled || truthy ipv6).

(** [family == fam and scope == "global" and ip_address(address) in subnet];
    [ip_address] raises [ValueError] on a string that is no address. *)
Definition candidate (fam : string) (subnet : option IPNetwork) (a : Address)
    : result bool :=
  if String.eqb (family a) fam && String.eqb (scope a) "global" then
    match ip_address (address a), subnet with
    | Some ip, Some n => Ok (ip_in ip n)
    | Some _, None => Err (TypeError "argument of type 'NoneType' is not iterable")
    | None, _ =>
        Err (ValueError ("'" +:+ address a +:+
                         "' does not appear to be an IPv4 or IPv6 address"))
    end
  else Ok false.

(** One pass of the [for] loop over the interface's addresses: the values
    of [ipv4] and [ipv6] when the loop ends. *)
Fixpoint scan_candidates (ipv4Enabled ipv6Enabled : bool)
    (subnet4 subnet6 : option IPNetwork) (addresses : list Address)
    (ipv4 ipv6 : option string) : result (option string * option string) :=
  match addresses with
  | [] => Ok (ipv4, ipv6)
  | a :: rest =>
      match (if ipv4Enabled then candidate "inet" subnet4 a else Ok false) with
      | Err e => Err e
      | Ok is4 =>
          let ipv4 := if is4 then Some (address a) else ipv4 in
          match (if ipv6Enabled then candidate "inet6" subnet6 a else Ok false) with
          | Err e => Err e
          | Ok is6 =>
              let ipv6 := if is6 then Some (address a) else ipv6 in
              if satisfied ipv4Enabled ipv6Enabled ipv4 ipv6 then Ok (ipv4, ipv6)
              else scan_candidates ipv4Enabled ipv6Enabled subnet4 subnet6 rest ipv4 ipv6
          end
      end
  end.

(** The [while(True)] loop, for at most [fuel] polls. *)
Fixpoint waitForIPAddresses_loop (fuel : nat) (instance : Instance)
    (ipv4Enabled ipv6Enabled : bool) (subnet4 subnet6 : option IPNetwork)
    (ipv4 ipv6 : option string) : Prog unit :=
  match fuel with
  | O => OutOfFuel
  | S fuel' =>
      state <- call (InstanceState instance) ;;
      eth0 <- getitem state "eth0" ;;
      match scan_candidates ipv4Enabled ipv6Enabled subnet4 subnet6 eth0 ipv4 ipv6 with
      | Err e => Raise e
      | Ok (ipv4, ipv6) =>
          if satisfied ipv4Enabled ipv6Enabled ipv4 ipv6 then Ret tt
          else
            Sleep (waitForIPAddresses_loop fuel' instance ipv4Enabled ipv6Enabled
                     subnet4 subnet6 ipv4 ipv6)
      end
  end.

(** [not isFalse(static) and (key in network.config and
    not isNone(network.config[key]))] *)
Definition family_enabled (network : Network) (static : option string)
    (key : string) : Prog bool :=
  if isFalse static then Ret false
  else
    config <- call (NetworkConfig network) ;;
    match config !! key with
    | None => Ret false
    | Some _ =>
        config <- call (NetworkConfig network) ;;
        v <- getitem config key ;;
        Ret (negb (isNone v))
    end.

(** [ip_network(network.config[key], strict=False) if enabled else None] *)
Definition family_subnet (network : Network) (enabled : bool) (key : string)
    : Prog (option IPNetwork) :=
  if enabled then
    config <- call (NetworkConfig network) ;;
    v <- getitem config key ;;
    match ip_network v with
    | Some n => Ret (Some n)
    | None =>
        Raise (ValueError ("'" +:+ v +:+
                           "' does not appear to be an IPv4 or IPv6 network"))
    end
  else Ret None.

(** [project] is the module-level variable the function reads. *)
Definition waitForIPAddresses (project : Project) (fuel : nat)
    (instance : InstanceRef) (staticIPv4 staticIPv6 : option string) : Prog unit :=
  instance <- resolve project instance ;;
  status <- call (InstanceStatus instance) ;;
  (if negb (String.eqb (lower status) "running") then
     status <- call (InstanceStatus instance) ;;
     Raise (Exception ("Instance is not running: " +:+ status))
   else Ret tt) ;;
  expanded <- call (InstanceExpandedDevices instance) ;;
  eth0 <- getitem expanded "eth0" ;;
  netname <- getitem eth0 "network" ;;
  network <- call (NetworksGet project netname) ;;
  ipv4Enabled <- family_enabled network staticIPv4 "ipv4.address" ;;
  ipv6Enabled <- family_enabled network staticIPv6 "ipv6.address" ;;
  subnet4 <- family_subnet network ipv4Enabled "ipv4.address" ;;
  subnet6 <- family_subnet network ipv6Enabled "ipv6.address" ;;
  waitForIPAddresses_loop fuel instance ipv4Enabled ipv6Enabled subnet4 subnet6
    None None.

(** ** The desired-state model ([deploy.py], lines 373-483)

    A mapping loaded from the configuration file and the object built from
    it have the same fields, so one record stands for both: each [_init]
    below takes the loaded values and returns the validated object, or the
    exception the constructor raises.  A mapping that is absent, [None] or
    empty is [None]: the constructors only test its truth value. *)

Record Image := { Image_name : string; Image_remote : string }.

Record Launch := {
  Launch_image : Image;
  Launch_config : option Dict;
  Launch_isVM : bool
}.

Record Copy := {
  Copy_name : string;
  Copy_remote : string;
  Copy_project : option string;
  Copy_config : option Dict
}.

Record ACL := {
  ACL_name : string;
  ACL_description : option string;
  ACL_egress : list Dict;
  ACL_ingress : list Dict
}.

Record NetworkSpec := {
  Network_name : string;
  Network_type : option string;
  Network_description : option string;
  Network_config : option Dict;
  Network_action : string;
  Network_listenAddress : option string;
  Network_ipv4 : option string;
  Network_ipv6 : option string;
  Network_staticIp : bool;
  Network_forwards : list Forward;
  Network_acls : list ACL
}.

Record Config := {
  Config_name : string;
  Config_remote : string;
  Config_project : string;
  Config_launch : option Launch;
  Config_copy : option Copy;
  Config_network : option NetworkSpec
}.

(** The same declaration with another [config] mapping. *)
Definition with_config (config : option Dict) (network : NetworkSpec) : NetworkSpec :=
  {| Network_name := Network_name network;
     Network_type := Network_type network;
     Network_description := Network_description network;
     Network_config := config;
     Network_action := Network_action network;
     Network_listenAddress := Network_listenAddress network;
     Network_ipv4 := Network_ipv4 network;
     Network_ipv6 := Network_ipv6 network;
     Network_staticIp := Network_staticIp network;
     Network_forwards := Network_forwards network;
     Network_acls := Network_acls network |}.

(** Sequencing of constructors that may raise. *)
Definition and_then {A B : Type} (r : result A) (f : A -> result B) : result B :=
  match r with
  | Ok a => f a
  | Err e => Err e
  end.

Definition check (v : option PyExc) : result unit :=
  match v with
  | None => Ok tt
  | Some e => Err e
  end.

Fixpoint init_all {A : Type} (init : A -> result A) (l : list A) : result (list A) :=
  match l with
  | [] => Ok []
  | x :: l' =>
      and_then (init x) (fun y =>
      and_then (init_all init l') (fun ys => Ok (y :: ys)))
  end.

Definition init_opt {A : Type} (init : A -> result A) (o : option A) : result (option A) :=
  match o with
  | Some x => and_then (init x) (fun y => Ok (Some y))
  | None => Ok None
  end.

Definition Image_init (image : Image) : result Image :=
  and_then (check (validateObjectFormat [Some (Image_remote image)])) (fun _ =>
  and_then (check (validateImageName (Image_name image))) (fun _ =>
  Ok image)).

Definition Launch_init (launch : Launch) : result Launch :=
  and_then (Image_init (Launch_image launch)) (fun image =>
  Ok {| Launch_image := image;
        Launch_config := Launch_config launch;
        Launch_isVM := Launch_isVM launch |}).

Definition Copy_init (copy : Copy) : result Copy :=
  and_then (check (validateObjectFormat
                     [Some (Copy_name copy); Some (Copy_remote copy); Copy_project copy]))
    (fun _ => Ok copy).

Definition Forward_init (forward : Forward) : result Forward :=
  and_then (check (validatePortList (forward_source forward))) (fun _ =>
  and_then (check (validatePortList (forward_destination forward))) (fun _ =>
  if bool_decide (lower (forward_protocol forward) ∈ possibleProtocols) then
    Ok {| forward_source := forward_source forward;
          forward_destination := forward_destination forward;
          forward_protocol := lower (forward_protocol forward) |}
  else
    Err (Exception ("Forward protocol must be within these values: "
                    +:+ str_list possibleProtocols)))).

Definition ACL_init (acl : ACL) : result ACL :=
  and_then (check (validateObjectFormat [Some (ACL_name acl)])) (fun _ =>
  and_then (check (validateGress (ACL_egress acl))) (fun _ =>
  and_then (check (validateGress (ACL_ingress acl))) (fun _ =>
  Ok acl))).

Definition Network_init (network : NetworkSpec) : result NetworkSpec :=
  and_then (check (validateObjectFormat [Some (Network_name network)])) (fun _ =>
  and_then
    (if truthy (Network_listenAddress network) then
       match IPv4Address (fmt (Network_listenAddress network)),
             IPv6Address (fmt (Network_listenAddress network)) with
       | None, None => Err (Exception "listen_address must be a valid IPv4/IPv6 address.")
       | _, _ => Ok tt
       end
     else Ok tt) (fun _ =>
  and_then
    (if truthy (Network_ipv4 network) && negb (isFalse (Network_ipv4 network)) then
       match IPv4Address (fmt (Network_ipv4 network)) with
       | None => Err (Exception "ipv4 must be a valid IPv4 address.")
       | Some _ => Ok tt
       end
     else Ok tt) (fun _ =>
  and_then
    (if truthy (Network_ipv6 network) && negb (isFalse (Network_ipv6 network)) then
       match IPv6Address (fmt (Network_ipv6 network)) with
       | None => Err (Exception "ipv6 must be a valid IPv6 address.")
       | Some _ => Ok tt
       end
     else Ok tt) (fun _ =>
  and_then (init_all Forward_init (Network_forwards network)) (fun forwards =>
  and_then (init_all ACL_init (Network_acls network)) (fun acls =>
  Ok {| Network_name := Network_name network;
        Network_type := Network_type network;
        Network_description := Network_description network;
        Network_config := Network_config network;
        Network_action := Network_action network;
        Network_listenAddress := Network_listenAddress network;
        Network_ipv4 := Network_ipv4 network;
        Network_ipv6 := Network_ipv6 network;
        Network_staticIp := Network_staticIp network;
        Network_forwards := forwards;
        Network_acls := acls |})))))).

Definition Config_init (conf : Config) : result Config :=
  and_then (check (validateObjectFormat
                     [Some (Config_name conf); Some (Config_remote conf);
                      Some (Config_project conf)])) (fun _ =>
  if bool_decide (is_Some (Config_launch conf)) && bool_decide (is_Some (Config_copy conf)) then
    Err (Exception "There can only be one of them: launch and copy")
  else
    and_then (init_opt Launch_init (Config_launch conf)) (fun launch =>
    and_then (init_opt Copy_init (Config_copy conf)) (fun copy =>
    and_then (init_opt Network_init (Config_network conf)) (fun network =>
    Ok {| Config_name := Config_name conf;
          Config_remote := Config_remote conf;
          Config_project := Config_project conf;
          Config_launch := launch;
          Config_copy := copy;
          Config_network := network |})))).

(** ** The script body ([deploy.py], lines 485-709) *)

Definition help_examples : string := "config:
  name: test-challenge-deployment-on-default
  remote: local
  project: default
  launch: (if launching an instance. Can't be used with copy)
    image:
      remote: images
      name: ubuntu/20.04
    config: (optional)
      limits.cpu: 1
      limits.memory: 1GiB
    is_virtual_machine: false (default: false)
  copy: (if copying an instance. Can't be used with launch)
    remote: local (default: config.remote)
    project: default (default: config.project)
    name: template-ubuntu-1404
    config: (optional)
      limits.cpu: 1
      limits.memory: 1GiB
  network:
    name: testnetwork (required if forwards is present)
    description: testnetwork (optional)
    _type: ovn (required if creating a new network)
    action: update (optional, values are 'create' (throws if already exists), 'skip' (skip the creation if already exists), 'update' (create or update if already exists))
    config:
      network: default (required if '_type' is ovn)
    listen_address: 45.45.148.200 (required if forwards is present)
    static_ip: true (default: false)
    ipv4: 10.66.241.3 (optional, does not require static_ip to be set)
    ipv6: fd42:989b:45bb:a2f9:216:3eff:fe39:1980 (optional, does not require static_ip to be set)
    forwards:
      - source: 21234
        destination: 80
        protocol: tcp (default: tcp)
    acls:
      - name: allow-ingress-external (if only name is present, assumes it already exists)
      - name: testing-testing-one-two (if more parameters are present, create acl)
        description: Testing testing one two (optional)
        egress: (optional)
        - action: allow
          state: enabled
          description: Egress for testing testing one two (optional)
          source: 10.66.241.2 (optional)
          destination: 10.66.241.3 (optional)
          source_port: 80 (optional)
          destination_port: 80 (optional)
          protocol: tcp (required only if source_port or destination_port are present)
        ingress: [] (optional)


It can also be a list of instances with each their own configuration.
config:
  - name: test-challenge-deployment-1
    remote: local
    project: default
    copy: (if copying an instance. Can't be used with launch)
      remote: local (default: config.remote)
      project: default (default: config.project)
      name: template-ubuntu-1404
  - name: test-challenge-deployment-2
    remote: local
    project: ringzer1
    launch: (if launching an instance. Can't be used with copy)
      image:
        remote: images
        name: ubuntu/20.04
      is_virtual_machine: false (default: false)
".

Definition printHelp : Prog unit :=
  Print "Review config file format." (Print "" (Print "Examples:"
    (Print help_examples (Ret tt)))).

(** The purge branch (lines 501-527); [args.force = True] is set first. *)
Definition main_purge (args : Args) : Prog unit :=
  let args := {| challengePath := challengePath args; verbose := verbose args;
                 force := true;
                 keepInstancesOnFailure := keepInstancesOnFailure args;
                 apply := apply args; test := test args; purge := purge args;
                 arg_remote := arg_remote args; arg_project := arg_project args |} in
  if negb (truthy (arg_remote args)) || negb (truthy (arg_project args)) then
    Print "Missing --remote and/or --project arguments." (SysExit 1)
  else
    found <- call (RemotesExists (fmt (arg_remote args))) ;;
    if negb found then
      Print ("Remote was not found: " +:+ fmt (arg_remote args)) (SysExit 1)
    else
      remote <- call (RemotesGet (fmt (arg_remote args))) ;;
      found <- call (ProjectsExists remote (fmt (arg_project args))) ;;
      if negb found then
        Print ("Project was not found: " +:+ fmt (arg_project args)) (SysExit 1)
      else
        project <- call (ProjectsGet remote (fmt (arg_project args))) ;;
        found <- call (InstancesExists project (challengePath args)) ;;
        if negb found then
          Print ("Instance was not found: " +:+ challengePath args) (SysExit 1)
        else
          instance <- call (InstancesGet project (challengePath args)) ;;
          destroy project args instance ;;
          SysExit 1.

(** The value of [configContent["config"]]. *)
Inductive ConfigContent :=
| ConfigList (l : list Config)
| ConfigDict (c : Config)
| ConfigOther.

(** Lines 567-580: building the list of [Config] objects. *)
Definition main_load_config (content : ConfigContent) : Prog (list Config) :=
  match
    match content with
    | ConfigList l => init_all Config_init l
    | ConfigDict c => and_then (Config_init c) (fun c' => Ok [c'])
    | ConfigOther => Err (Exception "")
    end
  with
  | Ok config => Ret config
  | Err error =>
      printHelp ;;
      Print (exc_type_name error +:+ ": " +:+ exc_str error) (SysExit 1)
  end.

(** The keyword arguments handed to [deploy] (lines 598-618, 654). *)
Record DeployKwargs := {
  kw_name : string;
  kw_remoteSource : option string;
  kw_projectSource : option string;
  kw_nameSource : option string;
  kw_isClone : bool;
  kw_isVM : bool;
  kw_config : option Dict;
  kw_network : option Network
}.

Definition main_kwargs (conf : Config) (network : option Network) : DeployKwargs :=
  let kwargs :=
    {| kw_name := Config_name conf; kw_remoteSource := None;
       kw_projectSource := None; kw_nameSource := None;
       kw_isClone := false; kw_isVM := false;
       kw_config := None; kw_network := network |} in
  let kwargs :=
    match Config_launch conf with
    | Some launch =>
        {| kw_name := kw_name kwargs;
           kw_remoteSource := Some (Image_remote (Launch_image launch));
           kw_projectSource := kw_projectSource kwargs;
           kw_nameSource := Some (Image_name (Launch_image launch));
           kw_isClone := kw_isClone kwargs;
           kw_isVM := Launch_isVM launch;
           kw_config := Launch_config launch;
           kw_network := kw_network kwargs |}
    | None => kwargs
    end in
  match Config_copy conf with
  | Some copy =>
      {| kw_name := kw_name kwargs;
         kw_remoteSource := Some (Copy_remote copy);
         kw_projectSource := Copy_project copy;
         kw_nameSource := Some (Copy_name copy);
         kw_isClone := true;
         kw_isVM := kw_isVM kwargs;
         kw_config := Copy_config copy;
         kw_network := kw_network kwargs |}
  | None => kwargs
  end.

(** [{**existing, **new}] *)
Definition dict_merge (existing new : Dict) : Dict := new ∪ existing.

(** Lines 620-654: reconciling the declared network; the value is the
    variable [network] when the block ends. *)
Definition main_network (project : Project) (args : Args) (net : NetworkSpec)
    : Prog (option Network) :=
  let name := Network_name net in
  let action := Network_action net in
  if bool_decide (action ∈ ["create"; "update"; "skip"]) then
    found <- call (NetworksExists project name) ;;
    if found then
      if negb (String.eqb action "skip") && String.eqb action "create" then
        Raise (Exception ("Network '" +:+ name +:+ "' already exists."))
      else if String.eqb action "skip" then
        network <- call (NetworksGet project name) ;;
        Ret (Some network)
      else if String.eqb action "update" then
        when (verbose args)
          (Print ("[DEBUG] Network '" +:+ name +:+ "' already existed.")
             (print ("[DEBUG] Updating network: '" +:+ name +:+ "'"))) ;;
        network <- call (NetworksGet project name) ;;
        description <- call (NetworkDescription network) ;;
        (if bool_decide (description <> Network_description net) then
           call (NetworkSetDescription network (Network_description net))
         else Ret tt) ;;
        existing <- call (NetworkConfig network) ;;
        match Network_config net with
        | Some new => call (NetworkSetConfig network (dict_merge existing new))
        | None => Raise (TypeError "'NoneType' object is not a mapping")
        end ;;
        Ret (Some network)
      else Ret None
    else
      if negb (truthy (Network_type net)) then
        Raise (Exception "Type must be specified when creating a network.")
      else
        when (verbose args) (print ("[DEBUG] Creating network: " +:+ name)) ;;
        network <- call (NetworksCreate project name (Network_type net)
                           (Network_description net) (Network_config net)) ;;
        Ret (Some network)
  else
    found <- call (NetworksExists project name) ;;
    if negb found then
      Raise (Exception ("Network was not found: " +:+ name))
    else
      network <- call (NetworksGet project name) ;;
      Ret (Some network).

(** Lines 598-659 for one [conf]: assemble the arguments, reconcile the
    network, then deploy, or fetch the instance in apply mode. *)
Definition main_provision (project : Project) (args : Args) (conf : Config)
    : Prog Instance :=
  network <-
    (match Config_network conf with
     | Some net => main_network project args net
     | None => Ret None
     end) ;;
  let kwargs := main_kwargs conf network in
  if negb (apply args) then
    deploy project args (kw_name kwargs) (kw_nameSource kwargs)
      (kw_remoteSource kwargs) (kw_projectSource kwargs) (kw_config kwargs)
      (kw_network kwargs) (kw_isVM kwargs) (kw_isClone kwargs)
  else call (InstancesGet project (Config_name conf)).

(** ** Waiting for addresses, as the specification words it *)

(** A global-scope address of family [fam] that lies inside [subnet]. *)
Definition in_subnet (fam : string) (subnet : IPNetwork) (a : Address) : bool :=
  String.eqb (family a) fam && String.eqb (scope a) "global" &&
  match ip_address (address a) with
  | Some ip => ip_in ip subnet
  | None => false
  end.

(** What the hypervisor reports as an address is a non-empty string that
    [ip_address] accepts. *)
Definition well_formed (a : Address) : Prop :=
  address a <> "" /\ is_Some (ip_address (address a)).

(** A family is enabled when the caller did not suppress it and the network
    config declares a subnet for it. *)
Definition enabled (config : Dict) (static : option string) (key : string) : bool :=
  negb (isFalse static) &&
  match config !! key with
  | Some v => negb (isNone v)
  | None => false
  end.

End WithPyLib.

(** The network config a call read, and the interface state a poll read. *)
Definition reads_config (e : Event) : option Dict :=
  match e with EvCall (NetworkConfig _) (Ok c) => Some c | _ => None end.

Definition reads_state (e : Event) : option (gmap string (list Address)) :=
  match e with EvCall (InstanceState _) (Ok st) => Some st | _ => None end.

(** Every read of the network config in the trace returned [config]. *)
Definition config_is (config : Dict) (t : list Event) : Prop :=
  Forall (fun e => forall c, reads_config e = Some c -> c = config) t.

(** ** Forward-port removal, as the specification words it *)

(** A port entry is named, inside its forward, by protocol and listen port. *)
Definition port_key (port : Port) : string * string :=
  (port_protocol port, port_listen_port port).

(** Modelled from the spec: the hypervisor's side of a removal request,
    which is not in the repository.  A request drops from the forward the
    entries with that protocol and listen port. *)
Definition remove_port (key : string * string) (ports : list Port) : list Port :=
  filter (fun port => port_key port <> key) ports.

Definition apply_removals (keys : list (string * string)) (ports : list Port) : list Port :=
  foldl (fun ports key => remove_port key ports) ports keys.

(** The target address a call registers a forward port for. *)
Definition adds_port_for (e : Event) : option (option string) :=
  match e with
  | EvCall (ForwardAddPort _ _ _ targetAddress _) _ => Some targetAddress
  | _ => None
  end.

(** [devices["eth0"]["ipv4.address"]], when present. *)
Definition static_ipv4 (devices : Devices) : option string :=
  devices !! "eth0" ≫= (fun eth0 => eth0 !! "ipv4.address").

(** The device map a call writes to an instance. *)
Definition sets_devices (e : Event) : option Devices :=
  match e with EvCall (InstanceSetDevices _ d) _ => Some d | _ => None end.

(** ** Programs that always end

    [ends_with_1 p]: [p] has no unbounded loop, and every [sys.exit] it can
    reach has status 1. *)
Fixpoint ends_with_1 {A : Type} (p : Prog A) : Prop :=
  match p with
  | Ret _ | Raise _ => True
  | SysExit c => c = 1
  | Print _ k | Sleep k => ends_with_1 k
  | OutOfFuel => False
  | Call op k => forall r, ends_with_1 (k r)
  end.

(** ** A concrete library and a scripted hypervisor

    Used to run the programs on examples: an [ipaddress] that reads IPv4
    dotted quads and prefix lengths, validators that accept everything, and
    a hypervisor that answers from a fixed script and counts the calls. *)
Module Demo.

Definition digit (c : ascii) : option Z :=
  let n := Z.of_nat (nat_of_ascii c) in
  if Z.leb 48 n && Z.leb n 57 then Some (n - 48) else None.

Fixpoint decimal_from (acc : Z) (s : string) : option Z :=
  match s with
  | EmptyString => Some acc
  | String c s' =>
      match digit c with
      | Some d => decimal_from (10 * acc + d) s'
      | None => None
      end
  end.

(** A non-empty string of decimal digits. *)
Definition decimal (s : string) : option Z :=
  match s with
  | EmptyString => None
  | _ => decimal_from 0 s
  end.

(** [s.split(sep)] *)
Fixpoint split (sep : ascii) (s : string) : list string :=
  match s with
  | EmptyString => [EmptyString]
  | String c s' =>
      if Ascii.eqb c sep then EmptyString :: split sep s'
      else
        match split sep s' with
        | x :: xs => String c x :: xs
        | [] => [String c EmptyString]
        end
  end.

(** One octet: one to three digits, no leading zero, at most 255. *)
Definition octet (s : string) : option Z :=
  match decimal s with
  | Some n =>
      if Nat.leb (String.length s) 3 && Z.leb n 255
         && (String.eqb s "0" || negb (String.prefix "0" s))
      then Some n else None
  | None => None
  end.

Definition parse_ipv4 (s : string) : option Z :=
  match split "." s with
  | [a; b; c; d] =>
      match octet a, octet b, octet c, octet d with
      | Some a, Some b, Some c, Some d =>
          Some (Z.shiftl a 24 + Z.shiftl b 16 + Z.shiftl c 8 + d)
      | _, _, _, _ => None
      end
  | _ => None
  end.

(** [ip_network(s, strict=False)] for [a.b.c.d] and [a.b.c.d/len]: the host
    bits are masked off. *)
Definition parse_ipv4_network (s : string) : option IPNetwork :=
  match split "/" s with
  | [a] =>
      match parse_ipv4 a with
      | Some ip => Some {| net_v6 := false; network_address := ip; prefixlen := 32 |}
      | None => None
      end
  | [a; len] =>
      match parse_ipv4 a, decimal len with
      | Some ip, Some n =>
          if Z.leb n 32 then
            let net := {| net_v6 := false; network_address := 0; prefixlen := n |} in
            Some {| net_v6 := false;
                    network_address := Z.land ip (netmask net);
                    prefixlen := n |}
          else None
      | _, _ => None
      end
  | _ => None
  end.

Definition lib : PyLib := {|
  isFalse := fun o => bool_decide (lower <$> o = Some "false");
  isNone := fun s => bool_decide (lower s = "none");
  validateObjectFormat := fun _ => None;
  validateImageName := fun _ => None;
  validatePortList := fun _ => None;
  validateGress := fun _ => None;
  possibleProtocols := ["tcp"; "udp"];
  IPv4Address := parse_ipv4;
  IPv6Address := fun _ => None;
  ip_address := fun s => IPv4 <$> parse_ipv4 s;
  ip_network := parse_ipv4_network;
  str_devices := fun _ => "{...}"
|}.

(** What the scripted hypervisor answers.  [clock] is the number of calls
    answered so far; [fails] names the calls that raise. *)
Record Script := {
  exists_ : bool;
  status : string;
  devices : Devices;
  expandedDevices : Devices;
  state : nat -> gmap string (list Address);
  acls : list NetworkACL;
  usedBy : NetworkACL -> nat -> list string;
  description : option string;
  config : Dict;
  forwards : list NetworkForward;
  ports : NetworkForward -> list Port;
  fails : nat -> option PyExc
}.

Definition answer (s : Script) (clock : nat) {R : Type} (op : Op R) : R :=
  match op in Op R return R with
  | RemotesExists _ | ProjectsExists _ _ | InstancesExists _ _
  | AclsExists _ _ | NetworksExists _ _ => exists_ s
  | RemotesGet name => {| remote_name := name |}
  | ProjectsGet r name => {| project_remote := r; project_name := name |}
  | InstancesGet p name | InstancesCopy p _ name _ _ _ _ _ _
  | InstancesLaunch p _ name _ _ _ _ =>
      {| instance_project := p; instance_name := name |}
  | InstanceStart _ | InstancePause _ | InstanceStop _ | InstanceDelete _
  | InstanceRestart _ | InstanceExec _ _ | InstanceSetDevices _ _
  | AclDelete _ | NetworkSetDescription _ _ | NetworkSetConfig _ _
  | ForwardRemovePort _ _ _ | ForwardAddPort _ _ _ _ _ => tt
  | InstanceStatus _ => status s
  | InstanceDevices _ => devices s
  | InstanceExpandedDevices _ => expandedDevices s
  | InstanceState _ => state s clock
  | AclsList _ => acls s
  | AclsGet p name | AclsCreate p name _ _ _ =>
      {| acl_project := p; acl_name := name |}
  | AclUsedBy a => usedBy s a clock
  | NetworksGet p name | NetworksCreate p name _ _ _ =>
      {| network_project := p; network_name := name |}
  | NetworkDescription _ => description s
  | NetworkConfig _ => config s
  | ForwardsList _ => forwards s
  | ForwardsGet n listenAddress =>
      {| forward_network := n; forward_listenAddress := default "" listenAddress |}
  | ForwardPorts f => ports s f
  end.

Definition hypervisor (s : Script) : Handler nat :=
  fun R clock op =>
    (match fails s clock with
     | Some e => Err e
     | None => Ok (answer s clock op)
     end, S clock).

Definition local : Remote := {| remote_name := "local" |}.
Definition default_project : Project :=
  {| project_remote := local; project_name := "default" |}.
Definition web : Instance :=
  {| instance_project := default_project; instance_name := "web" |}.
Definition ovn : Network :=
  {| network_project := default_project; network_name := "testnetwork" |}.

Definition quiet_args : Args :=
  {| challengePath := "web"; verbose := false; force := false;
     keepInstancesOnFailure := false; apply := false; test := false;
     purge := false; arg_remote := Some "local"; arg_project := Some "default" |}.

Definition force_args : Args :=
  {| challengePath := "web"; verbose := false; force := true;
     keepInstancesOnFailure := false; apply := false; test := false;
     purge := false; arg_remote := Some "local"; arg_project := Some "default" |}.

Definition nic : Dict := {[ "type" := "nic"; "network" := "testnetwork" ]}.

(** A running instance on [testnetwork] (10.66.241.1/24), whose interface
    lists an IPv6 global address before the IPv4 one from the third call on,
    and only a link-local address before that. *)
Definition running : Script :=
  {| exists_ := true;
     status := "Running";
     devices := ∅;
     expandedDevices := {[ "eth0" := nic ]};
     state := fun clock =>
       if Nat.ltb clock 12 then
         {[ "eth0" := [ {| family := "inet6"; scope := "link";
                          address := "fe80::216:3eff:fe39:1980" |} ] ]}
       else
         {[ "eth0" := [ {| family := "inet6"; scope := "link";
                          address := "fe80::216:3eff:fe39:1980" |};
                        {| family := "inet"; scope := "global";
                          address := "10.66.241.3" |} ] ]};
     acls := [];
     usedBy := fun _ _ => [];
     description := Some "testnetwork";
     config := {[ "ipv4.address" := "10.66.241.1/24"; "ipv6.address" := "none" ]};
     forwards := [];
     ports := fun _ => [];
     fails := fun _ => None |}.

(** The same instance, whose interface always lists a global IPv6 address
    before the global IPv4 one. *)
Definition dual_stack : Script :=
  {| exists_ := true;
     status := "Running";
     devices := ∅;
     expandedDevices := {[ "eth0" := nic ]};
     state := fun _ =>
       {[ "eth0" := [ {| family := "inet6"; scope := "link";
                        address := "fe80::216:3eff:fe39:1980" |};
                      {| family := "inet6"; scope := "global";
                        address := "fd42:989b:45bb:a2f9:216:3eff:fe39:1980" |};
                      {| family := "inet"; scope := "global";
                        address := "10.66.241.3" |} ] ]};
     acls := [];
     usedBy := fun _ _ => [];
     description := Some "testnetwork";
     config := {[ "ipv4.address" := "10.66.241.1/24";
                  "ipv6.address" := "fd42:989b:45bb:a2f9::1/64" ]};
     forwards := [];
     ports := fun _ => [];
     fails := fun _ => None |}.

Definition shared : NetworkACL :=
  {| acl_project := default_project; acl_name := "shared" |}.
Definition own : NetworkACL :=
  {| acl_project := default_project; acl_name := "web-only" |}.
Definition forward_a : NetworkForward :=
  {| forward_network := ovn; forward_listenAddress := "45.45.148.200" |}.
Definition forward_b : NetworkForward :=
  {| forward_network := ovn; forward_listenAddress := "45.45.148.201" |}.

Definition port (protocol listen target_address target_port : string) : Port :=
  {| port_protocol := protocol; port_listen_port := listen;
     port_target_address := target_address; port_target_port := target_port |}.

(** A running instance at 10.66.241.3 with two ACLs, one shared with another
    instance and one of its own, and two forwards on its network that hold
    ports of this instance and of a neighbour.  The teardown deletes the
    instance with its call numbered 15; the [usedBy] lists shrink from then
    on. *)
Definition teardown : Script :=
  {| exists_ := true;
     status := "Running";
     devices := ∅;
     expandedDevices := {[ "eth0" := nic ]};
     state := fun _ =>
       {[ "eth0" := [ {| family := "inet"; scope := "global";
                        address := "10.66.241.3" |} ] ]};
     acls := [shared; own];
     usedBy := fun a clock =>
       if String.eqb (acl_name a) "shared" then
         if Nat.ltb clock 16 then ["/1.0/instances/web"; "/1.0/instances/db"]
         else ["/1.0/instances/db"]
       else if Nat.ltb clock 16 then ["/1.0/instances/web"] else [];
     description := Some "testnetwork";
     config := {[ "ipv4.address" := "10.66.241.1/24"; "ipv6.address" := "none" ]};
     forwards := [forward_a; forward_b];
     ports := fun f =>
       if String.eqb (forward_listenAddress f) "45.45.148.200" then
         [port "tcp" "21234" "10.66.241.3" "80"; port "tcp" "21235" "10.66.241.4" "80"]
       else [port "udp" "53" "10.66.241.3" "53"];
     fails := fun _ => None |}.

(** A network declaration to be updated, and one with an explicit static
    IPv4 address outside the subnet of [testnetwork]. *)
Definition declared : NetworkSpec :=
  {| Network_name := "testnetwork"; Network_type := Some "ovn";
     Network_description := Some "testnetwork";
     Network_config := Some {[ "ipv4.address" := "10.66.241.1/24" ]};
     Network_action := "update"; Network_listenAddress := None;
     Network_ipv4 := Some "192.168.1.5"; Network_ipv6 := None;
     Network_staticIp := true; Network_forwards := []; Network_acls := [] |}.

(** A declaration with neither [launch] nor [copy]. *)
Definition sourceless : Config :=
  {| Config_name := "web"; Config_remote := "local"; Config_project := "default";
     Config_launch := None; Config_copy := None; Config_network := None |}.

End Demo.

(** ** The two preparatory steps of a teardown, call by call

    What the specification says of the steps before the pause, written on
    the calls of a run: which ACLs are identified, which address is looked
    for, which forwards are read and which port entries are asked to be
    removed.  A step that cannot go on ([false]) ends on the call or the
    read that stopped it. *)

(** A [usedBy] entry names the instance when the instance's name occurs in
    it. *)
Definition names (i : Instance) (ref : string) : Prop :=
  exists pre post, ref = pre +:+ instance_name i +:+ post.

(** The ACLs of the listing are looked at in turn; one is identified when
    its [usedBy] has exactly one entry and that entry names the instance.
    The entry is read a second time for the test on the name. *)
Inductive acl_scan (i : Instance)
    : list NetworkACL -> list NetworkACL -> list Event -> bool -> Prop :=
| acl_scan_done : acl_scan i [] [] [] true
| acl_scan_not_single a rest u found t ok :
    length u <> 1%nat -> acl_scan i rest found t ok ->
    acl_scan i (a :: rest) found (EvCall (AclUsedBy a) (Ok u) :: t) ok
| acl_scan_other a rest u ref u' found t ok :
    length u = 1%nat -> ~ names i ref -> acl_scan i rest found t ok ->
    acl_scan i (a :: rest) found
      (EvCall (AclUsedBy a) (Ok u) :: EvCall (AclUsedBy a) (Ok (ref :: u')) :: t) ok
| acl_scan_identified a rest u ref u' msgs found t ok :
    length u = 1%nat -> names i ref ->
    Forall (fun x => is_print x = true) msgs ->
    acl_scan i rest found t ok ->
    acl_scan i (a :: rest) (a :: found)
      (EvCall (AclUsedBy a) (Ok u) :: EvCall (AclUsedBy a) (Ok (ref :: u'))
       :: msgs ++ t) ok
| acl_scan_read_fails a rest e :
    acl_scan i (a :: rest) [] [EvCall (AclUsedBy a) (Err e)] false
| acl_scan_reread_fails a rest u e :
    length u = 1%nat ->
    acl_scan i (a :: rest) []
      [EvCall (AclUsedBy a) (Ok u); EvCall (AclUsedBy a) (Err e)] false
| acl_scan_entry_gone a rest u :
    length u = 1%nat ->
    acl_scan i (a :: rest) []
      [EvCall (AclUsedBy a) (Ok u); EvCall (AclUsedBy a) (Ok [])] false.

(** Step one: the ACLs of the project are listed and scanned; [found] are
    the ACLs identified, in the order of the listing. *)
Inductive identify_phase (project : Project) (i : Instance)
    (found : list NetworkACL) : Phase :=
| identify_list_fails e :
    identify_phase project i found [EvCall (AclsList project) (Err e)] false
| identify_scan listing t ok :
    acl_scan i listing found t ok ->
    identify_phase project i found (EvCall (AclsList project) (Ok listing) :: t) ok.

(** The addresses teardown looks for.  On a running instance: the address
    of the first entry of the live [eth0] list that has global scope and
    family [inet] or [inet6].  Otherwise: the static IPv4 and IPv6
    overrides of the [eth0] device, those that are set. *)
Definition is_global (a : Address) : bool :=
  bool_decide (scope a = "global" /\ (family a = "inet" \/ family a = "inet6")).

Definition live_addresses (addresses : list Address) : list string :=
  option_list (address <$> List.find is_global addresses).

Definition static_addresses (devices : Devices) : list string :=
  option_list (devices !! "eth0" ≫= (fun eth0 => eth0 !! "ipv4.address")) ++
  option_list (devices !! "eth0" ≫= (fun eth0 => eth0 !! "ipv6.address")).

(** The reads spent on finding the addresses, and the addresses found
    ([None] when a read stopped the run). *)
Inductive address_discovery (i : Instance)
    : list Event -> option (list string) -> Prop :=
| discovery_status_fails e :
    address_discovery i [EvCall (InstanceStatus i) (Err e)] None
| discovery_devices_fails status e :
    lower status <> "running" ->
    address_discovery i
      [EvCall (InstanceStatus i) (Ok status); EvCall (InstanceDevices i) (Err e)]
      None
| discovery_overrides status devices :
    lower status <> "running" ->
    address_discovery i
      [EvCall (InstanceStatus i) (Ok status); EvCall (InstanceDevices i) (Ok devices)]
      (Some (static_addresses devices))
| discovery_state_fails status e :
    lower status = "running" ->
    address_discovery i
      [EvCall (InstanceStatus i) (Ok status); EvCall (InstanceState i) (Err e)]
      None
| discovery_no_interface status state :
    lower status = "running" -> state !! "eth0" = None ->
    address_discovery i
      [EvCall (InstanceStatus i) (Ok status); EvCall (InstanceState i) (Ok state)]
      None
| discovery_live_state status state addresses :
    lower status = "running" -> state !! "eth0" = Some addresses ->
    address_discovery i
      [EvCall (InstanceStatus i) (Ok status); EvCall (InstanceState i) (Ok state)]
      (Some (live_addresses addresses)).

(** The entries of one forward, in turn: an entry whose target address is
    one of [addrs] is asked to be removed, by protocol and listen port; the
    other entries are passed over. *)
Inductive port_sweep (addrs : list string) (f : NetworkForward)
    : list Port -> Phase :=
| port_sweep_done : port_sweep addrs f [] [] true
| port_sweep_pass p ports t ok :
    port_target_address p ∉ addrs -> port_sweep addrs f ports t ok ->
    port_sweep addrs f (p :: ports) t ok
| port_sweep_remove p ports msgs t ok :
    port_target_address p ∈ addrs ->
    Forall (fun x => is_print x = true) msgs ->
    port_sweep addrs f ports t ok ->
    port_sweep addrs f (p :: ports)
      (EvCall (ForwardRemovePort f (port_protocol p) (port_listen_port p)) (Ok tt)
       :: msgs ++ t) ok
| port_sweep_remove_fails p ports e :
    port_target_address p ∈ addrs ->
    port_sweep addrs f (p :: ports)
      [EvCall (ForwardRemovePort f (port_protocol p) (port_listen_port p)) (Err e)]
      false.

(** Every forward of the listing has its entries read and swept, whatever
    its listen address. *)
Inductive forward_sweep (addrs : list string) : list NetworkForward -> Phase :=
| forward_sweep_done : forward_sweep addrs [] [] true
| forward_sweep_read_fails f fs e :
    forward_sweep addrs (f :: fs) [EvCall (ForwardPorts f) (Err e)] false
| forward_sweep_stops f fs ports t :
    port_sweep addrs f ports t false ->
    forward_sweep addrs (f :: fs) (EvCall (ForwardPorts f) (Ok ports) :: t) false
| forward_sweep_next f fs ports t t' ok :
    port_sweep addrs f ports t true -> forward_sweep addrs fs t' ok ->
    forward_sweep addrs (f :: fs) (EvCall (ForwardPorts f) (Ok ports) :: t ++ t') ok.

(** The network of the instance is the one its expanded [eth0] device
    names; its forwards are listed and swept. *)
Inductive network_sweep (project : Project) (i : Instance) (addrs : list string)
    : Phase :=
| network_sweep_expanded_fails e :
    network_sweep project i addrs [EvCall (InstanceExpandedDevices i) (Err e)] false
| network_sweep_unnamed expanded :
    expanded !! "eth0" ≫= (fun eth0 : Dict => eth0 !! "network") = None ->
    network_sweep project i addrs
      [EvCall (InstanceExpandedDevices i) (Ok expanded)] false
| network_sweep_get_fails expanded netname e :
    expanded !! "eth0" ≫= (fun eth0 : Dict => eth0 !! "network") = Some netname ->
    network_sweep project i addrs
      [EvCall (InstanceExpandedDevices i) (Ok expanded);
       EvCall (NetworksGet project netname) (Err e)] false
| network_sweep_list_fails expanded netname network e :
    expanded !! "eth0" ≫= (fun eth0 : Dict => eth0 !! "network") = Some netname ->
    network_sweep project i addrs
      [EvCall (InstanceExpandedDevices i) (Ok expanded);
       EvCall (NetworksGet project netname) (Ok network);
       EvCall (ForwardsList network) (Err e)] false
| network_sweep_forwards expanded netname network forwards t ok :
    expanded !! "eth0" ≫= (fun eth0 : Dict => eth0 !! "network") = Some netname ->
    forward_sweep addrs forwards t ok ->
    network_sweep project i addrs
      (EvCall (InstanceExpandedDevices i) (Ok expanded)
       :: EvCall (NetworksGet project netname) (Ok network)
       :: EvCall (ForwardsList network) (Ok forwards) :: t) ok.

(** Step two: the addresses are discovered; when there is none, nothing
    else is read or removed. *)
Inductive removal_phase (project : Project) (i : Instance) : Phase :=
| removal_undiscovered td :
    address_discovery i td None -> removal_phase project i td false
| removal_no_address td :
    address_discovery i td (Some []) -> removal_phase project i td true
| removal_sweep td addrs t ok :
    addrs <> [] -> address_discovery i td (Some addrs) ->
    network_sweep project i addrs t ok ->
    removal_phase project i (td ++ t) ok.

(** The forward and the entry (protocol, listen port) a call asks to remove,
    and the entries a successful read of a forward saw. *)
Definition removal_request (e : Event) : option (NetworkForward * (string * string)) :=
  match e with
  | EvCall (ForwardRemovePort f protocol listenPorts) _ =>
      Some (f, (protocol, listenPorts))
  | _ => None
  end.

Definition reads_ports (e : Event) : option (NetworkForward * list Port) :=
  match e with EvCall (ForwardPorts f) (Ok ports) => Some (f, ports) | _ => None end.

(** The requests that remove from each forward read the entries that target
    one of [addrs], and only those. *)
Definition requests_for (addrs : list string)
    (obs : list (NetworkForward * list Port))
    : list (NetworkForward * (string * string)) :=
  flat_map (fun o : NetworkForward * list Port =>
      (fun p => (o.1, port_key p)) <$>
        filter (fun p => port_target_address p ∈ addrs) o.2)
    obs.

(** The forwards a successful listing returned. *)
Definition lists_forwards (e : Event) : option (list NetworkForward) :=
  match e with EvCall (ForwardsList _) (Ok fs) => Some fs | _ => None end.

(** The calls of a run that change hypervisor state. *)
Definition mutations (t : list Event) : list Event :=
  filter (fun e => is_mutation e = true) t.

(** ** ACL attachment ([deploy.py], lines 228-256) *)

(** [s.split(sep)] for a one-character separator. *)
Fixpoint str_split (sep : ascii) (s : string) : list string :=
  match s with
  | EmptyString => [EmptyString]
  | String c s' =>
      if Ascii.eqb c sep then EmptyString :: str_split sep s'
      else
        match str_split sep s' with
        | x :: xs => String c x :: xs
        | [] => [String c EmptyString]
        end
  end.

(** The [for acl in acls] loop: get-or-create each declared ACL and append
    the name of the handle obtained to [securityACL]. *)
Fixpoint setNetworkACLs_loop (project : Project) (acls : list ACL)
    (securityACL : list string) : Prog (list string) :=
  match acls with
  | [] => Ret securityACL
  | acl :: rest =>
      found <- call (AclsExists project (ACL_name acl)) ;;
      handle <-
        (if negb found then
           call (AclsCreate project (ACL_name acl) (ACL_description acl)
                   (ACL_egress acl) (ACL_ingress acl))
         else call (AclsGet project (ACL_name acl))) ;;
      setNetworkACLs_loop project rest (securityACL ++ [acl_name handle])
  end.

Definition setNetworkACLs (project : Project) (args : Args) (acls : list ACL)
    (instance : InstanceRef) : Prog unit :=
  instance <- resolve project instance ;;
  devices <- call (InstanceDevices instance) ;;
  devices <-
    (match devices !! "eth0" with
     | None =>
         expanded <- call (InstanceExpandedDevices instance) ;;
         eth0 <- getitem expanded "eth0" ;;
         Ret (<["eth0" := eth0]> devices)
     | Some _ => Ret devices
     end) ;;
  eth0 <- getitem devices "eth0" ;;
  let securityACL :=
    match eth0 !! "security.acls" with
    | None => []
    | Some v => str_split "," v
    end in
  securityACL <- setNetworkACLs_loop project acls securityACL ;;
  let devices := set_eth0 "security.acls" (join "," securityACL) devices in
  call (InstanceSetDevices instance devices) ;;
  when (verbose args)
    (for_each acls (fun acl =>
       print ("[DEBUG] ACL (" +:+ ACL_name acl +:+ ") attached to Instance ("
              +:+ instance_name instance +:+ ")."))).

(** ** Waiting for the guest ([deploy.py], lines 354-371) *)

(** The classes of failure of [exec] after which the loop tries again. *)
Definition guest_not_ready (c : InstanceExceptionClass) : bool :=
  match c with
  | InstanceIsPausedException | InstanceIsNotRunningException
  | InstanceExecFailedException | InstanceNotFoundException => true
  | _ => false
  end.

(** The [while(True)] loop, for at most [fuel] attempts. *)
Fixpoint waitForBoot_loop (fuel : nat) (instance : Instance) : Prog unit :=
  match fuel with
  | O => OutOfFuel
  | S fuel' =>
      booted <-
        try_except_InstanceException
          (call (InstanceExec instance "whoami") ;; Ret true)
          (fun c msg =>
             if negb (guest_not_ready c) then
               Print (exc_type_name (InstanceException c msg) +:+ ": " +:+ msg)
                 (SysExit 1)
             else Ret false) ;;
      if booted : bool then Ret tt
      else Sleep (waitForBoot_loop fuel' instance)
  end.

(** [project] is the module-level variable the function reads. *)
Definition waitForBoot (project : Project) (fuel : nat) (instance : InstanceRef)
    : Prog unit :=
  instance <- resolve project instance ;;
  status <- call (InstanceStatus instance) ;;
  (if negb (String.eqb (lower status) "running") then
     status <- call (InstanceStatus instance) ;;
     Raise (Exception ("Instance is not running: " +:+ status))
   else Ret tt) ;;
  waitForBoot_loop fuel instance.

(** ** The phases of the script body ([deploy.py], lines 585-709) *)

Section Phases.
Context {pylib : PyLib}.

(** Lines 586-596: resolving the remote and the project of a declaration. *)
Definition main_scope (conf : Config) : Prog Project :=
  found <- call (RemotesExists (Config_remote conf)) ;;
  if negb found then
    Print ("Remote was not found: " +:+ Config_remote conf) (SysExit 1)
  else
    remote <- call (RemotesGet (Config_remote conf)) ;;
    found <- call (ProjectsExists remote (Config_project conf)) ;;
    if negb found then
      Print ("Project was not found: " +:+ Config_project conf) (SysExit 1)
    else call (ProjectsGet remote (Config_project conf)).

(** Lines 585-659: the first loop over the declarations. *)
Definition main_provision_all (args : Args) (config : list Config) : Prog unit :=
  for_each config (fun conf =>
    project <- main_scope conf ;;
    main_provision project args conf ;;
    Ret tt).

(** [pyincus.remotes.get(name=conf.remote).projects.get(name=conf.project)]
    followed by [project.instances.get(name=conf.name)]. *)
Definition main_fetch (conf : Config) : Prog (Project * Instance) :=
  remote <- call (RemotesGet (Config_remote conf)) ;;
  project <- call (ProjectsGet remote (Config_project conf)) ;;
  instance <- call (InstancesGet project (Config_name conf)) ;;
  Ret (project, instance).

(** Lines 661-667: waiting for every instance. *)
Definition main_wait (fuel : nat) (config : list Config) : Prog unit :=
  for_each config (fun conf =>
    fetched <- main_fetch conf ;;
    match Config_network conf with
    | None =>
        Raise (OtherError "AttributeError"
                 "'NoneType' object has no attribute 'ipv4'")
    | Some net =>
        waitForIPAddresses fetched.1 fuel (ByHandle fetched.2)
          (Network_ipv4 net) (Network_ipv6 net)
    end ;;
    match Config_launch conf with
    | Some launch =>
        if Launch_isVM launch then waitForBoot fetched.1 fuel (ByHandle fetched.2)
        else Ret tt
    | None => Ret tt
    end).

(** Lines 671-680, when the runner's return code is not 0.  [rmtree] is the
    exception raised by [shutil.rmtree] on the artifacts directory, if any. *)
Definition main_failure (rmtree : option PyExc) (args : Args)
    (config : list Config) : Prog unit :=
  match rmtree with
  | Some e => Raise e
  | None =>
      (if negb (keepInstancesOnFailure args) then
         for_each config (fun conf =>
           fetched <- main_fetch conf ;;
           destroy fetched.1 args fetched.2)
       else Ret tt) ;;
      SysExit 1
  end.

(** Lines 684-701: configuring the instances after a successful run.  The
    loop carries the variable [project], which the [else] branch reads
    without assigning it. *)
Fixpoint main_configure (fuel : nat) (args : Args) (project : Project)
    (config : list Config) : Prog unit :=
  match config with
  | [] => Ret tt
  | conf :: rest =>
      match Config_network conf with
      | Some net =>
          fetched <- main_fetch conf ;;
          let project := fetched.1 in
          let instance := fetched.2 in
          (if Network_staticIp net || truthy (Network_ipv4 net)
              || truthy (Network_ipv6 net) then
             setStaticIP project args (ByHandle instance)
               (Network_ipv4 net) (Network_ipv6 net)
           else Ret tt) ;;
          call (InstanceRestart instance) ;;
          (match Network_acls net with
           | [] => Ret tt
           | acls => setNetworkACLs project args acls (ByHandle instance)
           end) ;;
          (match Network_forwards net with
           | [] => Ret tt
           | forwards =>
               waitForIPAddresses project fuel (ByHandle instance)
                 (Network_ipv4 net) (Network_ipv6 net) ;;
               setForwardsPorts project args (ByHandle instance)
                 (Network_name net) (Network_listenAddress net) forwards
           end) ;;
          main_configure fuel args project rest
      | None =>
          instance <- call (InstancesGet project (Config_name conf)) ;;
          call (InstanceRestart instance) ;;
          main_configure fuel args project rest
      end
  end.

(** Lines 705-709: test mode. *)
Definition main_test (args : Args) (config : list Config) : Prog unit :=
  if test args then
    for_each config (fun conf =>
      fetched <- main_fetch conf ;;
      destroy fetched.1 args fetched.2)
  else Ret tt.

End Phases.

(** ** Reading traces of the phases *)

(** The ACLs a successful listing returned. *)
Definition lists_acls (e : Event) : option (list NetworkACL) :=
  match e with EvCall (AclsList _) (Ok l) => Some l | _ => None end.

(** The lines [printHelp] prints. *)
Definition help_lines : list Event :=
  [EvPrint "Review config file format."; EvPrint ""; EvPrint "Examples:";
   EvPrint help_examples].

(** The status a successful read returned, and whether a call runs a
    command in the guest. *)
Definition reads_status (e : Event) : option string :=
  match e with EvCall (InstanceStatus _) (Ok s) => Some s | _ => None end.

Definition is_exec (e : Event) : bool :=
  match e with EvCall (InstanceExec _ _) _ => true | _ => false end.

(** The attempts of [waitForBoot] at running [whoami] in the guest, with at
    most [n] attempts left.  The wait is over at the first attempt that
    succeeds.  An attempt that fails because the instance is paused, not
    running or not found, or because the command failed, is followed by a
    pause and another attempt.  Any other [InstanceException] is printed
    with its class name and ends the script with status 1; an exception of
    another kind is not caught. *)
Inductive boot_polls (i : Instance) : nat -> list Event -> Outcome unit -> Prop :=
| boot_polls_up n :
    boot_polls i (S n) [EvCall (InstanceExec i "whoami") (Ok tt)] (Returned tt)
| boot_polls_again n c msg t o :
    c ∈ [InstanceIsPausedException; InstanceIsNotRunningException;
         InstanceExecFailedException; InstanceNotFoundException] ->
    boot_polls i n t o ->
    boot_polls i (S n)
      (EvCall (InstanceExec i "whoami") (Err (InstanceException c msg))
       :: EvSleep :: t) o
| boot_polls_fatal n c msg :
    c ∉ [InstanceIsPausedException; InstanceIsNotRunningException;
         InstanceExecFailedException; InstanceNotFoundException] ->
    boot_polls i (S n)
      [EvCall (InstanceExec i "whoami") (Err (InstanceException c msg));
       EvPrint (exc_type_name (InstanceException c msg) +:+ ": " +:+ msg)]
      (Exited 1)
| boot_polls_raises n e :
    (forall c msg, e <> InstanceException c msg) ->
    boot_polls i (S n) [EvCall (InstanceExec i "whoami") (Err e)] (Uncaught e)
| boot_polls_out : boot_polls i 0 [] StillWaiting.

(** * Properties *)

Section Semantics.
Context {pylib : PyLib} {World : Type} (h : Handler World).

Lemma run_bind {A B : Type} (p : Prog A) (f : A -> Prog B) (w : World) :
  run h (bind p f) w =
    let r := run h p w in
    match outcome r with
    | Returned a =>
        let r' := run h (f a) (world r) in
        (outcome r', trace r ++ trace r', world r')
    | o => (abort_as B o, trace r, world r)
    end.
Proof.
  revert w. induction p as [a|e|c|s k IH|k IH| |R op k IH]; intros w; simpl.
  - by destruct (run h (f a) w) as [[o t] w'].
  - done.
  - done.
  - rewrite IH. destruct (run h k w) as [[o t] w']. by destruct o.
  - rewrite IH. destruct (run h k w) as [[o t] w']. by destruct o.
  - done.
  - destruct (h R w op) as [r w1]. rewrite IH.
    destruct (run h (k r) w1) as [[o t] w']. by destruct o.
Qed.

Lemma run_bind_assoc {A B C : Type} (p : Prog A) (f : A -> Prog B)
    (g : B -> Prog C) (w : World) :
  run h (bind (bind p f) g) w = run h (bind p (fun x => bind (f x) g)) w.
Proof.
  revert w. induction p as [a|e|c|s k IH|k IH| |R op k IH]; intros w; simpl;
    try done.
  - by rewrite IH.
  - by rewrite IH.
  - destruct (h R w op) as [r w1]. by rewrite IH.
Qed.

Lemma run_call {R : Type} (op : Op R) (w : World) :
  run h (call op) w =
    match h R w op with
    | (Ok v, w1) => (Returned v, [EvCall op (Ok v)], w1)
    | (Err e, w1) => (Uncaught e, [EvCall op (Err e)], w1)
    end.
Proof. simpl. destruct (h R w op) as [[v|e] w1]; done. Qed.

Lemma run_call_bind_ok {A R : Type} (op : Op R) (k : R -> Prog A)
    (w w1 : World) (v : R) :
  h R w op = (Ok v, w1) ->
  run h (bind (call op) k) w =
    let r := run h (k v) w1 in
    (outcome r, EvCall op (Ok v) :: trace r, world r).
Proof.
  intros Hop. unfold call. cbn [bind run]. rewrite Hop. cbn [bind].
  by destruct (run h (k v) w1) as [[o t] w2].
Qed.

Lemma run_when_print (b : bool) (s : string) (w : World) :
  run h (when b (print s)) w = (Returned tt, if b then [EvPrint s] else [], w).
Proof. by destruct b. Qed.


Lemma guarded_app (t t' : list Event) (ok : bool) :
  guarded t true -> guarded t' ok -> guarded (t ++ t') ok.
Proof.
  induction t as [|e t IH]; simpl; [done|].
  intros [He Ht] Ht'. split; [|by apply IH].
  intros H1 H2. by destruct (He H1 H2).
Qed.

Lemma guarded_prints (t : list Event) (ok : bool) :
  Forall (fun x => is_print x = true) t -> guarded t ok.
Proof.
  induction 1 as [|e t He _ IH]; simpl; [done|].
  split; [|done]. by destruct e.
Qed.

Lemma guarded_cons_ok (e : Event) (t : list Event) (ok : bool) :
  is_error e = false -> guarded t ok -> guarded (e :: t) ok.
Proof. intros He Ht. simpl. split; [congruence|done]. Qed.

Lemma guarded_weaken (t : list Event) :
  guarded t true -> guarded t false.
Proof.
  induction t as [|e t IH]; simpl; [done|].
  intros [He Ht]. split; [|by apply IH].
  intros H1 H2. by destruct (He H1 H2).
Qed.

Lemma referenced_once_mono (i : Instance) (t t' : list Event) (a : NetworkACL) :
  (forall e, e ∈ t -> e ∈ t') -> referenced_once i t a -> referenced_once i t' a.
Proof.
  intros Hsub (u & ref & u' & Hlen & H1 & H2 & Hin).
  exists u, ref, u'. split_and!; auto.
Qed.

(** *** A program logic over traces

    [sat p Q]: from every world, the outcome and the trace of [p] satisfy
    [Q]. *)

Definition sat {A : Type} (p : Prog A) (Q : Outcome A -> list Event -> Prop) : Prop :=
  forall w, Q (outcome (run h p w)) (trace (run h p w)).

Lemma sat_conseq {A : Type} (p : Prog A) (Q Q' : Outcome A -> list Event -> Prop) :
  sat p Q -> (forall o t, Q o t -> Q' o t) -> sat p Q'.
Proof. intros Hp HQ w. apply HQ, Hp. Qed.

Lemma sat_ret {A : Type} (a : A) (Q : Outcome A -> list Event -> Prop) :
  Q (Returned a) [] -> sat (Ret a) Q.
Proof. intros HQ w. exact HQ. Qed.

Lemma sat_raise {A : Type} (e : PyExc) (Q : Outcome A -> list Event -> Prop) :
  Q (Uncaught e) [] -> sat (Raise e) Q.
Proof. intros HQ w. exact HQ. Qed.

Lemma sat_exit {A : Type} (c : Z) (Q : Outcome A -> list Event -> Prop) :
  Q (Exited c) [] -> sat (SysExit c) Q.
Proof. intros HQ w. exact HQ. Qed.

Lemma sat_print {A : Type} (s : string) (k : Prog A)
    (Q : Outcome A -> list Event -> Prop) :
  sat k (fun o t => Q o (EvPrint s :: t)) -> sat (Print s k) Q.
Proof.
  intros Hk w. specialize (Hk w). simpl.
  by destruct (run h k w) as [[o t] w'].
Qed.

Lemma sat_sleep {A : Type} (k : Prog A) (Q : Outcome A -> list Event -> Prop) :
  sat k (fun o t => Q o (EvSleep :: t)) -> sat (Sleep k) Q.
Proof.
  intros Hk w. specialize (Hk w). simpl.
  by destruct (run h k w) as [[o t] w'].
Qed.

Lemma sat_out_of_fuel {A : Type} (Q : Outcome A -> list Event -> Prop) :
  Q StillWaiting [] -> sat OutOfFuel Q.
Proof. intros HQ w. exact HQ. Qed.

Lemma sat_bind {A B : Type} (p : Prog A) (f : A -> Prog B)
    (Q1 : Outcome A -> list Event -> Prop) (Q : Outcome B -> list Event -> Prop) :
  sat p Q1 ->
  (forall a t1, Q1 (Returned a) t1 -> sat (f a) (fun o t2 => Q o (t1 ++ t2))) ->
  (forall o t1, Q1 o t1 -> returned o = false -> Q (abort_as B o) t1) ->
  sat (bind p f) Q.
Proof.
  intros Hp Hf Hab w. rewrite run_bind. specialize (Hp w).
  destruct (run h p w) as [[o t] w1]. unfold outcome, trace, world in *. simpl in *.
  destruct o as [a|e|c|]; try (by apply (Hab _ _ Hp)).
  apply (Hf a t Hp w1).
Qed.

Lemma sat_bind_assoc {A B C : Type} (p : Prog A) (f : A -> Prog B)
    (g : B -> Prog C) (Q : Outcome C -> list Event -> Prop) :
  sat (bind p (fun x => bind (f x) g)) Q -> sat (bind (bind p f) g) Q.
Proof. intros Hs w. rewrite run_bind_assoc. apply Hs. Qed.

Lemma sat_call {R : Type} (op : Op R) (Q : Outcome R -> list Event -> Prop) :
  (forall v, Q (Returned v) [EvCall op (Ok v)]) ->
  (forall e, Q (Uncaught e) [EvCall op (Err e)]) ->
  sat (call op) Q.
Proof.
  intros Hok Herr w. rewrite run_call.
  destruct (h R w op) as [[v|e] w1]; [apply Hok|apply Herr].
Qed.

Lemma sat_call_bind {A R : Type} (op : Op R) (k : R -> Prog A)
    (Q : Outcome A -> list Event -> Prop) :
  (forall v, sat (k v) (fun o t => Q o (EvCall op (Ok v) :: t))) ->
  (forall e, Q (Uncaught e) [EvCall op (Err e)]) ->
  sat (bind (call op) k) Q.
Proof.
  intros Hok Herr.
  apply (sat_bind _ _ (fun o t =>
    match o with
    | Returned v => t = [EvCall op (Ok v)]
    | Uncaught e => t = [EvCall op (Err e)]
    | _ => False
    end)).
  - by apply sat_call.
  - intros v t1 ->. apply Hok.
  - intros [v|e|c|] t1 Ht Hr; try done. subst t1. apply Herr.
Qed.

Lemma sat_when_print_bind {A : Type} (b : bool) (s : string) (k : Prog A)
    (Q : Outcome A -> list Event -> Prop) :
  sat k (fun o t => Q o ((if b then [EvPrint s] else []) ++ t)) ->
  sat (bind (when b (print s)) (fun _ => k)) Q.
Proof.
  intros Hk. destruct b; simpl; [by apply sat_print|done].
Qed.

Lemma guarded_prints_app (t t' : list Event) (ok : bool) :
  Forall (fun x => is_print x = true) t -> guarded t' ok -> guarded (t ++ t') ok.
Proof.
  induction 1 as [|e t He _ IH]; simpl; [done|].
  intros Ht'. split; [|by apply IH]. by destruct e.
Qed.

Lemma guarded_error_last (e : Event) : guarded [e] false.
Proof. simpl. split; [|done]. intros _ _. by split. Qed.

Lemma opt_print_prints (b : bool) (s : string) :
  Forall (fun x => is_print x = true) (if b then [EvPrint s] else []).
Proof. destruct b; by repeat constructor. Qed.

Lemma opt_print_scan (b : bool) (s : string) :
  Forall (fun e => acl_scan_event e = true) (if b then [EvPrint s] else []).
Proof. destruct b; by repeat constructor. Qed.

Lemma associatedACLs_loop_spec (args : Args) (i : Instance)
    (acls toRemove : list NetworkACL) :
  sat (associatedACLs_loop args i acls toRemove) (fun o t =>
    Forall (fun e => acl_scan_event e = true) t /\
    guarded t (returned o) /\
    forall res, o = Returned res ->
      exists new, res = toRemove ++ new /\ Forall (referenced_once i t) new).
Proof.
  revert toRemove. induction acls as [|acl rest IH]; intros toRemove.
  - apply sat_ret. split_and!; [done..|]. intros res [= <-]. exists []. by rewrite app_nil_r.
  - cbn [associatedACLs_loop]. apply sat_call_bind.
    2:{ intros e. split_and!; [by repeat constructor|apply guarded_error_last|done]. }
    intros u. destruct (Nat.eqb (length u) 1) eqn:Hlen.
    + apply sat_call_bind.
      2:{ intros e. split_and!; [by repeat constructor| |done].
          apply guarded_cons_ok; [done|apply guarded_error_last]. }
      intros [|ref u']; cbn [first_item bind].
      { apply sat_raise. split_and!; [by repeat constructor| |done].
        simpl. split_and!; done. }
      destruct (str_in (instance_name i) ref) eqn:Hin.
      * apply sat_when_print_bind.
        eapply sat_conseq; [apply (IH (toRemove ++ [acl]))|].
        intros o t (Hs & Hg & Hres). split_and!.
        -- repeat constructor. apply Forall_app. split; [apply opt_print_scan|done].
        -- do 2 (apply guarded_cons_ok; [done|]).
           apply guarded_prints_app; [apply opt_print_prints|done].
        -- intros res Ho. destruct (Hres res Ho) as (new & -> & Hnew).
           exists (acl :: new). split; [by rewrite <- app_assoc|].
           constructor.
           ++ exists u, ref, u'. apply Nat.eqb_eq in Hlen.
              split_and!; [done| | |done].
              ** apply list_elem_of_here.
              ** apply list_elem_of_further, list_elem_of_here.
           ++ eapply Forall_impl; [exact Hnew|].
              intros a. apply referenced_once_mono. intros e He.
              do 2 apply list_elem_of_further. apply elem_of_app. by right.
      * eapply sat_conseq; [apply (IH toRemove)|].
        intros o t (Hs & Hg & Hres). split_and!.
        -- by repeat constructor.
        -- by do 2 (apply guarded_cons_ok; [done|]).
        -- intros res Ho. destruct (Hres res Ho) as (new & -> & Hnew).
           exists new. split; [done|].
           eapply Forall_impl; [exact Hnew|].
           intros a. apply referenced_once_mono. intros e He.
           by do 2 apply list_elem_of_further.
    + eapply sat_conseq; [apply (IH toRemove)|].
      intros o t (Hs & Hg & Hres). split_and!.
      * by repeat constructor.
      * by apply guarded_cons_ok.
      * intros res Ho. destruct (Hres res Ho) as (new & -> & Hnew).
        exists new. split; [done|].
        eapply Forall_impl; [exact Hnew|].
        intros a. apply referenced_once_mono. intros e He.
        by apply list_elem_of_further.
Qed.

Lemma associatedACLs_spec (project : Project) (args : Args) (i : Instance) :
  sat (associatedACLs project args (ByHandle i)) (fun o t =>
    match o with
    | Returned acls => scan_phase i acls t true
    | _ => forall acls, scan_phase i acls t false
    end).
Proof.
  unfold associatedACLs. cbn [resolve bind].
  apply sat_call_bind.
  2:{ intros e acls. split_and!; [by repeat constructor|apply guarded_error_last|done]. }
  intros acls. eapply sat_conseq; [apply (associatedACLs_loop_spec args i acls [])|].
  intros o t (Hs & Hg & Hres).
  assert (Forall (fun e => acl_scan_event e = true)
            (EvCall (AclsList project) (Ok acls) :: t)) by by constructor.
  assert (guarded (EvCall (AclsList project) (Ok acls) :: t) (returned o))
    by by apply guarded_cons_ok.
  destruct o as [res| | |]; try (intros ?; split_and!; done).
  split_and!; [done..|]. intros _.
  destruct (Hres res eq_refl) as (new & -> & Hnew). simpl.
  eapply Forall_impl; [exact Hnew|].
  intros a. apply referenced_once_mono. intros e He. by apply list_elem_of_further.
Qed.

(** *** Phases that are closed under sequencing *)

Lemma returned_abort_as {A : Type} (B : Type) (o : Outcome A) :
  returned (abort_as B o) = false.
Proof. by destruct o. Qed.

Definition closed_phase (P : Phase) : Prop :=
  P [] true /\ (forall t1 t2 ok, P t1 true -> P t2 ok -> P (t1 ++ t2) ok).

Lemma sat_bind_phase {A B : Type} (P : Phase) (p : Prog A) (f : A -> Prog B) :
  closed_phase P ->
  sat p (fun o t => P t (returned o)) ->
  (forall a, sat (f a) (fun o t => P t (returned o))) ->
  sat (bind p f) (fun o t => P t (returned o)).
Proof.
  intros [_ Hseq] Hp Hf. eapply sat_bind; [exact Hp| |].
  - intros a t1 H1. eapply sat_conseq; [apply Hf|].
    intros o t2 H2. by apply Hseq.
  - intros o t1 H1 Hr. cbv beta in H1. rewrite returned_abort_as. by rewrite Hr in H1.
Qed.

Lemma sat_for_each_phase {A : Type} (P : Phase) (l : list A) (body : A -> Prog unit) :
  closed_phase P ->
  (forall x, sat (body x) (fun o t => P t (returned o))) ->
  sat (for_each l body) (fun o t => P t (returned o)).
Proof.
  intros HP Hbody. induction l as [|x l IH]; cbn [for_each].
  - apply sat_ret, HP.
  - apply sat_bind_phase; [done|apply Hbody|]. intros _. exact IH.
Qed.

Lemma forward_phase_closed : closed_phase forward_phase.
Proof.
  split; [by split|].
  intros t1 t2 ok [H1 G1] [H2 G2]. split.
  - apply Forall_app. by split.
  - by apply guarded_app.
Qed.

Lemma forward_phase_cons (e : Event) (t : list Event) (ok : bool) :
  forward_event e = true -> is_error e = false ->
  forward_phase t ok -> forward_phase (e :: t) ok.
Proof.
  intros He Hne [H G]. split; [by constructor|by apply guarded_cons_ok].
Qed.

Lemma forward_phase_error (e : Event) :
  forward_event e = true -> forward_phase [e] false.
Proof. intros He. split; [by repeat constructor|apply guarded_error_last]. Qed.

Lemma sat_call_phase {R : Type} (P : Phase) (op : Op R) :
  (forall v, P [EvCall op (Ok v)] true) ->
  (forall e, P [EvCall op (Err e)] false) ->
  sat (call op) (fun o t => P t (returned o)).
Proof. intros Hok Herr. apply sat_call; [apply Hok|apply Herr]. Qed.

Lemma sat_getitem_phase {V : Type} (P : Phase) (d : gmap string V) (k : string) :
  P [] true -> P [] false ->
  sat (getitem d k) (fun o t => P t (returned o)).
Proof.
  intros Ht Hf. unfold getitem. destruct (d !! k); [by apply sat_ret|by apply sat_raise].
Qed.

Lemma forward_phase_nil (ok : bool) : forward_phase [] ok.
Proof. by split. Qed.

Lemma forward_phase_ok_call {R : Type} (op : Op R) (v : R) :
  forward_event (EvCall op (Ok v)) = true ->
  forward_phase [EvCall op (Ok v)] true.
Proof. intros H. apply forward_phase_cons; [done..|apply forward_phase_nil]. Qed.

Lemma removeForwardPort_phase (project : Project) (args : Args) (i : Instance) :
  sat (removeForwardPort project args (ByHandle i))
    (fun o t => forward_phase t (returned o)).
Proof.
  unfold removeForwardPort. cbn [resolve bind].
  pose proof forward_phase_closed as HC.
  apply sat_bind_phase; [done| |intros status].
  { apply sat_call_phase; intros; [by apply forward_phase_ok_call|by apply forward_phase_error]. }
  apply sat_bind_phase; [done| |intros [t4 t6]].
  { destruct (negb _).
    - apply sat_bind_phase; [done| |intros devices].
      + apply sat_call_phase; intros; [by apply forward_phase_ok_call|by apply forward_phase_error].
      + destruct (devices !! "eth0"); apply sat_ret, forward_phase_nil.
    - apply sat_bind_phase; [done| |intros state].
      + apply sat_call_phase; intros; [by apply forward_phase_ok_call|by apply forward_phase_error].
      + apply sat_bind_phase; [done| |intros eth0].
        * apply sat_getitem_phase; apply forward_phase_nil.
        * apply sat_ret, forward_phase_nil. }
  destruct (_ || _); [|apply sat_ret, forward_phase_nil].
  apply sat_bind_phase; [done| |intros expanded].
  { apply sat_call_phase; intros; [by apply forward_phase_ok_call|by apply forward_phase_error]. }
  apply sat_bind_phase; [done|apply sat_getitem_phase; apply forward_phase_nil|intros eth0].
  apply sat_bind_phase; [done|apply sat_getitem_phase; apply forward_phase_nil|intros netname].
  apply sat_bind_phase; [done| |intros network].
  { apply sat_call_phase; intros; [by apply forward_phase_ok_call|by apply forward_phase_error]. }
  apply sat_bind_phase; [done| |intros forwards].
  { apply sat_call_phase; intros; [by apply forward_phase_ok_call|by apply forward_phase_error]. }
  apply sat_for_each_phase; [done|intros forward].
  apply sat_bind_phase; [done| |intros ports].
  { apply sat_call_phase; intros; [by apply forward_phase_ok_call|by apply forward_phase_error]. }
  apply sat_for_each_phase; [done|intros port].
  destruct (targets t4 t6 port); [|apply sat_ret, forward_phase_nil].
  apply sat_bind_phase; [done| |intros _].
  { apply sat_call_phase; intros; [by apply forward_phase_ok_call|by apply forward_phase_error]. }
  destruct (verbose args); cbn [when print].
  - apply sat_print, sat_ret. by apply forward_phase_cons; [..|apply forward_phase_nil].
  - apply sat_ret, forward_phase_nil.
Qed.

Lemma pause_spec (args : Args) (i : Instance) :
  sat (try_except_InstanceException
         (call (InstancePause i) ;;
          when (verbose args)
            (print ("[DEBUG] Instance was paused: " +:+ instance_name i)))
         (fun c msg =>
            match c with
            | InstanceIsNotRunningException => Ret tt
            | _ => Print msg (SysExit 1)
            end))
    (fun o t => pause_phase i t (returned o)).
Proof.
  intros w. unfold outcome, trace, pause_phase. simpl.
  destruct (h _ w (InstancePause i)) as [[[]|e] w1]; simpl.
  - destruct (verbose args); simpl; eexists _, _; split_and!; try done;
      by repeat constructor.
  - destruct e as [c m| | | | |]; try destruct c; simpl;
      eexists _, _; split_and!; try done; by repeat constructor.
Qed.

Lemma stop_spec (args : Args) (i : Instance) :
  sat (try_except_InstanceException
         (call (InstanceStop i) ;;
          when (verbose args)
            (print ("[DEBUG] Instance was stopped: " +:+ instance_name i)))
         (fun c msg =>
            match c with
            | InstanceIsAlreadyStoppedException
            | InstanceIsNotRunningException => Ret tt
            | _ => Print msg (SysExit 1)
            end))
    (fun o t => stop_phase i t (returned o)).
Proof.
  intros w. unfold outcome, trace, stop_phase. simpl.
  destruct (h _ w (InstanceStop i)) as [[[]|e] w1]; simpl.
  - destruct (verbose args); simpl; eexists _, _; split_and!; try done;
      by repeat constructor.
  - destruct e as [c m| | | | |]; try destruct c; simpl;
      eexists _, _; split_and!; try done; by repeat constructor.
Qed.

Lemma cleanup_spec (args : Args) (acls : list NetworkACL) :
  sat (for_each acls (fun acl =>
         usedBy <- call (AclUsedBy acl) ;;
         if Nat.eqb (length usedBy) 0 then
           call (AclDelete acl) ;;
           when (verbose args) (print ("[DEBUG] ACL was deleted: " +:+ acl_name acl))
         else Ret tt))
    (fun o t => cleanup_phase acls t (returned o)).
Proof.
  induction acls as [|a acls IH]; cbn [for_each].
  - apply sat_ret. constructor.
  - eapply sat_bind with (Q1 := fun o t =>
      match o with
      | Returned _ =>
          (exists u, u <> [] /\ t = [EvCall (AclUsedBy a) (Ok u)]) \/
          (exists msgs, Forall (fun x => is_print x = true) msgs /\
             t = EvCall (AclUsedBy a) (Ok []) :: EvCall (AclDelete a) (Ok tt) :: msgs)
      | _ => cleanup_phase (a :: acls) t false
      end).
    + apply sat_call_bind; [|intros e; apply cleanup_read_fails].
      intros [|x u]; cbn [length Nat.eqb].
      * apply sat_call_bind; [|intros e; apply cleanup_delete_fails].
        intros []. destruct (verbose args); cbn [when print].
        -- apply sat_print, sat_ret. right. eexists. split; [|done]. by repeat constructor.
        -- apply sat_ret. right. by exists [].
      * apply sat_ret. left. by exists (x :: u).
    + intros [] t1 [(u & Hu & ->)|(msgs & Hm & ->)].
      * eapply sat_conseq; [exact IH|]. intros o t Ht. by apply cleanup_keep.
      * eapply sat_conseq; [exact IH|]. intros o t Ht. simpl.
        by apply cleanup_delete.
    + intros o t1 H1 Hr. by destruct o.
Qed.

(** *** The phases of [destroy] *)

Lemma sat_in_order_cons {A B : Type} (P : Phase) (Ps : list Phase)
    (p : Prog A) (f : A -> Prog B) :
  sat p (fun o t => P t (returned o)) ->
  (forall a, sat (f a) (fun o t => in_order Ps t (returned o))) ->
  sat (bind p f) (fun o t => in_order (P :: Ps) t (returned o)).
Proof.
  intros Hp Hf. eapply sat_bind; [exact Hp| |].
  - intros a t1 H1. eapply sat_conseq; [apply Hf|].
    intros o t2 H2. by apply in_order_next.
  - intros o t1 H1 Hr. cbv beta in H1. rewrite returned_abort_as.
    rewrite Hr in H1. by apply in_order_abort.
Qed.

Lemma scan_phase_prints (i : Instance) (acls : list NetworkACL)
    (msgs t : list Event) (ok : bool) :
  Forall (fun x => is_print x = true) msgs ->
  scan_phase i acls t ok -> scan_phase i acls (msgs ++ t) ok.
Proof.
  intros Hm (Hs & Hg & Hr). split_and!.
  - apply Forall_app. split; [|done].
    eapply Forall_impl; [exact Hm|]. by intros [].
  - by apply guarded_prints_app.
  - intros Hok. eapply Forall_impl; [exact (Hr Hok)|].
    intros a. apply referenced_once_mono. intros e He. apply elem_of_app. by right.
Qed.

Lemma destroy_phases (project : Project) (args : Args) (i : Instance) :
  sat (destroy project args i) (fun o t =>
    exists acls,
      in_order [scan_phase i acls; forward_phase; pause_phase i; stop_phase i;
                delete_phase i; cleanup_phase acls] t (returned o)).
Proof.
  unfold destroy. apply sat_when_print_bind.
  eapply sat_bind; [apply associatedACLs_spec| |].
  - intros acls t1 H1.
    eapply sat_conseq with (Q := fun o t =>
      in_order [forward_phase; pause_phase i; stop_phase i; delete_phase i;
                cleanup_phase acls] t (returned o)).
    + apply sat_in_order_cons; [apply removeForwardPort_phase|intros _].
      apply sat_in_order_cons; [apply pause_spec|intros _].
      apply sat_in_order_cons; [apply stop_spec|intros _].
      apply sat_call_bind.
      * intros []. apply sat_when_print_bind.
        eapply sat_conseq; [apply cleanup_spec|]. intros o t Ht.
        change (EvCall (InstanceDelete i) (Ok ()) ::
                  (if verbose args then _ else []) ++ t)
          with ((EvCall (InstanceDelete i) (Ok ()) ::
                  (if verbose args
                   then [EvPrint ("[DEBUG] Instance was deleted: " +:+ instance_name i)]
                   else [])) ++ t).
        apply in_order_next.
        -- eexists _, _. split_and!; [done|apply opt_print_prints|done].
        -- cbv beta in Ht. destruct (returned o); [|by apply in_order_abort].
           rewrite <- (app_nil_r t). apply in_order_next; [done|constructor].
      * intros e. apply in_order_abort. eexists _, _. by split_and!.
    + intros o t2 H2. exists acls. rewrite app_assoc.
      apply in_order_next; [|done].
      apply scan_phase_prints; [apply opt_print_prints|done].
  - intros o t1 H1 Hr. exists []. rewrite returned_abort_as.
    apply in_order_abort. apply scan_phase_prints; [apply opt_print_prints|].
    destruct o; try done; apply H1.
Qed.

Lemma guarded_at (t : list Event) (ok : bool) (t1 : list Event) (e : Event)
    (t2 : list Event) :
  guarded t ok -> t = t1 ++ e :: t2 ->
  is_error e = true -> swallowed e = false ->
  ok = false /\ Forall (fun x => is_print x = true) t2.
Proof.
  intros Hg ->. induction t1 as [|x t1 IH]; simpl in Hg.
  - intros H1 H2. by apply Hg.
  - apply IH, Hg.
Qed.

Lemma pause_phase_guarded (i : Instance) (t : list Event) (ok : bool) :
  pause_phase i t ok -> guarded t ok.
Proof.
  intros (r & msgs & -> & Hm & ->). simpl. split; [|by apply guarded_prints].
  intros He Hs. split; [|done].
  destruct r as [[]|[[] ?|?|?|?|?|??]]; simpl in *; done.
Qed.

Lemma stop_phase_guarded (i : Instance) (t : list Event) (ok : bool) :
  stop_phase i t ok -> guarded t ok.
Proof.
  intros (r & msgs & -> & Hm & ->). simpl. split; [|by apply guarded_prints].
  intros He Hs. split; [|done].
  destruct r as [[]|[[] ?|?|?|?|?|??]]; simpl in *; done.
Qed.

Lemma delete_phase_guarded (i : Instance) (t : list Event) (ok : bool) :
  delete_phase i t ok -> guarded t ok.
Proof.
  intros (r & msgs & -> & Hm & ->). simpl. split; [|by apply guarded_prints].
  intros He _. split; [|done]. by destruct r.
Qed.

Lemma cleanup_phase_guarded (acls : list NetworkACL) (t : list Event) (ok : bool) :
  cleanup_phase acls t ok -> guarded t ok.
Proof.
  induction 1 as [|a acls u t ok Hu _ IH|a acls msgs t ok Hm _ IH|a acls e|a acls e].
  - done.
  - by apply guarded_cons_ok.
  - do 2 (apply guarded_cons_ok; [done|]). by apply guarded_prints_app.
  - apply guarded_error_last.
  - apply guarded_cons_ok; [done|apply guarded_error_last].
Qed.

Lemma in_order_guarded (Ps : list Phase) (t : list Event) (ok : bool) :
  Forall (fun P : Phase => forall t ok, P t ok -> guarded t ok) Ps ->
  in_order Ps t ok -> guarded t ok.
Proof.
  intros HPs Hin. induction Hin as [|P Ps t HP|P Ps t t' ok HP _ IH].
  - done.
  - apply (Forall_inv HPs), HP.
  - apply guarded_app.
    + apply (Forall_inv HPs), HP.
    + apply IH, (Forall_inv_tail HPs).
Qed.

Lemma teardown_guarded (i : Instance) (acls : list NetworkACL)
    (t : list Event) (ok : bool) :
  in_order [scan_phase i acls; forward_phase; pause_phase i; stop_phase i;
            delete_phase i; cleanup_phase acls] t ok ->
  guarded t ok.
Proof.
  apply in_order_guarded. repeat constructor.
  - by intros ?? (_ & ? & _).
  - by intros ?? [_ ?].
  - apply pause_phase_guarded.
  - apply stop_phase_guarded.
  - apply delete_phase_guarded.
  - apply cleanup_phase_guarded.
Qed.

(** *** The steps before the pause, call by call *)

Lemma prefix_append (s t : string) :
  String.prefix s t = true <-> exists post, t = s +:+ post.
Proof.
  revert t. induction s as [|c s IH]; intros [|c' t]; cbn [String.prefix].
  - split; [intros _; by exists ""|done].
  - split; [intros _; by exists (String c' t)|done].
  - split; [done|]. by intros [post ?].
  - destruct (Ascii.ascii_dec c c') as [<-|Hne].
    + rewrite IH. split; intros [post Hp]; exists post.
      * cbn. by rewrite Hp.
      * cbn in Hp. by injection Hp.
    + split; [done|]. intros [post Hp]. cbn in Hp. by injection Hp.
Qed.

Lemma str_in_occurs (s t : string) :
  str_in s t = true <-> exists pre post, t = pre +:+ s +:+ post.
Proof.
  induction t as [|c t IH]; cbn [str_in].
  - rewrite orb_false_r, prefix_append. split.
    + intros [post Hp]. by exists "", post.
    + intros ([|? pre] & post & Hp); [by exists post|done].
  - rewrite orb_true_iff, prefix_append, IH. split.
    + intros [[post Hp]|(pre & post & Hp)].
      * by exists "", post.
      * exists (String c pre), post. cbn. by rewrite Hp.
    + intros ([|c' pre] & post & Hp).
      * left. by exists post.
      * right. cbn in Hp. injection Hp as _ Hp. by exists pre, post.
Qed.

Lemma associatedACLs_loop_scan (args : Args) (i : Instance)
    (acls toRemove : list NetworkACL) :
  sat (associatedACLs_loop args i acls toRemove) (fun o t =>
    exists found,
      acl_scan i acls found t (returned o) /\
      forall res, o = Returned res -> res = toRemove ++ found).
Proof.
  revert toRemove. induction acls as [|acl rest IH]; intros toRemove.
  - apply sat_ret. exists []. split; [constructor|].
    intros res [= <-]. by rewrite app_nil_r.
  - cbn [associatedACLs_loop]. apply sat_call_bind.
    2:{ intros e. exists []. split; [apply acl_scan_read_fails|done]. }
    intros u. destruct (Nat.eqb (length u) 1) eqn:Hlen.
    + apply Nat.eqb_eq in Hlen. apply sat_call_bind.
      2:{ intros e. exists []. split; [by apply acl_scan_reread_fails|done]. }
      intros [|ref u']; cbn [first_item bind].
      { apply sat_raise. exists []. split; [by apply acl_scan_entry_gone|done]. }
      destruct (str_in (instance_name i) ref) eqn:Hin.
      * apply str_in_occurs in Hin. apply sat_when_print_bind.
        eapply sat_conseq; [apply (IH (toRemove ++ [acl]))|].
        intros o t (found & Hs & Hres). exists (acl :: found). split.
        -- apply acl_scan_identified; [done|exact Hin|apply opt_print_prints|done].
        -- intros res Ho. rewrite (Hres res Ho). by rewrite <- app_assoc.
      * assert (~ names i ref) as Hno.
        { intros Hn. apply str_in_occurs in Hn. congruence. }
        eapply sat_conseq; [apply (IH toRemove)|].
        intros o t (found & Hs & Hres). exists found. split; [|done].
        by apply acl_scan_other.
    + apply Nat.eqb_neq in Hlen.
      eapply sat_conseq; [apply (IH toRemove)|].
      intros o t (found & Hs & Hres). exists found. split; [|done].
      by apply acl_scan_not_single.
Qed.

Lemma associatedACLs_identify (project : Project) (args : Args) (i : Instance) :
  sat (associatedACLs project args (ByHandle i)) (fun o t =>
    exists found,
      identify_phase project i found t (returned o) /\
      forall res, o = Returned res -> res = found).
Proof.
  unfold associatedACLs. cbn [resolve bind]. apply sat_call_bind.
  2:{ intros e. exists []. split; [apply identify_list_fails|done]. }
  intros listing. eapply sat_conseq; [apply (associatedACLs_loop_scan args i listing [])|].
  intros o t (found & Hs & Hres). exists found. split; [by apply identify_scan|done].
Qed.

Lemma targets_aims (t4 t6 : option string) (p : Port) :
  targets t4 t6 p = true <->
  port_target_address p ∈ option_list t4 ++ option_list t6.
Proof.
  unfold targets. rewrite orb_true_iff, !bool_decide_eq_true, elem_of_app.
  assert (forall o : option string,
            o = Some (port_target_address p) <-> port_target_address p ∈ option_list o)
    as Ho.
  { intros [a|]; cbn.
    - rewrite list_elem_of_singleton. split; [by intros [= ->]|by intros ->].
    - rewrite elem_of_nil. by split. }
  by rewrite !Ho.
Qed.

Lemma live_addresses_scan (addresses : list Address) :
  option_list (scan_addresses addresses).1 ++ option_list (scan_addresses addresses).2
  = live_addresses addresses.
Proof.
  unfold live_addresses.
  induction addresses as [|a rest IH]; [done|]. cbn [scan_addresses List.find].
  unfold is_global at 1.
  destruct (String.eqb_spec (family a) "inet") as [H4|H4];
    destruct (String.eqb_spec (scope a) "global") as [Hg|Hg]; cbn [andb].
  - rewrite bool_decide_eq_true_2 by auto. done.
  - rewrite bool_decide_eq_false_2 by (by intros [? _]).
    by destruct (String.eqb (family a) "inet6").
  - destruct (String.eqb_spec (family a) "inet6") as [H6|H6]; cbn [andb].
    + rewrite bool_decide_eq_true_2 by auto. done.
    + rewrite bool_decide_eq_false_2 by (by intros [_ [?|?]]). done.
  - rewrite bool_decide_eq_false_2 by (by intros [? _]).
    by destruct (String.eqb (family a) "inet6").
Qed.

Lemma removeForwardPort_port_sweep (args : Args) (t4 t6 : option string)
    (forward : NetworkForward) (ports : list Port) :
  sat (for_each ports (fun port =>
         if targets t4 t6 port then
           call (ForwardRemovePort forward (port_protocol port) (port_listen_port port)) ;;
           when (verbose args)
             (print ("[DEBUG] Forward port was removed: " +:+ port_listen_port port))
         else Ret tt))
    (fun o t =>
       port_sweep (option_list t4 ++ option_list t6) forward ports t (returned o)).
Proof.
  induction ports as [|port ports IH]; cbn [for_each].
  - apply sat_ret. constructor.
  - destruct (targets t4 t6 port) eqn:E.
    + apply targets_aims in E. apply sat_bind_assoc. apply sat_call_bind.
      * intros []. apply sat_when_print_bind.
        eapply sat_conseq; [exact IH|]. intros o t Ht.
        apply port_sweep_remove; [done|apply opt_print_prints|done].
      * intros e. by apply port_sweep_remove_fails.
    + assert (port_target_address port ∉ option_list t4 ++ option_list t6) as Hno.
      { intros Hin. apply targets_aims in Hin. congruence. }
      cbn [bind]. eapply sat_conseq; [exact IH|]. intros o t Ht.
      by apply port_sweep_pass.
Qed.

Lemma removeForwardPort_forward_sweep (args : Args) (t4 t6 : option string)
    (forwards : list NetworkForward) :
  sat (for_each forwards (fun forward =>
         ports <- call (ForwardPorts forward) ;;
         for_each ports (fun port =>
           if targets t4 t6 port then
             call (ForwardRemovePort forward (port_protocol port) (port_listen_port port)) ;;
             when (verbose args)
               (print ("[DEBUG] Forward port was removed: " +:+ port_listen_port port))
           else Ret tt)))
    (fun o t =>
       forward_sweep (option_list t4 ++ option_list t6) forwards t (returned o)).
Proof.
  induction forwards as [|forward forwards IH]; cbn [for_each].
  - apply sat_ret. constructor.
  - apply sat_bind_assoc. apply sat_call_bind.
    2:{ intros e. apply forward_sweep_read_fails. }
    intros ports. eapply sat_bind; [apply removeForwardPort_port_sweep| |].
    + intros [] t1 H1. eapply sat_conseq; [exact IH|]. intros o t Ht.
      by apply forward_sweep_next.
    + intros o t1 H1 Hr. cbv beta in H1. rewrite returned_abort_as.
      rewrite Hr in H1. by apply forward_sweep_stops.
Qed.

Lemma removeForwardPort_removal (project : Project) (args : Args) (i : Instance) :
  sat (removeForwardPort project args (ByHandle i))
    (fun o t => removal_phase project i t (returned o)).
Proof.
  unfold removeForwardPort. cbn [resolve bind]. apply sat_call_bind.
  2:{ intros e. apply removal_undiscovered. constructor. }
  intros status.
  eapply sat_bind with (Q1 := fun o t =>
    match o with
    | Returned found =>
        address_discovery i (EvCall (InstanceStatus i) (Ok status) :: t)
          (Some (option_list found.1 ++ option_list found.2))
    | _ => address_discovery i (EvCall (InstanceStatus i) (Ok status) :: t) None
    end).
  - destruct (negb (String.eqb (lower status) "running")) eqn:E.
    + apply negb_true_iff, String.eqb_neq in E.
      apply sat_call_bind; [|intros e; by apply discovery_devices_fails].
      intros devices.
      pose proof (discovery_overrides i status devices E) as Hd.
      unfold static_addresses in Hd.
      destruct (devices !! "eth0") as [eth0|]; apply sat_ret; exact Hd.
    + apply negb_false_iff, String.eqb_eq in E.
      apply sat_call_bind; [|intros e; by apply discovery_state_fails].
      intros state. unfold getitem.
      destruct (state !! "eth0") as [addresses|] eqn:Hs; cbn [bind].
      * apply sat_ret. rewrite live_addresses_scan. by apply discovery_live_state.
      * apply sat_raise. by apply discovery_no_interface.
  - intros [t4 t6] t1 Hd. cbn [fst snd] in Hd.
    destruct (bool_decide (t4 <> None) || bool_decide (t6 <> None)) eqn:E.
    2:{ apply sat_ret. rewrite app_nil_r.
        apply orb_false_iff in E as [E4 E6].
        apply bool_decide_eq_false in E4, E6.
        destruct t4; [by destruct E4|]. destruct t6; [by destruct E6|].
        by apply removal_no_address. }
    assert (option_list t4 ++ option_list t6 <> []) as Hfound.
    { by destruct t4, t6. }
    eapply sat_conseq with (Q := fun o t =>
      network_sweep project i (option_list t4 ++ option_list t6) t (returned o)).
    2:{ intros o t Ht.
        by apply (removal_sweep project i
                    (EvCall (InstanceStatus i) (Ok status) :: t1)
                    (option_list t4 ++ option_list t6) t). }
    apply sat_call_bind; [|intros e; apply network_sweep_expanded_fails].
    intros expanded. unfold getitem.
    destruct (expanded !! "eth0") as [eth0|] eqn:He; cbn [bind].
    2:{ apply sat_raise. apply network_sweep_unnamed. by rewrite He. }
    destruct (eth0 !! "network") as [netname|] eqn:Hn; cbn [bind].
    2:{ apply sat_raise. apply network_sweep_unnamed. by rewrite He. }
    assert (expanded !! "eth0" ≫= (fun eth0 : Dict => eth0 !! "network") = Some netname)
      as Hname by by rewrite He.
    apply sat_call_bind; [|intros e; by apply network_sweep_get_fails].
    intros network.
    apply sat_call_bind; [|intros e; by apply network_sweep_list_fails].
    intros forwards.
    eapply sat_conseq; [apply removeForwardPort_forward_sweep|].
    intros o t Ht. by apply network_sweep_forwards.
  - intros o t1 H1 Hr. rewrite returned_abort_as.
    apply removal_undiscovered. by destruct o.
Qed.

(** *** What a completed sweep has asked for *)

Lemma omap_prints {X : Type} (f : Event -> option X) (msgs : list Event) :
  (forall s, f (EvPrint s) = None) ->
  Forall (fun x => is_print x = true) msgs -> omap f msgs = [].
Proof.
  intros Hf. induction 1 as [|e msgs He _ IH]; [done|].
  destruct e; try done. cbn. by rewrite Hf.
Qed.

Lemma port_sweep_requests (addrs : list string) (f : NetworkForward)
    (ports : list Port) (t : list Event) :
  port_sweep addrs f ports t true ->
  omap reads_ports t = [] /\
  omap lists_forwards t = [] /\
  omap removal_request t =
    (fun p => (f, port_key p)) <$> filter (fun p => port_target_address p ∈ addrs) ports.
Proof.
  remember true as ok eqn:Hok.
  induction 1 as [|p ports t ok Hp Hs IH|p ports msgs t ok Hp Hm Hs IH|]; [done| | |done].
  - rewrite filter_cons, decide_False by done. by apply IH.
  - destruct (IH Hok) as (IH1 & IH2 & IH3).
    rewrite filter_cons, decide_True by done. cbn.
    rewrite !omap_app, IH1, IH2, IH3, !omap_prints by done. done.
Qed.

Lemma forward_sweep_requests (addrs : list string) (fs : list NetworkForward)
    (t : list Event) :
  forward_sweep addrs fs t true ->
  (omap reads_ports t).*1 = fs /\
  omap lists_forwards t = [] /\
  omap removal_request t = requests_for addrs (omap reads_ports t).
Proof.
  remember true as ok eqn:Hok.
  induction 1 as [| | |f fs ports t t' ok Hp Hs IH]; [done|done|done|].
  destruct (IH Hok) as (IH1 & IH2 & IH3).
  destruct (port_sweep_requests _ _ _ _ Hp) as (Hp1 & Hp2 & Hp3).
  cbn [omap list_omap reads_ports lists_forwards removal_request].
  rewrite !omap_app, Hp1, Hp2, Hp3, IH2, IH3. cbn [app]. split_and!; [|done..].
  rewrite fmap_cons. by rewrite IH1.
Qed.

Lemma removal_phase_requests (project : Project) (i : Instance) (t : list Event) :
  removal_phase project i t true ->
  exists td addrs rest,
    t = td ++ rest /\
    address_discovery i td (Some addrs) /\
    omap removal_request rest = requests_for addrs (omap reads_ports rest) /\
    (forall fs, fs ∈ omap lists_forwards rest -> (omap reads_ports rest).*1 = fs).
Proof.
  inversion 1 as [|td Hd|td addrs t' ok Hne Hd Hs]; subst.
  - exists t, [], []. rewrite app_nil_r. split_and!; [done..|].
    intros fs Hfs. by apply elem_of_nil in Hfs.
  - exists td, addrs, t'. split_and!; [done..| |].
    + inversion Hs as [| | | |expanded netname network forwards t'' ok' Hn Hf]; subst.
      destruct (forward_sweep_requests _ _ _ Hf) as (H1 & H2 & H3).
      cbn [omap list_omap reads_ports removal_request]. done.
    + inversion Hs as [| | | |expanded netname network forwards t'' ok' Hn Hf]; subst.
      destruct (forward_sweep_requests _ _ _ Hf) as (H1 & H2 & H3).
      cbn [omap list_omap reads_ports lists_forwards].
      rewrite H2. intros fs Hfs. apply list_elem_of_singleton in Hfs. by subst.
Qed.

Lemma destroy_steps (project : Project) (args : Args) (i : Instance) :
  sat (destroy project args i) (fun o t =>
    exists msgs acls t',
      t = msgs ++ t' /\
      Forall (fun x => is_print x = true) msgs /\
      in_order [identify_phase project i acls; removal_phase project i;
                pause_phase i; stop_phase i; delete_phase i; cleanup_phase acls]
        t' (returned o)).
Proof.
  unfold destroy. apply sat_when_print_bind.
  eapply sat_bind; [apply associatedACLs_identify| |].
  - intros acls t1 (found & H1 & Hres). rewrite <- (Hres acls eq_refl) in H1.
    eapply sat_conseq with (Q := fun o t =>
      in_order [removal_phase project i; pause_phase i; stop_phase i;
                delete_phase i; cleanup_phase acls] t (returned o)).
    + apply sat_in_order_cons; [apply removeForwardPort_removal|intros _].
      apply sat_in_order_cons; [apply pause_spec|intros _].
      apply sat_in_order_cons; [apply stop_spec|intros _].
      apply sat_call_bind.
      * intros []. apply sat_when_print_bind.
        eapply sat_conseq; [apply cleanup_spec|]. intros o t Ht.
        change (EvCall (InstanceDelete i) (Ok ()) ::
                  (if verbose args then _ else []) ++ t)
          with ((EvCall (InstanceDelete i) (Ok ()) ::
                  (if verbose args
                   then [EvPrint ("[DEBUG] Instance was deleted: " +:+ instance_name i)]
                   else [])) ++ t).
        apply in_order_next.
        -- eexists _, _. split_and!; [done|apply opt_print_prints|done].
        -- cbv beta in Ht. destruct (returned o); [|by apply in_order_abort].
           rewrite <- (app_nil_r t). apply in_order_next; [done|constructor].
      * intros e. apply in_order_abort. eexists _, _. by split_and!.
    + intros o t2 H2. eexists _, acls, (t1 ++ t2).
      split_and!; [done|apply opt_print_prints|]. by apply in_order_next.
  - intros o t1 (found & H1 & _) Hr. rewrite returned_abort_as.
    eexists _, found, t1. split_and!; [done|apply opt_print_prints|].
    apply in_order_abort. cbv beta in H1. by rewrite Hr in H1.
Qed.

(** *** Where ACL deletions can occur *)

Lemma split_prefix_none {X : Type} (f : Event -> option X)
    (pre post t1 : list Event) (e : Event) (t2 : list Event) (x : X) :
  Forall (fun e => f e = None) pre ->
  pre ++ post = t1 ++ e :: t2 -> f e = Some x ->
  exists k, t1 = pre ++ k /\ post = k ++ e :: t2.
Proof.
  revert t1. induction pre as [|p pre IH]; intros t1 Hpre Heq He.
  - by exists t1.
  - destruct t1 as [|y t1]; simplify_eq/=.
    + apply Forall_inv in Hpre. congruence.
    + destruct (IH t1) as (k & -> & ->); [by eapply Forall_inv_tail|done..|].
      by exists k.
Qed.

Lemma scan_event_no_delete (e : Event) :
  acl_scan_event e = true -> deletes_acl e = None.
Proof. destruct e as [R op r| |]; [destruct op|..]; done. Qed.

Lemma forward_event_no_delete (e : Event) :
  forward_event e = true -> deletes_acl e = None.
Proof. destruct e as [R op r| |]; [destruct op|..]; done. Qed.

Lemma print_no_delete (e : Event) :
  is_print e = true -> deletes_acl e = None.
Proof. by destruct e. Qed.

Lemma scan_event_no_pause (e : Event) :
  acl_scan_event e = true -> is_pause e = false.
Proof. destruct e as [R op r| |]; [destruct op|..]; done. Qed.

Lemma cleanup_phase_deletes (acls : list NetworkACL) (t : list Event) (ok : bool)
    (k : list Event) (e : Event) (t2 : list Event) (a : NetworkACL) :
  cleanup_phase acls t ok -> t = k ++ e :: t2 -> deletes_acl e = Some a ->
  a ∈ acls /\ exists k0, k = k0 ++ [EvCall (AclUsedBy a) (Ok [])].
Proof.
  intros Hc. revert k.
  induction Hc as [|a' acls u t ok Hu _ IH|a' acls msgs t ok Hm _ IH|a' acls x|a' acls x];
    intros k Heq He.
  - by destruct k.
  - destruct k as [|y k]; simplify_eq/=.
    destruct (IH k eq_refl He) as (Ha & k0 & ->).
    split; [by apply list_elem_of_further|]. by exists (EvCall (AclUsedBy a') (Ok u) :: k0).
  - destruct k as [|y k]; simplify_eq/=.
    destruct k as [|y' k]; simplify_eq/=.
    { split; [apply list_elem_of_here|]. by exists []. }
    edestruct (split_prefix_none deletes_acl msgs t k e t2 a) as (k' & -> & ->);
      [|done..|].
    { eapply Forall_impl; [exact Hm|]. apply print_no_delete. }
    destruct (IH k' eq_refl He) as (Ha & k0 & ->).
    split; [by apply list_elem_of_further|].
    exists (EvCall (AclUsedBy a') (Ok []) :: EvCall (AclDelete a') (Ok ()) :: msgs ++ k0).
    simpl. by rewrite <- app_assoc.
  - destruct k as [|y k]; simplify_eq/=. by destruct k.
  - destruct k as [|y k]; simplify_eq/=.
    destruct k as [|y' k]; simplify_eq/=.
    + split; [apply list_elem_of_here|]. by exists [].
    + by destruct k.
Qed.

Lemma phase_head_no_delete {R : Type} (op : Op R) (r : result R) (msgs : list Event) :
  deletes_acl (EvCall op r) = None ->
  Forall (fun x => is_print x = true) msgs ->
  Forall (fun e => deletes_acl e = None) (EvCall op r :: msgs).
Proof.
  intros Hop Hm. constructor; [done|].
  eapply Forall_impl; [exact Hm|]. apply print_no_delete.
Qed.

Lemma teardown_split (i : Instance) (acls : list NetworkACL)
    (t : list Event) (ok : bool) :
  in_order [scan_phase i acls; forward_phase; pause_phase i; stop_phase i;
            delete_phase i; cleanup_phase acls] t ok ->
  Forall (fun e => deletes_acl e = None) t \/
  exists t_scan mid t_clean,
    t = t_scan ++ mid ++ t_clean /\
    scan_phase i acls t_scan true /\
    Forall (fun e => deletes_acl e = None) mid /\
    EvCall (InstanceDelete i) (Ok tt) ∈ mid /\
    cleanup_phase acls t_clean ok.
Proof.
  intros H.
  assert (forall t ok, scan_phase i acls t ok ->
            Forall (fun e => deletes_acl e = None) t) as Hscan.
  { intros ?? [Hs _]. eapply Forall_impl; [exact Hs|]. apply scan_event_no_delete. }
  assert (forall t ok, forward_phase t ok ->
            Forall (fun e => deletes_acl e = None) t) as Hfwd.
  { intros ?? [Hs _]. eapply Forall_impl; [exact Hs|]. apply forward_event_no_delete. }
  assert (forall t ok, pause_phase i t ok ->
            Forall (fun e => deletes_acl e = None) t) as Hpause.
  { intros ?? (r & msgs & -> & Hm & _). by apply phase_head_no_delete. }
  assert (forall t ok, stop_phase i t ok ->
            Forall (fun e => deletes_acl e = None) t) as Hstop.
  { intros ?? (r & msgs & -> & Hm & _). by apply phase_head_no_delete. }
  assert (forall t ok, delete_phase i t ok ->
            Forall (fun e => deletes_acl e = None) t) as Hdel.
  { intros ?? (r & msgs & -> & Hm & _). by apply phase_head_no_delete. }
  inversion H as [|? ? ? H1|? ? t1 r1 ? H1 H2]; subst; [left; eauto|].
  inversion H2 as [|? ? ? H3|? ? t2 r2 ? H3 H4]; subst.
  { left. rewrite !Forall_app. split_and!; eauto. }
  inversion H4 as [|? ? ? H5|? ? t3 r3 ? H5 H6]; subst.
  { left. rewrite !Forall_app. split_and!; eauto. }
  inversion H6 as [|? ? ? H7|? ? t4 r4 ? H7 H8]; subst.
  { left. rewrite !Forall_app. split_and!; eauto. }
  inversion H8 as [|? ? ? H9|? ? t5 r5 ? H9 H10]; subst.
  { left. rewrite !Forall_app. split_and!; eauto. }
  right. exists t1, (t2 ++ t3 ++ t4 ++ t5), r5.
  assert (cleanup_phase acls r5 ok) as Hclean.
  { inversion H10 as [|? ? ? H11|? ? t6 r6 ? H11 H12]; subst; [done|].
    inversion H12; subst. by rewrite app_nil_r. }
  split_and!; [by rewrite <- !app_assoc|done| |
               |done].
  - rewrite !Forall_app. split_and!; eauto.
  - destruct H9 as (r & msgs & -> & Hm & Hr). destruct r as [[]|]; [|done].
    rewrite !elem_of_app. do 3 right. apply list_elem_of_here.
Qed.

(** C3.  During a teardown, a request to delete an ACL is issued only after
    the instance was deleted and directly after reading that the ACL's
    [usedBy] is empty; and an ACL whose [usedBy], as read before the pause,
    has two or more entries is never asked to be deleted. *)
Theorem shared_acl_survives_teardown (project : Project) (args : Args)
    (instance : Instance) (w : World) (a : NetworkACL) :
  let r := run h (destroy project args instance) w in
  (forall t1 e t2,
     trace r = t1 ++ e :: t2 -> deletes_acl e = Some a ->
     exists t0,
       t1 = t0 ++ [EvCall (AclUsedBy a) (Ok [])] /\
       EvCall (InstanceDelete instance) (Ok tt) ∈ t0)
  /\ ((forall t1 e t2 u,
         trace r = t1 ++ e :: t2 -> reads_usedBy e = Some (a, u) ->
         Forall (fun x => is_pause x = false) t1 ->
         (2 <= length u)%nat) ->
      Forall (fun e => deletes_acl e <> Some a) (trace r)).
Proof.
  intros r. destruct (destroy_phases project args instance w) as [acls Hacls].
  fold r in Hacls. apply teardown_split in Hacls.
  destruct Hacls as [Hnone|(t_scan & mid & t_clean & Ht & Hscan & Hmid & Hdel & Hclean)].
  { split.
    - intros t1 e t2 Ht He. rewrite Ht in Hnone.
      apply Forall_app in Hnone as [_ Hnone]. apply Forall_inv in Hnone. congruence.
    - intros _. eapply Forall_impl; [exact Hnone|]. intros e He. congruence. }
  assert (Forall (fun e => deletes_acl e = None) (t_scan ++ mid)) as Hpre.
  { apply Forall_app. split; [|done]. destruct Hscan as [Hs _].
    eapply Forall_impl; [exact Hs|]. apply scan_event_no_delete. }
  split.
  - intros t1 e t2 Ht' He. rewrite Ht, app_assoc in Ht'.
    destruct (split_prefix_none deletes_acl _ _ _ _ _ _ Hpre Ht' He) as (k & -> & Hk).
    destruct (cleanup_phase_deletes _ _ _ _ _ _ _ Hclean Hk He) as (_ & k0 & ->).
    exists ((t_scan ++ mid) ++ k0). split; [by rewrite <- !app_assoc|].
    rewrite !elem_of_app. left. by right.
  - intros Hshared. rewrite Ht, app_assoc. apply Forall_app. split.
    { eapply Forall_impl; [exact Hpre|]. intros e He. congruence. }
    apply Forall_forall. intros e He Hda.
    apply list_elem_of_split in He as (k & t2 & Hk).
    destruct (cleanup_phase_deletes _ _ _ _ _ _ _ Hclean Hk Hda) as (Ha & _).
    destruct Hscan as (Hs & _ & Href). specialize (Href eq_refl).
    rewrite Forall_forall in Href.
    destruct (Href a Ha) as (u & ref & u' & Hlen & Hin & _).
    apply list_elem_of_split in Hin as (s1 & s2 & ->).
    assert (2 <= length u)%nat; [|lia].
    apply (Hshared s1 (EvCall (AclUsedBy a) (Ok u)) (s2 ++ mid ++ t_clean) u).
    + rewrite Ht. by rewrite <- !app_assoc.
    + done.
    + apply Forall_app in Hs as [Hs _].
      eapply Forall_impl; [exact Hs|]. apply scan_event_no_pause.
Qed.

(** *** Provisioning *)

Lemma in_order_Forall (Q : Event -> Prop) (Ps : list Phase) (t : list Event) (ok : bool) :
  Forall (fun P : Phase => forall t ok, P t ok -> Forall Q t) Ps ->
  in_order Ps t ok -> Forall Q t.
Proof.
  intros HPs Hin. induction Hin as [|P Ps t HP|P Ps t t' ok HP _ IH].
  - done.
  - eapply (Forall_inv HPs), HP.
  - apply Forall_app. split.
    + eapply (Forall_inv HPs), HP.
    + apply IH, (Forall_inv_tail HPs).
Qed.

Lemma cleanup_phase_no_creation (acls : list NetworkACL) (t : list Event) (ok : bool) :
  cleanup_phase acls t ok -> Forall (fun e => creates e = None) t.
Proof.
  induction 1 as [|a acls u t ok Hu _ IH|a acls msgs t ok Hm _ IH|a acls e|a acls e];
    repeat constructor; try done.
  apply Forall_app. split; [|done].
  eapply Forall_impl; [exact Hm|]. by intros [].
Qed.

Lemma destroy_no_creation (project : Project) (args : Args) (i : Instance) (w : World) :
  Forall (fun e => creates e = None) (trace (run h (destroy project args i) w)).
Proof.
  destruct (destroy_phases project args i w) as [acls Hacls].
  eapply in_order_Forall; [|exact Hacls].
  assert (forall {R} (op : Op R) r msgs,
            creates (EvCall op r) = None ->
            Forall (fun x => is_print x = true) msgs ->
            Forall (fun e => creates e = None) (EvCall op r :: msgs)) as Hhead.
  { intros R op r msgs Hop Hm. constructor; [done|].
    eapply Forall_impl; [exact Hm|]. by intros []. }
  repeat constructor.
  - intros ?? [Hs _]. eapply Forall_impl; [exact Hs|].
    intros [R op r| |]; [destruct op|..]; done.
  - intros ?? [Hs _]. eapply Forall_impl; [exact Hs|].
    intros [R op r| |]; [destruct op|..]; done.
  - intros ?? (r & msgs & -> & Hm & _). by apply Hhead.
  - intros ?? (r & msgs & -> & Hm & _). by apply Hhead.
  - intros ?? (r & msgs & -> & Hm & _). by apply Hhead.
  - apply cleanup_phase_no_creation.
Qed.

Local Ltac pick_creation :=
  lazymatch goal with
  | |- exists msgs e rest, _ ++ _ ++ ?m ++ [?ev] ++ ?r = _ /\ _ =>
      exists m, ev, r; cbn [app]; split; [reflexivity|];
      split; [apply opt_print_prints|reflexivity]
  | |- exists msgs e rest, _ ++ _ ++ ?m ++ [?ev] = _ /\ _ =>
      exists m, ev, []; cbn [app]; split; [reflexivity|];
      split; [apply opt_print_prints|reflexivity]
  end.

(** C1.  When the instance name already exists: without [--force], [deploy]
    prints the refusal and exits with status 1 having asked the hypervisor
    nothing but the existence question; with [--force] it fetches the
    instance and runs the whole teardown, which creates nothing, and only
    when the teardown has returned is the next hypervisor call the copy or
    launch of the new instance; a teardown that aborts ends [deploy]. *)
Theorem deploy_existing_instance (project : Project) (args : Args) (name : string)
    (nameSource remoteSource projectSource : option string)
    (config : option Dict) (network : option Network) (isVM isClone : bool)
    (w w1 : World) :
  h _ w (InstancesExists project name) = (Ok true, w1) ->
  let r := run h (deploy project args name nameSource remoteSource projectSource
                    config network isVM isClone) w in
  if force args then
    match h _ w1 (InstancesGet project name) with
    | (Err e, _) =>
        outcome r = Uncaught e /\
        trace r = [EvCall (InstancesExists project name) (Ok true);
                   EvCall (InstancesGet project name) (Err e)]
    | (Ok instance, w2) =>
        let d := run h (destroy project args instance) w2 in
        Forall (fun e => creates e = None) (trace d) /\
        if returned (outcome d) then
          exists msgs e rest,
            trace r = EvCall (InstancesExists project name) (Ok true)
                      :: EvCall (InstancesGet project name) (Ok instance)
                      :: trace d ++ msgs ++ e :: rest /\
            Forall (fun x => is_print x = true) msgs /\
            creates e = Some name
        else
          trace r = EvCall (InstancesExists project name) (Ok true)
                    :: EvCall (InstancesGet project name) (Ok instance)
                    :: trace d /\
          outcome r = abort_as Instance (outcome d)
    end
  else
    outcome r = Exited 1 /\
    trace r = [EvCall (InstancesExists project name) (Ok true);
               EvPrint "Instance already exists. Use --force if you want to redeploy."] /\
    Forall (fun e => is_mutation e = false) (trace r) /\
    world r = w1.
Proof.
  intros Hex r. subst r. unfold deploy.
  rewrite run_bind, run_call, Hex. cbn [outcome trace world fst snd].
  destruct (force args).
  2:{ cbn. split_and!; try done. by repeat constructor. }
  rewrite run_bind, run_bind, run_call.
  destruct (h _ w1 (InstancesGet project name)) as [[instance|e] w2];
    cbn [outcome trace world fst snd abort_as]; [|done].
  split; [apply destroy_no_creation|].
  destruct (run h (destroy project args instance) w2) as [[od td] wd].
  cbn [outcome trace world fst snd].
  destruct od as [[]|e|c|]; cbn [returned abort_as outcome trace world fst snd];
    try done.
  destruct isClone.
  - rewrite run_bind, run_when_print. cbn [outcome trace world fst snd].
    rewrite run_bind, run_call.
    destruct (h _ wd (InstancesCopy _ _ _ _ _ _ _ _ _)) as [[i|e] w3];
      cbn [outcome trace world fst snd abort_as].
    + destruct (run h _ w3) as [[o3 t3] w4]. cbn [outcome trace world fst snd].
      pick_creation.
    + pick_creation.
  - rewrite run_bind, run_when_print. cbn [outcome trace world fst snd].
    rewrite run_bind, run_call.
    destruct (h _ wd (InstancesLaunch _ _ _ _ _ _ _)) as [[i|e] w3];
      cbn [outcome trace world fst snd abort_as].
    + destruct (run h _ w3) as [[o3 t3] w4]. cbn [outcome trace world fst snd].
      pick_creation.
    + pick_creation.
Qed.

(** *** What a program has done when it returns *)

Lemma sat_bind_ok {A B : Type} (p : Prog A) (f : A -> Prog B)
    (T1 : A -> list Event -> Prop) (T : B -> list Event -> Prop) :
  sat p (fun o t => forall a, o = Returned a -> T1 a t) ->
  (forall a t1, T1 a t1 ->
     sat (f a) (fun o t2 => forall b, o = Returned b -> T b (t1 ++ t2))) ->
  sat (bind p f) (fun o t => forall b, o = Returned b -> T b t).
Proof.
  intros Hp Hf. eapply sat_bind; [exact Hp| |].
  - intros a t1 H1. apply Hf. by apply H1.
  - intros o t1 _ Hr b Hb. by destruct o.
Qed.

Lemma sat_call_ok {R : Type} (op : Op R) :
  sat (call op) (fun o t => forall v, o = Returned v -> t = [EvCall op (Ok v)]).
Proof. apply sat_call; [by intros v v' [= <-]|done]. Qed.

Lemma sat_getitem_ok {V : Type} (d : gmap string V) (k : string) :
  sat (getitem d k) (fun o t => forall v, o = Returned v -> d !! k = Some v /\ t = []).
Proof.
  unfold getitem. destruct (d !! k) as [v|]; [apply sat_ret|by apply sat_raise].
  by intros v' [= <-].
Qed.

(** *** The hypervisor's side of the removals *)

Lemma apply_removals_spec (keys : list (string * string)) (ports : list Port) :
  apply_removals keys ports = filter (fun p => port_key p ∉ keys) ports.
Proof.
  unfold apply_removals. revert ports.
  induction keys as [|k keys IH]; intros ports; cbn [foldl].
  - induction ports as [|p ports IHp]; [done|].
    rewrite filter_cons, decide_True by apply not_elem_of_nil. by f_equal.
  - rewrite IH. unfold remove_port. rewrite list_filter_filter.
    apply list_filter_iff. intros p. rewrite not_elem_of_cons. tauto.
Qed.

Lemma filter_iff_in {A : Type} (P Q : A -> Prop)
    `{!forall x, Decision (P x)} `{!forall x, Decision (Q x)} (l : list A) :
  (forall x, x ∈ l -> P x <-> Q x) -> filter P l = filter Q l.
Proof.
  induction l as [|x l IH]; intros HPQ; [done|].
  rewrite !filter_cons.
  assert (filter P l = filter Q l) as ->.
  { apply IH. intros y Hy. apply HPQ. by apply list_elem_of_further. }
  destruct (HPQ x (list_elem_of_here _ _)) as [H1 H2].
  destruct (decide (P x)), (decide (Q x)); tauto || done.
Qed.

Lemma NoDup_fmap_eq {A B : Type} (f : A -> B) (l : list A) (x y : A) :
  NoDup (f <$> l) -> x ∈ l -> y ∈ l -> f x = f y -> x = y.
Proof.
  induction l as [|z l IH]; intros Hnd Hx Hy Hf; [by apply elem_of_nil in Hx|].
  rewrite fmap_cons in Hnd. apply NoDup_cons in Hnd as [Hz Hnd].
  apply elem_of_cons in Hx as [->|Hx], Hy as [->|Hy]; [done| | |by apply IH].
  - destruct Hz. rewrite Hf. by apply list_elem_of_fmap_2.
  - destruct Hz. rewrite <- Hf. by apply list_elem_of_fmap_2.
Qed.

Lemma apply_removals_aimed (addrs : list string) (ports : list Port) :
  NoDup (port_key <$> ports) ->
  apply_removals
    (port_key <$> filter (fun p => port_target_address p ∈ addrs) ports) ports
  = filter (fun p => port_target_address p ∉ addrs) ports.
Proof.
  intros Hnd. rewrite apply_removals_spec. apply filter_iff_in.
  intros p Hp. split.
  - intros Hnot Hin. destruct Hnot.
    apply list_elem_of_fmap_2. by apply list_elem_of_filter.
  - intros Hno Hin. apply list_elem_of_fmap in Hin as (q & Hkey & Hq).
    apply list_elem_of_filter in Hq as [Hq1 Hq2].
    assert (p = q) as -> by by eapply NoDup_fmap_eq.
    done.
Qed.

(** C4.  Forward-port removal first discovers the addresses of the instance
    (the static IPv4 and IPv6 overrides of [eth0] when it is not running,
    the first live global-scope address when it is).  With none, it reads
    and removes nothing.  Otherwise it lists the forwards of the network
    named by the expanded [eth0] device and, for every forward of the
    listing in turn, whatever its listen address, reads the entries and asks
    to remove, by protocol and listen port, each entry whose target address
    is one of the discovered addresses; an entry with another target is
    passed over.  So a run that returns has asked for exactly the entries
    read that target a discovered address, on every listed forward; and on a
    forward whose entries have distinct protocol and listen port, those
    requests leave exactly the entries with other targets. *)
Theorem removeForwardPort_exact (project : Project) (args : Args)
    (instance : Instance) (w : World) :
  let r := run h (removeForwardPort project args (ByHandle instance)) w in
  removal_phase project instance (trace r) (returned (outcome r))
  /\ (returned (outcome r) = true ->
      exists td addrs rest,
        trace r = td ++ rest /\
        address_discovery instance td (Some addrs) /\
        omap removal_request rest = requests_for addrs (omap reads_ports rest) /\
        (forall fs, fs ∈ omap lists_forwards rest ->
                    (omap reads_ports rest).*1 = fs))
  /\ (forall (addrs : list string) (ports : list Port),
        NoDup (port_key <$> ports) ->
        apply_removals
          (port_key <$> filter (fun p => port_target_address p ∈ addrs) ports) ports
        = filter (fun p => port_target_address p ∉ addrs) ports).
Proof.
  cbv zeta. pose proof (removeForwardPort_removal project args instance w) as Hr.
  cbv beta in Hr. split_and!.
  - exact Hr.
  - intros Hok. rewrite Hok in Hr. by apply removal_phase_requests in Hr.
  - apply apply_removals_aimed.
Qed.

(** *** Registering forward ports *)

Lemma scan_addresses_first_global (addresses : list Address) (a : Address) :
  List.find (fun x => String.eqb (scope x) "global") addresses = Some a ->
  (family a = "inet" -> scan_addresses addresses = (Some (address a), None)) /\
  (family a = "inet6" -> scan_addresses addresses = (None, Some (address a))).
Proof.
  induction addresses as [|x rest IH]; [done|]. cbn [List.find scan_addresses].
  destruct (String.eqb (scope x) "global") eqn:Hs.
  - intros [= ->]. rewrite !andb_true_r. split; intros ->; done.
  - rewrite !andb_false_r. exact IH.
Qed.

Definition targets_only (target : option string) (e : Event) : Prop :=
  forall x, adds_port_for e = Some x -> x = target.

Lemma setForwardsPorts_loop (args : Args) (forward : NetworkForward)
    (target : option string) (forwards : list Forward) :
  sat (for_each forwards (fun f =>
         call (ForwardAddPort forward (forward_protocol f) (forward_source f)
                 target (forward_destination f)) ;;
         when (verbose args)
           (print ("[DEBUG] Forward port was added: " +:+ pretty (forward_source f)))))
    (fun o t =>
       Forall (targets_only target) t /\
       (returned o = true ->
        omap adds_port_for t = replicate (length forwards) target)).
Proof.
  induction forwards as [|f forwards IH]; cbn [for_each].
  - apply sat_ret. by split.
  - apply sat_bind_assoc, sat_call_bind.
    2:{ intros e. split; [|done]. repeat constructor. by intros x [= <-]. }
    intros []. apply sat_when_print_bind.
    eapply sat_conseq; [exact IH|]. intros o t [Ht Hn]. split.
    + constructor; [by intros x [= <-]|].
      apply Forall_app. split; [|done]. destruct (verbose args); by repeat constructor.
    + intros Ho. cbn [omap list_omap adds_port_for]. simpl length. cbn [replicate].
      f_equal. rewrite omap_app, (Hn Ho). by destruct (verbose args).
Qed.

Lemma setForwardsPorts_tail (project : Project) (args : Args) (network : string)
    (listenAddress target : option string) (forwards : list Forward) :
  sat (network <- call (NetworksGet project network) ;;
       forward <- call (ForwardsGet network listenAddress) ;;
       for_each forwards (fun f =>
         call (ForwardAddPort forward (forward_protocol f) (forward_source f)
                 target (forward_destination f)) ;;
         when (verbose args)
           (print ("[DEBUG] Forward port was added: " +:+ pretty (forward_source f)))))
    (fun o t =>
       Forall (targets_only target) t /\
       (returned o = true ->
        omap adds_port_for t = replicate (length forwards) target)).
Proof.
  apply sat_call_bind; [|intros e; split; [by repeat constructor|done]].
  intros n. apply sat_call_bind.
  2:{ intros e; split; [by repeat constructor|done]. }
  intros f. eapply sat_conseq; [apply setForwardsPorts_loop|].
  intros o t [Ht Hn]. split; [by repeat constructor|done].
Qed.

(** C10.  When the live [eth0] state lists a global-scope address, every
    forward port that [setForwardsPorts] registers targets the first
    global-scope address of the list, whichever family it has: an IPv6
    address listed before the IPv4 one is the target of all forwards.  When
    the function returns, it has registered one port per declared forward. *)
Theorem setForwardsPorts_first_global (project : Project) (args : Args)
    (instance : Instance) (network : string) (listenAddress : option string)
    (forwards : list Forward) (w w1 : World)
    (state : gmap string (list Address)) (addresses : list Address) (a : Address) :
  h _ w (InstanceState instance) = (Ok state, w1) ->
  state !! "eth0" = Some addresses ->
  List.find (fun x => String.eqb (scope x) "global") addresses = Some a ->
  family a = "inet" \/ family a = "inet6" ->
  address a <> "" ->
  let r := run h (setForwardsPorts project args (ByHandle instance) network
                    listenAddress forwards) w in
  Forall (targets_only (Some (address a))) (trace r) /\
  (returned (outcome r) = true ->
   omap adds_port_for (trace r) = replicate (length forwards) (Some (address a))).
Proof.
  intros Hstate Heth0 Hfind Hfam Haddr r. subst r.
  unfold setForwardsPorts. cbn [resolve bind].
  rewrite (run_call_bind_ok _ _ _ _ _ Hstate).
  unfold getitem. rewrite Heth0. cbn [bind].
  destruct (scan_addresses_first_global _ _ Hfind) as [H4 H6].
  assert (exists t4 t6, scan_addresses addresses = (t4, t6) /\
            (bool_decide (t4 = None) && bool_decide (t6 = None)) = false /\
            (if truthy t4 then t4 else t6) = Some (address a))
    as (t4 & t6 & -> & -> & ->).
  { destruct Hfam as [Hf|Hf].
    - exists (Some (address a)), None. split_and!; [by apply H4|done|].
      simpl. by apply String.eqb_neq in Haddr as ->.
    - exists None, (Some (address a)). split_and!; [by apply H6|done..]. }
  pose proof (setForwardsPorts_tail project args network listenAddress
                (Some (address a)) forwards w1) as [Ht Hn].
  cbv zeta. unfold outcome, trace in *. cbn [fst snd].
  split; [|exact Hn]. constructor; [done|exact Ht].
Qed.

(** *** Network reconciliation *)

Lemma dict_merge_lookup (existing new : Dict) (k : string) :
  dict_merge existing new !! k =
    match new !! k with
    | Some v => Some v
    | None => existing !! k
    end.
Proof.
  unfold dict_merge. rewrite lookup_union.
  destruct (new !! k), (existing !! k); done.
Qed.

Lemma main_network_update_branch (project : Project) (args : Args) (net : NetworkSpec) :
  sat (when (verbose args)
         (Print ("[DEBUG] Network '" +:+ Network_name net +:+ "' already existed.")
            (print ("[DEBUG] Updating network: '" +:+ Network_name net +:+ "'"))) ;;
       network <- call (NetworksGet project (Network_name net)) ;;
       description <- call (NetworkDescription network) ;;
       (if bool_decide (description <> Network_description net) then
          call (NetworkSetDescription network (Network_description net))
        else Ret tt) ;;
       existing <- call (NetworkConfig network) ;;
       match Network_config net with
       | Some new => call (NetworkSetConfig network (dict_merge existing new))
       | None => Raise (TypeError "'NoneType' object is not a mapping")
       end ;;
       Ret (Some network))
    (fun o t =>
       forall network, o = Returned network ->
       exists n description existing new msgs,
         network = Some n /\
         Network_config net = Some new /\
         Forall (fun x => is_print x = true) msgs /\
         t = msgs ++
             [EvCall (NetworksGet project (Network_name net)) (Ok n);
              EvCall (NetworkDescription n) (Ok description)] ++
             (if bool_decide (description <> Network_description net)
              then [EvCall (NetworkSetDescription n (Network_description net)) (Ok tt)]
              else []) ++
             [EvCall (NetworkConfig n) (Ok existing);
              EvCall (NetworkSetConfig n (dict_merge existing new)) (Ok tt)]).
Proof.
  eapply sat_bind_ok with (T1 := fun _ t => Forall (fun x => is_print x = true) t).
  { destruct (verbose args); cbn [when print].
    - apply sat_print, sat_print, sat_ret. by repeat constructor.
    - by apply sat_ret. }
  intros _ msgs Hmsgs.
  eapply sat_bind_ok; [apply sat_call_ok|]. intros n ? ->.
  eapply sat_bind_ok; [apply sat_call_ok|]. intros description ? ->.
  eapply sat_bind_ok with (T1 := fun _ t =>
    t = if bool_decide (description <> Network_description net)
        then [EvCall (NetworkSetDescription n (Network_description net)) (Ok tt)]
        else []).
  { destruct (bool_decide _); [|by apply sat_ret].
    eapply sat_conseq; [apply sat_call_ok|]. intros o t Ht [] Ho. by apply Ht. }
  intros _ ? ->.
  eapply sat_bind_ok; [apply sat_call_ok|]. intros existing ? ->.
  destruct (Network_config net) as [new|]; [|by apply sat_raise].
  eapply sat_bind_ok; [apply sat_call_ok|]. intros [] ? ->.
  apply sat_ret. intros ? [= <-].
  exists n, description, existing, new, msgs. split_and!; [done..|].
  by rewrite app_nil_r.
Qed.

(** C5.  With action [update] and a network that exists, a reconciliation
    that returns has read the description and rewritten it only if it
    differed from the declared one, then has read the existing config and
    written back its shallow merge with the declared config: declared keys
    overwrite, the other existing keys are kept; for instance
    [{a:1,b:2}] merged with [{b:3,c:4}] is [{a:1,b:3,c:4}]. *)
Theorem network_update_merges (project : Project) (args : Args)
    (net : NetworkSpec) (w w1 : World) :
  Network_action net = "update" ->
  h _ w (NetworksExists project (Network_name net)) = (Ok true, w1) ->
  let r := run h (main_network project args net) w in
  (forall network, outcome r = Returned network ->
   exists n description existing new msgs,
     network = Some n /\
     Network_config net = Some new /\
     Forall (fun x => is_print x = true) msgs /\
     trace r = EvCall (NetworksExists project (Network_name net)) (Ok true) ::
               msgs ++
               [EvCall (NetworksGet project (Network_name net)) (Ok n);
                EvCall (NetworkDescription n) (Ok description)] ++
               (if bool_decide (description <> Network_description net)
                then [EvCall (NetworkSetDescription n (Network_description net)) (Ok tt)]
                else []) ++
               [EvCall (NetworkConfig n) (Ok existing);
                EvCall (NetworkSetConfig n (dict_merge existing new)) (Ok tt)])
  /\ (forall (existing new : Dict) (k : string),
        dict_merge existing new !! k =
          match new !! k with
          | Some v => Some v
          | None => existing !! k
          end)
  /\ dict_merge {[ "a" := "1"; "b" := "2" ]} {[ "b" := "3"; "c" := "4" ]}
     = ({[ "a" := "1"; "b" := "3"; "c" := "4" ]} : Dict).
Proof.
  intros Hact Hex r. split_and!.
  - subst r. unfold main_network. rewrite Hact.
    rewrite bool_decide_eq_true_2 by (rewrite !elem_of_cons; auto).
    rewrite run_bind, run_call, Hex. cbn [outcome trace world fst snd].
    change (String.eqb "update" "skip") with false.
    change (String.eqb "update" "create") with false.
    change (String.eqb "update" "update") with true.
    cbn [negb andb].
    pose proof (main_network_update_branch project args net w1) as Hb.
    destruct (run h _ w1) as [[o t] w2]. unfold outcome, trace in *. simpl in *.
    intros network Ho. destruct (Hb network Ho) as (n & d & ex & new & msgs & ? & ? & ? & ->).
    exists n, d, ex, new, msgs. by split_and!.
  - apply dict_merge_lookup.
  - by vm_compute.
Qed.

(** *** Waiting for addresses *)

Lemma candidate_in_subnet (fam : string) (subnet : IPNetwork) (a : Address) :
  is_Some (ip_address (address a)) ->
  candidate fam (Some subnet) a = Ok (in_subnet fam subnet a).
Proof.
  intros [ip Hip]. unfold candidate, in_subnet. rewrite Hip.
  by destruct (String.eqb (family a) fam && String.eqb (scope a) "global").
Qed.

Lemma candidate_true (fam : string) (subnet : option IPNetwork) (a : Address) :
  candidate fam subnet a = Ok true ->
  exists n, subnet = Some n /\ in_subnet fam n a = true.
Proof.
  unfold candidate, in_subnet.
  destruct (String.eqb (family a) fam && String.eqb (scope a) "global"); [|done].
  destruct (ip_address (address a)) as [ip|], subnet as [n|]; try done.
  intros [= Hin]. by exists n.
Qed.

(** One pass over a well-formed address list that holds an in-subnet IPv4
    address satisfies the wait when only IPv4 is enabled. *)
Lemma scan_candidates_ipv4_found (subnet4 : IPNetwork) (subnet6 : option IPNetwork)
    (addresses : list Address) (ipv4 ipv6 : option string) :
  Forall well_formed addresses ->
  Exists (fun a => in_subnet "inet" subnet4 a = true) addresses ->
  exists x,
    scan_candidates true false (Some subnet4) subnet6 addresses ipv4 ipv6
    = Ok (Some x, ipv6) /\ truthy (Some x) = true.
Proof.
  intros Hwf Hex. revert ipv4.
  induction addresses as [|a rest IH]; intros ipv4; [by apply Exists_nil in Hex|].
  apply Forall_cons in Hwf as [[Hne Hparse] Hwf].
  cbn [scan_candidates]. rewrite (candidate_in_subnet _ _ _ Hparse).
  destruct (in_subnet "inet" subnet4 a) eqn:Hin.
  - exists (address a). unfold satisfied. cbn [negb orb andb truthy].
    apply String.eqb_neq in Hne. rewrite Hne. by cbn.
  - apply Exists_cons in Hex as [Hex|Hex]; [congruence|].
    destruct (IH Hwf Hex ipv4) as (x & Hscan & Hx).
    unfold satisfied at 1. cbn [negb orb andb].
    destruct (truthy ipv4) eqn:Ht.
    + destruct ipv4 as [y|]; [|done]. exists y. by rewrite andb_true_r.
    + rewrite andb_true_r. by exists x.
Qed.

(** What a pass leaves in [ipv4] and [ipv6]: the value before the pass, or
    an address of the list that lies inside the family's subnet. *)
Lemma scan_candidates_origin (en4 en6 : bool) (subnet4 subnet6 : option IPNetwork)
    (addresses : list Address) (ipv4 ipv6 v4 v6 : option string) :
  scan_candidates en4 en6 subnet4 subnet6 addresses ipv4 ipv6 = Ok (v4, v6) ->
  (v4 = ipv4 \/
   exists a n, a ∈ addresses /\ subnet4 = Some n /\ in_subnet "inet" n a = true) /\
  (v6 = ipv6 \/
   exists a n, a ∈ addresses /\ subnet6 = Some n /\ in_subnet "inet6" n a = true).
Proof.
  revert ipv4 ipv6. induction addresses as [|a rest IH]; intros ipv4 ipv6.
  - intros [= <- <-]. by split; left.
  - cbn [scan_candidates].
    destruct (if en4 then candidate "inet" subnet4 a else Ok false) as [is4|e] eqn:H4;
      [|done].
    destruct (if en6 then candidate "inet6" subnet6 a else Ok false) as [is6|e] eqn:H6;
      [|done].
    assert (is4 = true ->
            exists a' n, a' ∈ a :: rest /\ subnet4 = Some n /\ in_subnet "inet" n a' = true)
      as Hfrom4.
    { intros ->. destruct en4; [|done]. apply candidate_true in H4 as (n & ? & ?).
      exists a, n. split_and!; [apply list_elem_of_here|done..]. }
    assert (is6 = true ->
            exists a' n, a' ∈ a :: rest /\ subnet6 = Some n /\ in_subnet "inet6" n a' = true)
      as Hfrom6.
    { intros ->. destruct en6; [|done]. apply candidate_true in H6 as (n & ? & ?).
      exists a, n. split_and!; [apply list_elem_of_here|done..]. }
    destruct (satisfied _ _ _ _).
    + intros [= <- <-]. split.
      * destruct is4; [right; by apply Hfrom4|by left].
      * destruct is6; [right; by apply Hfrom6|by left].
    + intros Hrest. apply IH in Hrest as [IH4 IH6]. split.
      * destruct IH4 as [->|(a' & n & ? & ? & ?)].
        -- destruct is4; [right; by apply Hfrom4|by left].
        -- right. exists a', n. split_and!; [by apply list_elem_of_further|done..].
      * destruct IH6 as [->|(a' & n & ? & ? & ?)].
        -- destruct is6; [right; by apply Hfrom6|by left].
        -- right. exists a', n. split_and!; [by apply list_elem_of_further|done..].
Qed.

Definition seen_in_subnet (i : Instance) (fam : string) (subnet : option IPNetwork)
    (t : list Event) : Prop :=
  exists st addresses a n,
    EvCall (InstanceState i) (Ok st) ∈ t /\
    st !! "eth0" = Some addresses /\
    a ∈ addresses /\
    subnet = Some n /\
    in_subnet fam n a = true.

Lemma seen_in_subnet_mono (i : Instance) (fam : string) (subnet : option IPNetwork)
    (t t' : list Event) :
  (forall e, e ∈ t -> e ∈ t') ->
  seen_in_subnet i fam subnet t -> seen_in_subnet i fam subnet t'.
Proof.
  intros Hsub (st & addresses & a & n & Hin & ?). exists st, addresses, a, n.
  split; [by apply Hsub|done].
Qed.

Lemma cons_eq_app_poll (e0 : Event) (rest t1 : list Event) (i : Instance)
    (st : gmap string (list Address)) (t2 : list Event) :
  e0 :: rest = t1 ++ EvCall (InstanceState i) (Ok st) :: t2 ->
  (t1 = [] /\ reads_state e0 = Some st /\ rest = t2) \/
  (exists t1', t1 = e0 :: t1' /\ rest = t1' ++ EvCall (InstanceState i) (Ok st) :: t2).
Proof.
  destruct t1 as [|x t1]; cbn [app]; intros Heq; injection Heq as Hev Hrest.
  - left. by subst.
  - right. exists t1. by subst.
Qed.

Lemma nil_eq_app_poll (t1 : list Event) (e : Event) (t2 : list Event) :
  [] = t1 ++ e :: t2 -> False.
Proof. by destruct t1. Qed.

Lemma wait_loop_stops (fuel : nat) (i : Instance) (subnet4 : IPNetwork)
    (subnet6 : option IPNetwork) (ipv4 ipv6 : option string) :
  truthy ipv4 = false ->
  sat (waitForIPAddresses_loop fuel i true false (Some subnet4) subnet6 ipv4 ipv6)
    (fun o t =>
       forall t1 st t2 addresses,
         t = t1 ++ EvCall (InstanceState i) (Ok st) :: t2 ->
         st !! "eth0" = Some addresses ->
         Forall well_formed addresses ->
         Exists (fun a => in_subnet "inet" subnet4 a = true) addresses ->
         t2 = [] /\ o = Returned tt).
Proof.
  revert ipv4 ipv6. induction fuel as [|fuel IH]; intros ipv4 ipv6 Hfalsy;
    cbn [waitForIPAddresses_loop].
  - apply sat_out_of_fuel. intros t1 ??? Heq. by apply nil_eq_app_poll in Heq.
  - apply sat_call_bind.
    2:{ intros e t1 st t2 addresses Heq.
        apply cons_eq_app_poll in Heq as [(_ & Hst & _)|(t1' & _ & Heq)]; [done|].
        by apply nil_eq_app_poll in Heq. }
    intros st0. unfold getitem.
    destruct (st0 !! "eth0") as [addresses0|] eqn:Heth0; cbn [bind].
    2:{ apply sat_raise. intros t1 st t2 addresses Heq Hst.
        apply cons_eq_app_poll in Heq as [(_ & [= <-] & _)|(t1' & _ & Heq)];
          [congruence|].
        by apply nil_eq_app_poll in Heq. }
    destruct (scan_candidates _ _ _ _ _ _ _) as [[v4 v6]|e] eqn:Hscan.
    2:{ apply sat_raise. intros t1 st t2 addresses Heq Hst Hwf Hex.
        apply cons_eq_app_poll in Heq as [(_ & [= <-] & _)|(t1' & _ & Heq)].
        2:{ by apply nil_eq_app_poll in Heq. }
        assert (addresses = addresses0) as -> by congruence.
        destruct (scan_candidates_ipv4_found subnet4 subnet6 addresses0 ipv4 ipv6 Hwf Hex)
          as (x & Hx & _). congruence. }
    destruct (satisfied true false v4 v6) eqn:Hsat.
    + apply sat_ret. intros t1 st t2 addresses Heq _ _ _.
      apply cons_eq_app_poll in Heq as [(_ & _ & <-)|(t1' & _ & Heq)]; [done|].
      by apply nil_eq_app_poll in Heq.
    + apply sat_sleep. eapply sat_conseq.
      { apply (IH v4 v6). unfold satisfied in Hsat. cbn in Hsat.
        by rewrite andb_true_r in Hsat. }
      intros o t Ht t1 st t2 addresses Heq Hst Hwf Hex.
      apply cons_eq_app_poll in Heq as [(_ & [= <-] & _)|(t1' & _ & Heq)].
      { assert (addresses = addresses0) as -> by congruence.
        destruct (scan_candidates_ipv4_found subnet4 subnet6 addresses0 ipv4 ipv6 Hwf Hex)
          as (x & Hx & Htx).
        rewrite Hx in Hscan. injection Hscan as <- <-.
        unfold satisfied in Hsat. cbn [negb orb andb] in Hsat.
        rewrite andb_true_r in Hsat. congruence. }
      apply cons_eq_app_poll in Heq as [(_ & [=] & _)|(t1'' & _ & Heq)].
      by eapply Ht.
Qed.

Lemma wait_loop_polls (fuel : nat) (i : Instance) (en4 en6 : bool)
    (subnet4 subnet6 : option IPNetwork) (ipv4 ipv6 : option string) :
  sat (waitForIPAddresses_loop fuel i en4 en6 subnet4 subnet6 ipv4 ipv6)
    (fun o t => o = StillWaiting -> length (omap reads_state t) = fuel).
Proof.
  revert ipv4 ipv6. induction fuel as [|fuel IH]; intros ipv4 ipv6;
    cbn [waitForIPAddresses_loop].
  - by apply sat_out_of_fuel.
  - apply sat_call_bind; [|done].
    intros st0. unfold getitem.
    destruct (st0 !! "eth0") as [addresses0|]; cbn [bind]; [|by apply sat_raise].
    destruct (scan_candidates _ _ _ _ _ _ _) as [[v4 v6]|e]; [|by apply sat_raise].
    destruct (satisfied en4 en6 v4 v6); [by apply sat_ret|].
    apply sat_sleep. eapply sat_conseq; [apply (IH v4 v6)|].
    intros o t Ht Ho. cbn. by rewrite (Ht Ho).
Qed.

Lemma wait_loop_returns (fuel : nat) (i : Instance) (en4 en6 : bool)
    (subnet4 subnet6 : option IPNetwork) (ipv4 ipv6 : option string) :
  sat (waitForIPAddresses_loop fuel i en4 en6 subnet4 subnet6 ipv4 ipv6)
    (fun o t =>
       returned o = true ->
       (en4 = true -> truthy ipv4 = true \/ seen_in_subnet i "inet" subnet4 t) /\
       (en6 = true -> truthy ipv6 = true \/ seen_in_subnet i "inet6" subnet6 t)).
Proof.
  revert ipv4 ipv6. induction fuel as [|fuel IH]; intros ipv4 ipv6;
    cbn [waitForIPAddresses_loop].
  - by apply sat_out_of_fuel.
  - apply sat_call_bind; [|done].
    intros st0. unfold getitem.
    destruct (st0 !! "eth0") as [addresses0|] eqn:Heth0; cbn [bind];
      [|by apply sat_raise].
    destruct (scan_candidates _ _ _ _ _ _ _) as [[v4 v6]|e] eqn:Hscan;
      [|by apply sat_raise].
    apply scan_candidates_origin in Hscan as [H4 H6].
    assert (forall fam sn (t : list Event),
              (exists a n, a ∈ addresses0 /\ sn = Some n /\ in_subnet fam n a = true) ->
              seen_in_subnet i fam sn (EvCall (InstanceState i) (Ok st0) :: t)) as Hseen.
    { intros fam sn t (a & n & ? & ? & ?). exists st0, addresses0, a, n.
      split_and!; [apply list_elem_of_here|done..]. }
    destruct (satisfied en4 en6 v4 v6) eqn:Hsat.
    + apply sat_ret. intros _. unfold satisfied in Hsat.
      apply andb_true_iff in Hsat as [S4 S6]. split.
      * intros ->. cbn in S4. destruct H4 as [->|H4]; [by left|right; by apply Hseen].
      * intros ->. cbn in S6. destruct H6 as [->|H6]; [by left|right; by apply Hseen].
    + apply sat_sleep. eapply sat_conseq; [apply (IH v4 v6)|].
      intros o t Ht Ho. destruct (Ht Ho) as [R4 R6]. split.
      * intros E4. destruct (R4 E4) as [Tv|Hs].
        -- destruct H4 as [->|H4]; [by left|right; by apply Hseen].
        -- right. eapply seen_in_subnet_mono; [|exact Hs].
           intros e He. by do 2 apply list_elem_of_further.
      * intros E6. destruct (R6 E6) as [Tv|Hs].
        -- destruct H6 as [->|H6]; [by left|right; by apply Hseen].
        -- right. eapply seen_in_subnet_mono; [|exact Hs].
           intros e He. by do 2 apply list_elem_of_further.
Qed.

(** The part of [waitForIPAddresses] before the loop polls nothing. *)
Definition quiet (t : list Event) : Prop :=
  Forall (fun e => reads_state e = None) t.

Lemma quiet_polls (t : list Event) : quiet t -> omap reads_state t = [].
Proof.
  induction 1 as [|e t He _ IH]; [done|]. cbn. by rewrite He.
Qed.

Lemma config_is_app (config : Dict) (t1 t2 : list Event) :
  config_is config (t1 ++ t2) <-> config_is config t1 /\ config_is config t2.
Proof. apply Forall_app. Qed.

(** The three conclusions about a wait, for the families [en4], [en6] and
    the subnets [sn4], [sn6]. *)
Definition wait_post (fuel : nat) (i : Instance) (en4 en6 : bool)
    (sn4 sn6 : option IPNetwork) (o : Outcome unit) (t : list Event) : Prop :=
  (returned o = true ->
   (en4 = true -> seen_in_subnet i "inet" sn4 t) /\
   (en6 = true -> seen_in_subnet i "inet6" sn6 t)) /\
  (o = StillWaiting -> length (omap reads_state t) = fuel) /\
  (en4 = true -> en6 = false -> forall n4, sn4 = Some n4 ->
   forall t1 st t2 addresses,
     t = t1 ++ EvCall (InstanceState i) (Ok st) :: t2 ->
     st !! "eth0" = Some addresses ->
     Forall well_formed addresses ->
     Exists (fun a => in_subnet "inet" n4 a = true) addresses ->
     t2 = [] /\ o = Returned tt).

Lemma wait_loop_spec (fuel : nat) (i : Instance) (en4 en6 : bool)
    (sn4 sn6 : option IPNetwork) :
  sat (waitForIPAddresses_loop fuel i en4 en6 sn4 sn6 None None)
    (wait_post fuel i en4 en6 sn4 sn6).
Proof.
  intros w. split_and!.
  - intros Hr. destruct (wait_loop_returns fuel i en4 en6 sn4 sn6 None None w Hr)
      as [H4 H6].
    split; intros He; [destruct (H4 He)|destruct (H6 He)]; done.
  - apply wait_loop_polls.
  - intros -> -> n4 ->. by apply wait_loop_stops.
Qed.

Lemma wait_post_prefix (fuel : nat) (i : Instance) (en4 en6 : bool)
    (sn4 sn6 : option IPNetwork) (ts t : list Event) (o : Outcome unit) :
  quiet ts -> wait_post fuel i en4 en6 sn4 sn6 o t ->
  wait_post fuel i en4 en6 sn4 sn6 o (ts ++ t).
Proof.
  intros Hq (HC & HB & HA). split_and!.
  - intros Hr. destruct (HC Hr) as [H4 H6].
    split; intros He; (eapply seen_in_subnet_mono; [|by eauto]);
      intros e Hin; apply elem_of_app; by right.
  - intros Ho. rewrite omap_app, quiet_polls by done. cbn [app]. by apply HB.
  - intros E4 E6 n4 Hn t1 st t2 addresses Heq.
    destruct (split_prefix_none reads_state ts t t1 _ t2 st Hq Heq eq_refl)
      as (k & -> & ->).
    by eapply HA.
Qed.

Lemma wait_post_abort (fuel : nat) (i : Instance) (en4 en6 : bool)
    (sn4 sn6 : option IPNetwork) (ts : list Event) (o : Outcome unit) :
  quiet ts -> returned o = false -> o <> StillWaiting ->
  wait_post fuel i en4 en6 sn4 sn6 o ts.
Proof.
  intros Hq Hr Ho. split_and!; [by rewrite Hr|done|].
  intros _ _ n4 _ t1 st t2 addresses Heq.
  rewrite Heq in Hq. apply Forall_app in Hq as [_ Hq]. by apply Forall_inv in Hq.
Qed.

(** One step of the setup: it polls nothing, does not run out of fuel, and
    under the assumption on the config reads its value satisfies [T]. *)
Definition setup_step {A : Type} (config : Dict) (T : A -> Prop)
    (o : Outcome A) (t : list Event) : Prop :=
  quiet t /\ o <> StillWaiting /\
  (config_is config t -> forall a, o = Returned a -> T a).

Lemma sat_bind_setup {A : Type} (config : Dict) (T : A -> Prop) (p : Prog A)
    (f : A -> Prog unit) (fuel : nat) (i : Instance) (en4 en6 : bool)
    (sn4 sn6 : option IPNetwork) :
  sat p (setup_step config T) ->
  (forall a, T a ->
     sat (f a) (fun o t => config_is config t -> wait_post fuel i en4 en6 sn4 sn6 o t)) ->
  sat (bind p f)
    (fun o t => config_is config t -> wait_post fuel i en4 en6 sn4 sn6 o t).
Proof.
  intros Hp Hf. eapply sat_bind; [exact Hp| |].
  - intros a t1 (Hq & _ & HT) w Hc. apply config_is_app in Hc as [Hc1 Hc2].
    apply wait_post_prefix; [done|]. apply Hf; [by apply HT|done].
  - intros o t1 (Hq & Hw & _) Hr _. apply wait_post_abort; [done|by destruct o..].
Qed.

Lemma setup_call {R : Type} (config : Dict) (op : Op R) (T : R -> Prop) :
  (forall v, reads_state (EvCall op (Ok v)) = None) ->
  (forall v, config_is config [EvCall op (Ok v)] -> T v) ->
  sat (call op) (setup_step config T).
Proof.
  intros Hq HT. apply sat_call.
  - intros v. split_and!; [by repeat constructor|done|].
    intros Hc ? [= <-]. by apply HT.
  - intros e. split_and!; [|done..].
    constructor; [by destruct op|constructor].
Qed.

Lemma setup_getitem {V : Type} (config : Dict) (d : gmap string V) (k : string) :
  sat (getitem d k) (setup_step config (fun v => d !! k = Some v)).
Proof.
  unfold getitem. destruct (d !! k) as [v|] eqn:E; [apply sat_ret|apply sat_raise].
  - split_and!; [constructor|done|]. by intros _ ? [= <-].
  - by split_and!; [constructor|..].
Qed.

Lemma config_is_cons_read (config c : Dict) (n : Network) (t : list Event) :
  config_is config (EvCall (NetworkConfig n) (Ok c) :: t) ->
  c = config /\ config_is config t.
Proof.
  intros Hc. apply Forall_cons in Hc as [Hc Ht]. split; [by apply Hc|done].
Qed.

Lemma family_enabled_spec (config : Dict) (network : Network)
    (static : option string) (key : string) :
  sat (family_enabled network static key)
    (setup_step config (fun b => b = enabled config static key)).
Proof.
  unfold family_enabled, enabled. destruct (isFalse static); cbn [negb andb].
  { apply sat_ret. split_and!; [constructor|done|]. by intros _ ? [= <-]. }
  apply sat_call_bind.
  2:{ intros e. split_and!; [by repeat constructor|done..]. }
  intros c. destruct (c !! key) as [v0|] eqn:Hc0.
  2:{ apply sat_ret. split_and!; [by repeat constructor|done|].
      intros Hc ? [= <-]. apply config_is_cons_read in Hc as [<- _]. by rewrite Hc0. }
  apply sat_call_bind.
  2:{ intros e. split_and!; [by repeat constructor|done..]. }
  intros c2. unfold getitem. destruct (c2 !! key) as [v|] eqn:Hc2; cbn [bind].
  - apply sat_ret. split_and!; [by repeat constructor|done|].
    intros Hc ? [= <-]. apply config_is_cons_read in Hc as [_ Hc].
    apply config_is_cons_read in Hc as [<- _]. by rewrite Hc2.
  - apply sat_raise. split_and!; [by repeat constructor|done..].
Qed.

Lemma family_subnet_spec (config : Dict) (network : Network) (en : bool) (key : string) :
  sat (family_subnet network en key)
    (setup_step config (fun sn =>
       if en then is_Some sn /\ sn = config !! key ≫= ip_network else sn = None)).
Proof.
  unfold family_subnet. destruct en.
  2:{ apply sat_ret. split_and!; [constructor|done|]. by intros _ ? [= <-]. }
  apply sat_call_bind.
  2:{ intros e. split_and!; [by repeat constructor|done..]. }
  intros c. unfold getitem. destruct (c !! key) as [v|] eqn:Hc; cbn [bind].
  2:{ apply sat_raise. split_and!; [by repeat constructor|done..]. }
  destruct (ip_network v) as [n|] eqn:Hn.
  - apply sat_ret. split_and!; [by repeat constructor|done|].
    intros Hcfg ? [= <-]. apply config_is_cons_read in Hcfg as [<- _].
    rewrite Hc. cbn. by rewrite Hn.
  - apply sat_raise. split_and!; [by repeat constructor|done..].
Qed.

Lemma waitForIPAddresses_spec (project : Project) (fuel : nat) (i : Instance)
    (staticIPv4 staticIPv6 : option string) (config : Dict) :
  sat (waitForIPAddresses project fuel (ByHandle i) staticIPv4 staticIPv6)
    (fun o t =>
       config_is config t ->
       wait_post fuel i
         (enabled config staticIPv4 "ipv4.address")
         (enabled config staticIPv6 "ipv6.address")
         (config !! "ipv4.address" ≫= ip_network)
         (config !! "ipv6.address" ≫= ip_network) o t).
Proof.
  unfold waitForIPAddresses. cbn [resolve bind].
  eapply sat_bind_setup with (T := fun _ => True).
  { by apply setup_call. }
  intros status _.
  eapply sat_bind_setup with (T := fun _ => True).
  { destruct (negb _); [|apply sat_ret; by split_and!; [constructor|..]].
    apply sat_call_bind.
    - intros s. apply sat_raise. split_and!; [by repeat constructor|done..].
    - intros e. split_and!; [by repeat constructor|done..]. }
  intros _ _.
  eapply sat_bind_setup with (T := fun _ => True); [by apply setup_call|].
  intros expanded _.
  eapply sat_bind_setup; [apply setup_getitem|]. intros eth0 _.
  eapply sat_bind_setup; [apply setup_getitem|]. intros netname _.
  eapply sat_bind_setup with (T := fun _ => True); [by apply setup_call|].
  intros network _.
  eapply sat_bind_setup; [apply family_enabled_spec|]. intros en4 ->.
  eapply sat_bind_setup; [apply family_enabled_spec|]. intros en6 ->.
  eapply sat_bind_setup; [apply family_subnet_spec|]. intros sn4 Hsn4.
  eapply sat_bind_setup; [apply family_subnet_spec|]. intros sn6 Hsn6.
  eapply sat_conseq; [apply wait_loop_spec|].
  intros o t (HC & HB & HA) _. split_and!.
  - intros Hr. destruct (HC Hr) as [H4 H6]. split.
    + intros E4. rewrite E4 in Hsn4. destruct Hsn4 as [_ <-]. by apply H4.
    + intros E6. rewrite E6 in Hsn6. destruct Hsn6 as [_ <-]. by apply H6.
  - done.
  - intros E4 E6 n4 Hn4. rewrite E4 in Hsn4. destruct Hsn4 as [_ Hsn4].
    apply (HA E4 E6 n4). congruence.
Qed.

(** C6.  In a run of [waitForIPAddresses] whose reads of the network config
    all return [config]: the function returns only if, for each enabled
    family, some poll showed a global-scope address of that family inside
    the family's declared subnet, so an address outside the subnet never
    satisfies the wait.  When only IPv4 is enabled (IPv6 suppressed by the
    caller, or no IPv6 subnet declared), the first poll that shows a
    global-scope IPv4 address inside the declared subnet is the last event
    of the run, which returns there without waiting on IPv6; and the loop
    is still waiting after [fuel] polls only if it made all [fuel] of them. *)
Theorem waitForIPAddresses_ipv4_only (project : Project) (fuel : nat)
    (instance : Instance) (staticIPv4 staticIPv6 : option string)
    (config : Dict) (w : World) :
  let r := run h (waitForIPAddresses project fuel (ByHandle instance)
                    staticIPv4 staticIPv6) w in
  config_is config (trace r) ->
  (returned (outcome r) = true ->
   (enabled config staticIPv4 "ipv4.address" = true ->
    seen_in_subnet instance "inet" (config !! "ipv4.address" ≫= ip_network) (trace r)) /\
   (enabled config staticIPv6 "ipv6.address" = true ->
    seen_in_subnet instance "inet6" (config !! "ipv6.address" ≫= ip_network) (trace r)))
  /\ (enabled config staticIPv4 "ipv4.address" = true ->
      enabled config staticIPv6 "ipv6.address" = false ->
      forall subnet4, config !! "ipv4.address" ≫= ip_network = Some subnet4 ->
      (forall t1 st t2 addresses,
         trace r = t1 ++ EvCall (InstanceState instance) (Ok st) :: t2 ->
         st !! "eth0" = Some addresses ->
         Forall well_formed addresses ->
         Exists (fun a => in_subnet "inet" subnet4 a = true) addresses ->
         t2 = [] /\ outcome r = Returned tt)
      /\ (outcome r = StillWaiting -> length (omap reads_state (trace r)) = fuel)).
Proof.
  intros r Hc.
  destruct (waitForIPAddresses_spec project fuel instance staticIPv4 staticIPv6
              config w Hc) as (HC & HB & HA).
  split; [exact HC|]. intros E4 E6 subnet4 Hn. split; [|exact HB].
  by apply (HA E4 E6 subnet4).
Qed.

(** *** Programs that always end *)

Lemma ends_with_1_run {A : Type} (p : Prog A) (w : World) :
  ends_with_1 p ->
  match outcome (run h p w) with
  | Exited c => c = 1
  | StillWaiting => False
  | _ => True
  end.
Proof.
  revert w. induction p as [a|e|c|s k IH|k IH| |R op k IH]; intros w Hp; simpl in *;
    try done.
  - specialize (IH w Hp). by destruct (run h k w) as [[o t] w'].
  - specialize (IH w Hp). by destruct (run h k w) as [[o t] w'].
  - destruct (h R w op) as [r w1]. specialize (IH r w1 (Hp r)).
    by destruct (run h (k r) w1) as [[o t] w'].
Qed.

Lemma ends_with_1_bind {A B : Type} (p : Prog A) (f : A -> Prog B) :
  ends_with_1 p -> (forall a, ends_with_1 (f a)) -> ends_with_1 (bind p f).
Proof.
  intros Hp Hf. induction p as [a|e|c|s k IH|k IH| |R op k IH]; simpl in *; auto.
Qed.

Lemma ends_with_1_call {R : Type} (op : Op R) : ends_with_1 (call op).
Proof. unfold call. cbn [ends_with_1]. by intros [v|e]. Qed.

Lemma ends_with_1_when_print (b : bool) (s : string) : ends_with_1 (when b (print s)).
Proof. by destruct b. Qed.

Lemma ends_with_1_getitem {V : Type} (d : gmap string V) (k : string) :
  ends_with_1 (getitem d k).
Proof. unfold getitem. by destruct (d !! k). Qed.

Lemma ends_with_1_for_each {A : Type} (l : list A) (body : A -> Prog unit) :
  (forall x, ends_with_1 (body x)) -> ends_with_1 (for_each l body).
Proof.
  intros Hbody. induction l as [|x l IH]; [done|].
  cbn [for_each]. by apply ends_with_1_bind.
Qed.

Lemma ends_with_1_try {A : Type} (p : Prog A)
    (handler : InstanceExceptionClass -> string -> Prog A) :
  ends_with_1 p -> (forall c m, ends_with_1 (handler c m)) ->
  ends_with_1 (try_except_InstanceException p handler).
Proof.
  intros Hp Hh. induction p as [a|e|c|s k IH|k IH| |R op k IH]; simpl in *; auto.
  by destruct e.
Qed.

Lemma associatedACLs_loop_ends (args : Args) (i : Instance)
    (acls toRemove : list NetworkACL) :
  ends_with_1 (associatedACLs_loop args i acls toRemove).
Proof.
  revert toRemove. induction acls as [|acl rest IH]; intros toRemove; [done|].
  cbn [associatedACLs_loop].
  apply ends_with_1_bind; [apply ends_with_1_call|]. intros u.
  destruct (Nat.eqb _ _); [|apply IH].
  apply ends_with_1_bind; [apply ends_with_1_call|]. intros u'.
  apply ends_with_1_bind; [by destruct u'|]. intros ref.
  destruct (str_in _ _); [|apply IH].
  apply ends_with_1_bind; [apply ends_with_1_when_print|]. intros _. apply IH.
Qed.

Lemma removeForwardPort_ends (project : Project) (args : Args) (i : Instance) :
  ends_with_1 (removeForwardPort project args (ByHandle i)).
Proof.
  unfold removeForwardPort. cbn [resolve bind].
  apply ends_with_1_bind; [apply ends_with_1_call|]. intros status.
  apply ends_with_1_bind.
  { destruct (negb _).
    - apply ends_with_1_bind; [apply ends_with_1_call|]. intros d.
      by destruct (d !! "eth0").
    - apply ends_with_1_bind; [apply ends_with_1_call|]. intros st.
      apply ends_with_1_bind; [apply ends_with_1_getitem|]. by intros. }
  intros [t4 t6]. destruct (_ || _); [|done].
  apply ends_with_1_bind; [apply ends_with_1_call|]. intros expanded.
  apply ends_with_1_bind; [apply ends_with_1_getitem|]. intros eth0.
  apply ends_with_1_bind; [apply ends_with_1_getitem|]. intros netname.
  apply ends_with_1_bind; [apply ends_with_1_call|]. intros network.
  apply ends_with_1_bind; [apply ends_with_1_call|]. intros forwards.
  apply ends_with_1_for_each. intros forward.
  apply ends_with_1_bind; [apply ends_with_1_call|]. intros ports.
  apply ends_with_1_for_each. intros port.
  destruct (targets _ _ _); [|done].
  apply ends_with_1_bind; [apply ends_with_1_call|]. intros _.
  apply ends_with_1_when_print.
Qed.

Lemma destroy_ends (project : Project) (args : Args) (i : Instance) :
  ends_with_1 (destroy project args i).
Proof.
  unfold destroy.
  apply ends_with_1_bind; [apply ends_with_1_when_print|]. intros _.
  apply ends_with_1_bind.
  { unfold associatedACLs. cbn [resolve bind].
    apply ends_with_1_bind; [apply ends_with_1_call|]. intros acls.
    apply associatedACLs_loop_ends. }
  intros acls.
  apply ends_with_1_bind; [apply removeForwardPort_ends|]. intros _.
  apply ends_with_1_bind.
  { apply ends_with_1_try.
    - apply ends_with_1_bind; [apply ends_with_1_call|]. intros _.
      apply ends_with_1_when_print.
    - by intros []. }
  intros _.
  apply ends_with_1_bind.
  { apply ends_with_1_try.
    - apply ends_with_1_bind; [apply ends_with_1_call|]. intros _.
      apply ends_with_1_when_print.
    - by intros []. }
  intros _.
  apply ends_with_1_bind; [apply ends_with_1_call|]. intros _.
  apply ends_with_1_bind; [apply ends_with_1_when_print|]. intros _.
  apply ends_with_1_for_each. intros acl.
  apply ends_with_1_bind; [apply ends_with_1_call|]. intros u.
  destruct (Nat.eqb _ _); [|done].
  apply ends_with_1_bind; [apply ends_with_1_call|]. intros _.
  apply ends_with_1_when_print.
Qed.

(** C2.  Teardown runs its steps in this order.  First the ACLs of the
    project are listed and scanned, and those whose [usedBy] has exactly one
    entry, naming this instance, are identified.  Second the addresses of
    the instance are discovered and, on every forward of its network, the
    port entries that target one of them are asked to be removed.  Both
    come before the pause.  Then pause is attempted, a "not running" error
    being ignored; stop is attempted, "already stopped" and "not running"
    being ignored; delete follows; last, each identified ACL is deleted only
    when its [usedBy] is empty at that point.  A step is entered only when
    the steps before it went through, and a step that does not go through
    ends on the call or the read that stopped it.  Any failed hypervisor
    call outside the ignored ones aborts the run: nothing but messages
    follows it, [destroy] does not return, and the exit status is 1. *)
Theorem destroy_steps_in_order (project : Project) (args : Args)
    (instance : Instance) (w : World) :
  let r := run h (destroy project args instance) w in
  (exists msgs acls t,
     trace r = msgs ++ t /\
     Forall (fun x => is_print x = true) msgs /\
     in_order [identify_phase project instance acls;
               removal_phase project instance;
               pause_phase instance; stop_phase instance;
               delete_phase instance; cleanup_phase acls]
       t (returned (outcome r)))
  /\ (forall t1 e t2,
        trace r = t1 ++ e :: t2 ->
        is_error e = true -> swallowed e = false ->
        returned (outcome r) = false /\ Forall (fun x => is_print x = true) t2)
  /\ (returned (outcome r) = false -> exit_code (outcome r) = Some 1).
Proof.
  cbv zeta. split_and!.
  - apply (destroy_steps project args instance w).
  - destruct (destroy_phases project args instance w) as [acls Hacls].
    intros t1 e t2 Ht. eapply guarded_at; [|exact Ht].
    by eapply teardown_guarded.
  - pose proof (ends_with_1_run (destroy project args instance) w
                  (destroy_ends project args instance)) as He.
    destruct (outcome (run h (destroy project args instance) w)); try done.
    intros _. cbn. by rewrite He.
Qed.

(** C8.  Every purge run ends with exit status 1, also when the teardown
    has run to its end: the branch finishes with [sys.exit(1)]. *)
Theorem purge_exit_status (args : Args) (w : World) :
  exit_code (outcome (run h (main_purge args) w)) = Some 1.
Proof.
  assert (match outcome (run h (main_purge args) w) with
          | Exited c => c = 1
          | Uncaught _ => True
          | _ => False
          end) as Hr.
  { revert w. change (sat (main_purge args) (fun o _ =>
      match o with Exited c => c = 1 | Uncaught _ => True | _ => False end)).
    unfold main_purge. cbv zeta. cbn [arg_remote arg_project challengePath].
    destruct (_ || _); [by apply sat_print, sat_exit|].
    apply sat_call_bind; [|done]. intros [|]; [|by apply sat_print, sat_exit].
    apply sat_call_bind; [|done]. intros remote.
    apply sat_call_bind; [|done]. intros [|]; [|by apply sat_print, sat_exit].
    apply sat_call_bind; [|done]. intros project.
    apply sat_call_bind; [|done]. intros [|]; [|by apply sat_print, sat_exit].
    apply sat_call_bind; [|done]. intros instance.
    eapply sat_bind with (Q1 := fun o _ =>
      match o with Exited c => c = 1 | StillWaiting => False | _ => True end).
    - intros w'. apply ends_with_1_run, destroy_ends.
    - intros _ t1 _. by apply sat_exit.
    - intros o t1 Ho Hr. by destruct o. }
  destruct (outcome _); try done. by subst.
Qed.

(** *** Validation of the declared sources *)

(** C7.  A declaration with both [launch] and [copy] is rejected by the
    constructor; a declaration with neither is accepted as it is, and the
    arguments assembled for [deploy] then carry no source at all: a launch
    from no image. *)
Theorem provisioning_source_validation (conf : Config) :
  (is_Some (Config_launch conf) -> is_Some (Config_copy conf) ->
   exists e, Config_init conf = Err e)
  /\ (Config_launch conf = None -> Config_copy conf = None ->
      Config_network conf = None ->
      validateObjectFormat [Some (Config_name conf); Some (Config_remote conf);
                            Some (Config_project conf)] = None ->
      Config_init conf = Ok conf /\
      main_load_config (ConfigDict conf) = Ret [conf] /\
      main_kwargs conf None =
        {| kw_name := Config_name conf; kw_remoteSource := None;
           kw_projectSource := None; kw_nameSource := None;
           kw_isClone := false; kw_isVM := false;
           kw_config := None; kw_network := None |}).
Proof.
  split.
  - intros Hl Hc. unfold Config_init.
    destruct (validateObjectFormat _) as [e|]; cbn [check and_then]; [by exists e|].
    rewrite !bool_decide_eq_true_2 by done. cbn [andb]. by eexists.
  - intros Hl Hc Hn Hv.
    assert (Config_init conf = Ok conf) as Hinit.
    { unfold Config_init. rewrite Hv, Hl, Hc, Hn. cbn [check and_then init_opt].
      rewrite bool_decide_eq_false_2 by (by intros [? ?]). cbn [andb].
      destruct conf. by simplify_eq/=. }
    split_and!; [done| |].
    + unfold main_load_config. by rewrite Hinit.
    + unfold main_kwargs. by rewrite Hl, Hc.
Qed.

(** *** Static addresses *)

Lemma Network_init_with_config (c : option Dict) (net : NetworkSpec) :
  Network_init (with_config c net) =
    match Network_init net with
    | Ok n => Ok (with_config c n)
    | Err e => Err e
    end.
Proof.
  unfold Network_init. cbn [with_config Network_name Network_listenAddress
    Network_ipv4 Network_ipv6 Network_forwards Network_acls Network_type
    Network_description Network_config Network_action Network_staticIp].
  repeat match goal with
         | |- context [and_then ?r _] =>
             destruct r; cbn [and_then]; [|reflexivity]
         end.
  reflexivity.
Qed.

Lemma Network_init_ipv4 (net net' : NetworkSpec) (ip : string) :
  Network_ipv4 net = Some ip -> ip <> "" -> isFalse (Some ip) = false ->
  Network_init net = Ok net' ->
  is_Some (IPv4Address ip) /\ Network_ipv4 net' = Some ip.
Proof.
  intros Hip Hne Hf. unfold Network_init. rewrite Hip. cbn [truthy fmt default].
  apply String.eqb_neq in Hne. rewrite Hne, Hf. cbn [negb andb].
  repeat match goal with
         | |- context [and_then ?r _] =>
             destruct r eqn:?; cbn [and_then]; [|done]
         end.
  intros [= <-]. cbn [Network_ipv4]. split; [|done].
  unfold id in *. by destruct (IPv4Address ip); [eexists|].
Qed.

Definition pins (ip : string) (e : Event) : Prop :=
  forall d, sets_devices e = Some d -> static_ipv4 d = Some ip.

Lemma sat_bind_Forall {A B : Type} (P : Event -> Prop) (T1 : A -> Prop)
    (T : B -> Prop) (p : Prog A) (f : A -> Prog B) :
  sat p (fun o t => Forall P t /\ forall a, o = Returned a -> T1 a) ->
  (forall a, T1 a ->
     sat (f a) (fun o t => Forall P t /\ forall b, o = Returned b -> T b)) ->
  sat (bind p f) (fun o t => Forall P t /\ forall b, o = Returned b -> T b).
Proof.
  intros Hp Hf. eapply sat_bind; [exact Hp| |].
  - intros a t1 [H1 Ha]. eapply sat_conseq; [apply Hf; by apply Ha|].
    intros o t2 [H2 Hb]. split; [by apply Forall_app|done].
  - intros o t1 [H1 _] Hr. split; [done|]. by destruct o.
Qed.

Lemma sat_call_Forall {R : Type} (P : Event -> Prop) (op : Op R) :
  (forall r, P (EvCall op r)) ->
  sat (call op) (fun o t => Forall P t /\ forall a, o = Returned a -> True).
Proof. intros HP. apply sat_call; intros; split; by repeat constructor. Qed.

Lemma sat_getitem_Forall {V : Type} (P : Event -> Prop) (d : gmap string V) (k : string) :
  sat (getitem d k) (fun o t => Forall P t /\ forall v, o = Returned v -> d !! k = Some v).
Proof.
  unfold getitem. destruct (d !! k) eqn:E; [apply sat_ret|apply sat_raise]; split;
    try done. by intros ? [= <-].
Qed.

Lemma static_ipv4_set_ipv4 (ip : string) (d : Devices) :
  is_Some (d !! "eth0") -> static_ipv4 (set_eth0 "ipv4.address" ip d) = Some ip.
Proof.
  intros [eth0 He]. unfold static_ipv4, set_eth0.
  rewrite lookup_alter_eq, He. cbn. apply lookup_insert_eq.
Qed.

Lemma static_ipv4_set_ipv6 (v : string) (d : Devices) :
  static_ipv4 (set_eth0 "ipv6.address" v d) = static_ipv4 d.
Proof.
  unfold static_ipv4, set_eth0. rewrite lookup_alter_eq.
  destruct (d !! "eth0") as [eth0|]; [|done]. cbn.
  by apply lookup_insert_ne.
Qed.

Lemma setStaticIP_pins (project : Project) (args : Args) (i : Instance)
    (ip : string) (ipv6 : option string) :
  ip <> "" ->
  sat (setStaticIP project args (ByHandle i) (Some ip) ipv6)
    (fun o t => Forall (pins ip) t /\ forall u, o = Returned u -> True).
Proof.
  intros Hne. unfold setStaticIP. cbn [resolve bind truthy fmt default].
  apply String.eqb_neq in Hne. rewrite Hne. cbn [negb].
  assert (forall R (op : Op R) r, sets_devices (EvCall op r) = None ->
            pins ip (EvCall op r)) as Hread.
  { intros R op r Hn d Hd. congruence. }
  eapply sat_bind_Forall; [by apply sat_call_Forall; intros; apply Hread|].
  intros devices _.
  eapply sat_bind_Forall with (T1 := fun d => is_Some (d !! "eth0")).
  { destruct (devices !! "eth0") as [eth0|] eqn:He.
    - apply sat_ret. split; [constructor|]. intros ? [= <-]. by rewrite He.
    - eapply sat_bind_Forall; [by apply sat_call_Forall; intros; apply Hread|].
      intros expanded _.
      eapply sat_bind_Forall; [apply sat_getitem_Forall|]. intros eth0 _.
      apply sat_ret. split; [constructor|]. intros ? [= <-].
      rewrite lookup_insert_eq. by eexists. }
  intros devices1 He1.
  eapply sat_bind_Forall with (T1 := fun d => static_ipv4 d = Some ip).
  { apply sat_ret. split; [constructor|]. intros ? [= <-].
    by apply static_ipv4_set_ipv4. }
  intros devices2 Hpin.
  eapply sat_bind_Forall; [by apply sat_call_Forall; intros; apply Hread|].
  intros expanded _.
  eapply sat_bind_Forall; [apply sat_getitem_Forall|]. intros eth0 _.
  eapply sat_bind_Forall; [apply sat_getitem_Forall|]. intros netname _.
  eapply sat_bind_Forall; [by apply sat_call_Forall; intros; apply Hread|].
  intros network _.
  eapply sat_bind_Forall; [by apply sat_call_Forall; intros; apply Hread|].
  intros config _.
  eapply sat_bind_Forall with (T1 := fun _ => True).
  { destruct (config !! "ipv6.dhcp.stateful"); [|by apply sat_ret].
    eapply sat_bind_Forall; [by apply sat_call_Forall; intros; apply Hread|].
    intros config2 _.
    eapply sat_bind_Forall; [apply sat_getitem_Forall|]. intros v _.
    by apply sat_ret. }
  intros stateful _.
  eapply sat_bind_Forall with (T1 := fun d => static_ipv4 d = Some ip).
  { destruct stateful; [|by apply sat_ret; split; [|intros ? [= <-]]].
    destruct (truthy ipv6).
    - apply sat_ret. split; [constructor|]. intros ? [= <-].
      by rewrite static_ipv4_set_ipv6.
    - eapply sat_bind_Forall; [by apply sat_call_Forall; intros; apply Hread|].
      intros state _.
      eapply sat_bind_Forall; [apply sat_getitem_Forall|]. intros addrs _.
      destruct (first_global "inet6" addrs); apply sat_ret; split; try constructor;
        intros ? [= <-]; [by rewrite static_ipv4_set_ipv6|done]. }
  intros devices3 Hpin3.
  eapply sat_bind_Forall with (T1 := fun _ => True).
  { apply sat_call_Forall. intros r d [= <-]. exact Hpin3. }
  intros _ _. destruct (verbose args); cbn [when print].
  - apply sat_print, sat_ret. split; [|done]. repeat constructor. by intros d.
  - by apply sat_ret.
Qed.

(** *** The one write of [setStaticIP] *)

(** A postcondition on the result and the state-changing calls of a run
    that returns. *)
Definition quietly {A : Type} (T : A -> list Event -> Prop)
    : Outcome A -> list Event -> Prop :=
  fun o t => forall a, o = Returned a -> T a (mutations t).

Lemma sat_bind_quiet {A B : Type} (p : Prog A) (f : A -> Prog B)
    (T1 : A -> Prop) (T : B -> list Event -> Prop) :
  sat p (quietly (fun a ms => ms = [] /\ T1 a)) ->
  (forall a, T1 a -> sat (f a) (quietly T)) ->
  sat (bind p f) (quietly T).
Proof.
  intros Hp Hf. eapply sat_bind; [exact Hp| |].
  - intros a t1 H1. destruct (H1 a eq_refl) as [Hm HT].
    eapply sat_conseq; [apply (Hf a HT)|].
    intros o t2 H2 b Hb. unfold mutations in *. rewrite filter_app, Hm.
    by apply H2.
  - intros o t1 _ Hr b Hb. by destruct o.
Qed.

Lemma sat_ret_quiet {A : Type} (a : A) (T : A -> list Event -> Prop) :
  T a [] -> sat (Ret a) (quietly T).
Proof. intros HT. apply sat_ret. by intros ? [= <-]. Qed.

Lemma sat_call_quiet {R : Type} (op : Op R) :
  (forall r, is_mutation (EvCall op r) = false) ->
  sat (call op) (quietly (fun _ ms => ms = [] /\ True)).
Proof.
  intros Hq. apply sat_call; [|done]. intros v v' _. split; [|done].
  unfold mutations. rewrite filter_cons, decide_False; [done|].
  by rewrite Hq.
Qed.

Lemma sat_getitem_quiet {V : Type} (d : gmap string V) (k : string) :
  sat (getitem d k) (quietly (fun v ms => ms = [] /\ d !! k = Some v)).
Proof.
  unfold getitem. destruct (d !! k) as [v|]; [by apply sat_ret_quiet|by apply sat_raise].
Qed.

Lemma setStaticIP_writes (project : Project) (args : Args) (i : Instance)
    (ip : string) (ipv6 : option string) :
  ip <> "" ->
  sat (setStaticIP project args (ByHandle i) (Some ip) ipv6)
    (quietly (fun _ ms =>
       exists devices,
         ms = [EvCall (InstanceSetDevices i devices) (Ok tt)] /\
         static_ipv4 devices = Some ip)).
Proof.
  intros Hne. unfold setStaticIP. cbn [resolve bind truthy fmt default].
  apply String.eqb_neq in Hne. rewrite Hne. cbn [negb].
  eapply sat_bind_quiet; [by apply sat_call_quiet|]. intros devices _.
  eapply sat_bind_quiet with (T1 := fun d => is_Some (d !! "eth0")).
  { destruct (devices !! "eth0") as [eth0|] eqn:He.
    - apply sat_ret_quiet. by rewrite He.
    - eapply sat_bind_quiet; [by apply sat_call_quiet|]. intros expanded _.
      eapply sat_bind_quiet; [apply sat_getitem_quiet|]. intros eth0 _.
      apply sat_ret_quiet. split; [done|]. rewrite lookup_insert_eq. by eexists. }
  intros devices1 He1.
  eapply sat_bind_quiet with (T1 := fun d => static_ipv4 d = Some ip).
  { apply sat_ret_quiet. split; [done|]. by apply static_ipv4_set_ipv4. }
  intros devices2 Hpin.
  eapply sat_bind_quiet; [by apply sat_call_quiet|]. intros expanded _.
  eapply sat_bind_quiet; [apply sat_getitem_quiet|]. intros eth0 _.
  eapply sat_bind_quiet; [apply sat_getitem_quiet|]. intros netname _.
  eapply sat_bind_quiet; [by apply sat_call_quiet|]. intros network _.
  eapply sat_bind_quiet; [by apply sat_call_quiet|]. intros config _.
  eapply sat_bind_quiet with (T1 := fun _ => True).
  { destruct (config !! "ipv6.dhcp.stateful"); [|by apply sat_ret_quiet].
    eapply sat_bind_quiet; [by apply sat_call_quiet|]. intros config2 _.
    eapply sat_bind_quiet; [apply sat_getitem_quiet|]. intros v _.
    by apply sat_ret_quiet. }
  intros stateful _.
  eapply sat_bind_quiet with (T1 := fun d => static_ipv4 d = Some ip).
  { destruct stateful; [|by apply sat_ret_quiet].
    destruct (truthy ipv6).
    - apply sat_ret_quiet. split; [done|]. by rewrite static_ipv4_set_ipv6.
    - eapply sat_bind_quiet; [by apply sat_call_quiet|]. intros state _.
      eapply sat_bind_quiet; [apply sat_getitem_quiet|]. intros addrs _.
      destruct (first_global "inet6" addrs); apply sat_ret_quiet;
        (split; [done|]); [by rewrite static_ipv4_set_ipv6|done]. }
  intros devices3 Hpin3.
  apply sat_call_bind; [|done]. intros [].
  destruct (verbose args); cbn [when print].
  - apply sat_print, sat_ret. intros _ _. exists devices3. split; [|done].
    unfold mutations. rewrite filter_cons, decide_True by done.
    by rewrite filter_cons, decide_False.
  - apply sat_ret. intros _ _. exists devices3. split; [|done].
    unfold mutations. by rewrite filter_cons, decide_True.
Qed.

Lemma set_eth0_seeded (key value : string) (nic : Dict) (devices : Devices) :
  set_eth0 key value (<["eth0" := nic]> devices)
  = <["eth0" := <[key := value]> nic]> devices.
Proof. unfold set_eth0. apply alter_insert_eq. Qed.

Lemma setStaticIP_seeded_run (project : Project) (args : Args) (i : Instance)
    (ip : string) (ipv6 : option string) (w w1 w2 w3 w4 w5 w6 : World)
    (devices expanded expanded' : Devices) (nic nic' : Dict) (netname : string)
    (network : Network) (config : Dict) :
  ip <> "" ->
  h _ w (InstanceDevices i) = (Ok devices, w1) ->
  devices !! "eth0" = None ->
  h _ w1 (InstanceExpandedDevices i) = (Ok expanded, w2) ->
  expanded !! "eth0" = Some nic ->
  h _ w2 (InstanceExpandedDevices i) = (Ok expanded', w3) ->
  expanded' !! "eth0" = Some nic' ->
  nic' !! "network" = Some netname ->
  h _ w3 (NetworksGet project netname) = (Ok network, w4) ->
  h _ w4 (NetworkConfig network) = (Ok config, w5) ->
  config !! "ipv6.dhcp.stateful" = None ->
  h _ w5 (InstanceSetDevices i (<["eth0" := <["ipv4.address" := ip]> nic]> devices))
    = (Ok tt, w6) ->
  exists msgs,
    Forall (fun x => is_print x = true) msgs /\
    run h (setStaticIP project args (ByHandle i) (Some ip) ipv6) w =
      (Returned tt,
       [EvCall (InstanceDevices i) (Ok devices);
        EvCall (InstanceExpandedDevices i) (Ok expanded);
        EvCall (InstanceExpandedDevices i) (Ok expanded');
        EvCall (NetworksGet project netname) (Ok network);
        EvCall (NetworkConfig network) (Ok config);
        EvCall (InstanceSetDevices i (<["eth0" := <["ipv4.address" := ip]> nic]> devices))
          (Ok tt)] ++ msgs,
       w6).
Proof.
  intros Hne Hdev Hnone Hexp Hnic Hexp' Hnic' Hnet Hget Hcfg Hstateful Hset.
  eexists. split; [apply opt_print_prints|].
  unfold setStaticIP. cbn [resolve bind truthy fmt default].
  apply String.eqb_neq in Hne. rewrite Hne. cbn [negb].
  rewrite (run_call_bind_ok _ _ _ _ _ Hdev). rewrite Hnone.
  rewrite run_bind_assoc. rewrite (run_call_bind_ok _ _ _ _ _ Hexp).
  unfold getitem. rewrite Hnic. cbn [bind]. rewrite set_eth0_seeded.
  rewrite (run_call_bind_ok _ _ _ _ _ Hexp').
  rewrite Hnic'. cbn [bind]. rewrite Hnet. cbn [bind].
  rewrite (run_call_bind_ok _ _ _ _ _ Hget).
  rewrite (run_call_bind_ok _ _ _ _ _ Hcfg).
  rewrite Hstateful. cbn [bind].
  rewrite (run_call_bind_ok _ _ _ _ _ Hset).
  rewrite run_when_print.
  cbv zeta. unfold outcome, trace, world. cbn [fst snd]. reflexivity.
Qed.

(** C9, as amended.  An explicit static IPv4 address is only required to be
    a valid IPv4 literal: the outcome of the validation does not depend on
    the declared network config, and [setStaticIP] writes the address as it
    was given into the [eth0] device override, whatever subnet the network
    has.  No device map that [setStaticIP] asks to write has another IPv4
    override; a run that returns has changed the hypervisor by exactly one
    call, the write of a device map whose [eth0] override is that address;
    and the run does return, having written the map it read with [eth0]
    seeded from the expanded devices and the address added to it, when the
    instance has no [eth0] device of its own, the network has no stateful
    DHCPv6 setting, and the reads and the write succeed. *)
Theorem static_ipv4_is_pinned_as_given (net : NetworkSpec) (c : option Dict)
    (project : Project) (args : Args) (instance : Instance)
    (ip : string) (ipv6 : option string) (w : World) :
  ip <> "" ->
  let r := run h (setStaticIP project args (ByHandle instance) (Some ip) ipv6) w in
  Network_init (with_config c net) =
    match Network_init net with
    | Ok n => Ok (with_config c n)
    | Err e => Err e
    end
  /\ (forall net',
        Network_ipv4 net = Some ip -> isFalse (Some ip) = false ->
        Network_init net = Ok net' ->
        is_Some (IPv4Address ip) /\ Network_ipv4 net' = Some ip)
  /\ Forall (pins ip) (trace r)
  /\ (returned (outcome r) = true ->
      exists devices,
        mutations (trace r) = [EvCall (InstanceSetDevices instance devices) (Ok tt)] /\
        static_ipv4 devices = Some ip)
  /\ (forall (w1 w2 w3 w4 w5 w6 : World) (devices expanded expanded' : Devices)
        (nic nic' : Dict) (netname : string) (network : Network) (config : Dict),
        h _ w (InstanceDevices instance) = (Ok devices, w1) ->
        devices !! "eth0" = None ->
        h _ w1 (InstanceExpandedDevices instance) = (Ok expanded, w2) ->
        expanded !! "eth0" = Some nic ->
        h _ w2 (InstanceExpandedDevices instance) = (Ok expanded', w3) ->
        expanded' !! "eth0" = Some nic' ->
        nic' !! "network" = Some netname ->
        h _ w3 (NetworksGet project netname) = (Ok network, w4) ->
        h _ w4 (NetworkConfig network) = (Ok config, w5) ->
        config !! "ipv6.dhcp.stateful" = None ->
        h _ w5 (InstanceSetDevices instance
                  (<["eth0" := <["ipv4.address" := ip]> nic]> devices))
          = (Ok tt, w6) ->
        exists msgs,
          Forall (fun x => is_print x = true) msgs /\
          r = (Returned tt,
               [EvCall (InstanceDevices instance) (Ok devices);
                EvCall (InstanceExpandedDevices instance) (Ok expanded);
                EvCall (InstanceExpandedDevices instance) (Ok expanded');
                EvCall (NetworksGet project netname) (Ok network);
                EvCall (NetworkConfig network) (Ok config);
                EvCall (InstanceSetDevices instance
                          (<["eth0" := <["ipv4.address" := ip]> nic]> devices))
                  (Ok tt)] ++ msgs,
               w6)).
Proof.
  intros Hne. cbv zeta. split_and!.
  - apply Network_init_with_config.
  - intros net' Hip Hf. by apply Network_init_ipv4.
  - by apply setStaticIP_pins.
  - pose proof (setStaticIP_writes project args instance ip ipv6 Hne w) as Hw.
    unfold quietly in Hw.
    destruct (outcome (run h (setStaticIP project args (ByHandle instance)
                                (Some ip) ipv6) w)) as [[]| | |]; try done.
    intros _. exact (Hw tt eq_refl).
  - intros. by eapply setStaticIP_seeded_run.
Qed.

(** * Further properties of the script *)

(** *** Strings *)

Lemma str_split_cons (sep : ascii) (s : string) :
  exists x xs, str_split sep s = x :: xs.
Proof.
  destruct s as [|c s]; cbn [str_split]; [by eexists _, _|].
  destruct (Ascii.eqb c sep); [by eexists _, _|].
  destruct (str_split sep s); by eexists _, _.
Qed.

Lemma join_cons_string (sep : string) (c : ascii) (x : string) (r : list string) :
  join sep (String c x :: r) = String c (join sep (x :: r)).
Proof. by destruct r. Qed.

(** X1.  Splitting a string on a separator character and joining the
    pieces with it gives the string back; joining the pieces and further
    names gives the string, the separator, and the names joined.  So the
    ACL list already on a device is written back unchanged in front of the
    attached names, and an empty list value leaves a leading separator. *)
Lemma join_str_split (sep : ascii) (s : string) (l : list string) :
  join (String sep "") (str_split sep s ++ l)
  = match l with
    | [] => s
    | _ => s +:+ String sep (join (String sep "") l)
    end.
Proof.
  induction s as [|c s IH]; cbn [str_split].
  - by destruct l.
  - destruct (Ascii.eqb_spec c sep) as [->|Hne].
    + destruct (str_split_cons sep s) as (x & xs & Hx).
      rewrite Hx in *. cbn [app join] in *. rewrite IH. by destruct l.
    + destruct (str_split_cons sep s) as (x & xs & Hx).
      rewrite Hx in *. cbn [app] in *. rewrite join_cons_string, IH.
      by destruct l.
Qed.

Lemma ascii_lower_idem (c : ascii) : ascii_lower (ascii_lower c) = ascii_lower c.
Proof.
  destruct c as [[] [] [] [] [] [] [] []]; reflexivity.
Qed.

Lemma lower_idem (s : string) : lower (lower s) = lower s.
Proof.
  induction s as [|c s IH]; [done|]. cbn [lower]. by rewrite ascii_lower_idem, IH.
Qed.

(** *** The desired-state model *)

(** X2.  A forward that the constructor accepts keeps its ports, has its
    protocol in lower case, and that protocol is one of the possible ones;
    the object built is accepted unchanged when given to the constructor
    again. *)
Lemma Forward_init_normalises (f f' : Forward) :
  Forward_init f = Ok f' ->
  forward_source f' = forward_source f /\
  forward_destination f' = forward_destination f /\
  forward_protocol f' = lower (forward_protocol f) /\
  forward_protocol f' ∈ possibleProtocols /\
  Forward_init f' = Ok f'.
Proof.
  unfold Forward_init.
  destruct (validatePortList (forward_source f)) eqn:Hs; [done|].
  destruct (validatePortList (forward_destination f)) eqn:Hd; [done|].
  cbn [check and_then]. case_bool_decide as Hp; [|done].
  intros [= <-]. cbn [forward_source forward_destination forward_protocol].
  rewrite Hs, Hd. cbn [check and_then]. rewrite lower_idem.
  rewrite bool_decide_eq_true_2 by done. done.
Qed.

Lemma init_all_Ok {A : Type} (init : A -> result A) (l l' : list A) :
  init_all init l = Ok l' <-> Forall2 (fun x y => init x = Ok y) l l'.
Proof.
  revert l'. induction l as [|x l IH]; intros l'; cbn [init_all].
  - split; [intros [= <-]; constructor|by inversion 1].
  - destruct (init x) as [y|e] eqn:Hx; cbn [and_then].
    + destruct (init_all init l) as [ys|e] eqn:Hl; cbn [and_then].
      * split.
        -- intros [= <-]. constructor; [done|]. by apply IH.
        -- inversion 1 as [|? y' ? ys' Hy Hys]; subst.
           apply IH in Hys. congruence.
      * split; [done|]. inversion 1 as [|? y' ? ys' Hy Hys]; subst.
        by apply IH in Hys.
    + split; [done|]. inversion 1; subst. congruence.
Qed.

Lemma init_all_Err {A : Type} (init : A -> result A) (l : list A) (x : A) (e : PyExc) :
  x ∈ l -> init x = Err e -> exists e', init_all init l = Err e'.
Proof.
  induction l as [|y l IH]; intros Hin Hx; [by apply elem_of_nil in Hin|].
  cbn [init_all]. apply elem_of_cons in Hin as [<-|Hin].
  - rewrite Hx. by eexists.
  - destruct (init y); cbn [and_then]; [|by eexists].
    destruct (IH Hin Hx) as [e' ->]. by eexists.
Qed.

Lemma run_printHelp_bind {A : Type} (k : Prog A) (w : World) :
  run h (printHelp ;; k) w =
    let r := run h k w in (outcome r, help_lines ++ trace r, world r).
Proof.
  unfold printHelp. cbn [bind run]. by destruct (run h k w) as [[o t] w'].
Qed.

Lemma main_load_config_Err (content : ConfigContent) (e : PyExc) (w : World) :
  match content with
  | ConfigList l => init_all Config_init l
  | ConfigDict c => and_then (Config_init c) (fun c' => Ok [c'])
  | ConfigOther => Err (Exception "")
  end = Err e ->
  run h (main_load_config content) w =
    (Exited 1, help_lines ++ [EvPrint (exc_type_name e +:+ ": " +:+ exc_str e)], w).
Proof.
  intros He. unfold main_load_config. rewrite He. by rewrite run_printHelp_bind.
Qed.

(** X3.  Loading the declarations calls the hypervisor never.  A list is
    accepted as a whole or not at all: when every declaration passes its
    constructor the validated declarations are returned, one for each, in
    order; when one does not, the help and the exception are printed and the
    script exits with status 1.  A single mapping gives a list of one
    declaration, and any other value is rejected in the same way. *)
Lemma main_load_config_all_or_nothing (content : ConfigContent) (w : World) :
  let r := run h (main_load_config content) w in
  Forall (fun x => is_print x = true) (trace r) /\
  world r = w /\
  (returned (outcome r) = false ->
   exists e, r = (Exited 1,
                  help_lines ++ [EvPrint (exc_type_name e +:+ ": " +:+ exc_str e)], w)) /\
  match content with
  | ConfigList l =>
      (forall c e, c ∈ l -> Config_init c = Err e -> outcome r = Exited 1) /\
      (forall config, outcome r = Returned config <->
                      Forall2 (fun c c' => Config_init c = Ok c') l config)
  | ConfigDict c =>
      forall config, outcome r = Returned config <->
                     exists c', Config_init c = Ok c' /\ config = [c']
  | ConfigOther => outcome r = Exited 1
  end.
Proof.
  cbv zeta.
  destruct (match content with
            | ConfigList l => init_all Config_init l
            | ConfigDict c => and_then (Config_init c) (fun c' => Ok [c'])
            | ConfigOther => Err (Exception "")
            end) as [config|e] eqn:Hload.
  - assert (run h (main_load_config content) w = (Returned config, [], w)) as Hr.
    { unfold main_load_config. by rewrite Hload. }
    rewrite Hr. split_and!; [constructor|done|done|].
    destruct content as [l|c|]; [| |done].
    + split.
      * intros c e Hc He. destruct (init_all_Err _ _ _ _ Hc He) as [e' He'].
        congruence.
      * intros config'. rewrite <- init_all_Ok, Hload. cbn.
        split; [by intros [= ->]|by intros [= ->]].
    + intros config'. cbn. destruct (Config_init c) as [c'|]; [|done].
      cbn in Hload. injection Hload as <-. split.
      * intros [= <-]. by exists c'.
      * by intros (c'' & [= <-] & ->).
  - rewrite (main_load_config_Err _ _ _ Hload). split_and!.
    + apply Forall_app. split; by repeat constructor.
    + done.
    + intros _. by exists e.
    + destruct content as [l|c|]; [| |done].
      * split; [done|]. intros config'. rewrite <- init_all_Ok, Hload. by cbn.
      * intros config'. cbn. split; [done|].
        intros (c' & Hc & _). by rewrite Hc in Hload.
Qed.

(** *** The purge branch without its arguments *)

(** X4.  A purge that lacks the remote or the project argument prints the
    message and exits with status 1 without calling the hypervisor. *)
Lemma main_purge_missing_arguments (args : Args) (w : World) :
  truthy (arg_remote args) = false \/ truthy (arg_project args) = false ->
  run h (main_purge args) w =
    (Exited 1, [EvPrint "Missing --remote and/or --project arguments."], w).
Proof.
  intros Hmiss. unfold main_purge. cbn [arg_remote arg_project].
  destruct Hmiss as [-> | ->]; [done|]. by rewrite orb_true_r.
Qed.

(** *** After a failed playbook run *)

Lemma main_fetch_ends (conf : Config) : ends_with_1 (main_fetch conf).
Proof.
  unfold main_fetch.
  apply ends_with_1_bind; [apply ends_with_1_call|]. intros remote.
  apply ends_with_1_bind; [apply ends_with_1_call|]. intros project.
  apply ends_with_1_bind; [apply ends_with_1_call|]. by intros instance.
Qed.

Lemma main_failure_ends (rmtree : option PyExc) (args : Args) (config : list Config) :
  ends_with_1 (main_failure rmtree args config).
Proof.
  unfold main_failure. destruct rmtree as [e|]; [done|].
  apply ends_with_1_bind; [|done].
  destruct (negb (keepInstancesOnFailure args)); [|done].
  apply ends_with_1_for_each. intros conf.
  apply ends_with_1_bind; [apply main_fetch_ends|]. intros fetched.
  apply destroy_ends.
Qed.

Lemma run_then_exit {A B : Type} (p : Prog A) (c : Z) (w : World) :
  returned (outcome (run h (bind p (fun _ => SysExit c : Prog B)) w)) = false.
Proof.
  rewrite run_bind. cbv zeta.
  destruct (outcome (run h p w)); by cbn.
Qed.

(** X5.  When the playbook run has failed the script never ends normally:
    whatever the rollback does, the exit status is 1.  With the flag that
    keeps the instances no hypervisor call is made; when removing the
    artifacts directory raises, that exception ends the script before any
    rollback. *)
Lemma main_failure_exit_status (rmtree : option PyExc) (args : Args)
    (config : list Config) (w : World) :
  let r := run h (main_failure rmtree args config) w in
  returned (outcome r) = false /\
  exit_code (outcome r) = Some 1 /\
  (rmtree = None -> keepInstancesOnFailure args = true -> r = (Exited 1, [], w)) /\
  (forall e, rmtree = Some e -> r = (Uncaught e, [], w)).
Proof.
  cbv zeta.
  assert (returned (outcome (run h (main_failure rmtree args config) w)) = false) as Hr.
  { unfold main_failure. destruct rmtree as [e|]; [done|]. apply run_then_exit. }
  split_and!.
  - exact Hr.
  - pose proof (ends_with_1_run (main_failure rmtree args config) w
                  (main_failure_ends rmtree args config)) as He.
    destruct (outcome (run h (main_failure rmtree args config) w)); try done.
    cbn. by rewrite He.
  - intros -> Hkeep. unfold main_failure. by rewrite Hkeep.
  - by intros e ->.
Qed.

(** *** Looking for the ACLs of an instance *)

Lemma prints_quiet (msgs : list Event) :
  Forall (fun x => is_print x = true) msgs ->
  Forall (fun e => is_mutation e = false) msgs.
Proof. intros Hm. eapply Forall_impl; [exact Hm|]. by intros []. Qed.

Lemma acl_scan_reads (i : Instance) (listing found : list NetworkACL)
    (t : list Event) (ok : bool) :
  acl_scan i listing found t ok ->
  Forall (fun e => is_mutation e = false) t /\
  omap lists_acls t = [] /\
  found `sublist_of` listing.
Proof.
  induction 1 as [|a rest u found t ok Hu Hs IH|a rest u ref u' found t ok Hu Hn Hs IH
                  |a rest u ref u' msgs found t ok Hu Hn Hm Hs IH| | |].
  - done.
  - destruct IH as (IH1 & IH2 & IH3). split_and!; [by constructor|done|].
    by apply sublist_cons.
  - destruct IH as (IH1 & IH2 & IH3). split_and!; [by repeat constructor|done|].
    by apply sublist_cons.
  - destruct IH as (IH1 & IH2 & IH3). split_and!.
    + repeat constructor. apply Forall_app. split; [by apply prints_quiet|done].
    + cbn [omap list_omap lists_acls]. rewrite omap_app, IH2.
      by rewrite omap_prints.
    + by apply sublist_skip.
  - split_and!; [by repeat constructor|done|apply sublist_nil_l].
  - split_and!; [by repeat constructor|done|apply sublist_nil_l].
  - split_and!; [by repeat constructor|done|apply sublist_nil_l].
Qed.

(** X6.  Looking for the ACLs of an instance only reads: no call of the run
    changes the hypervisor.  The ACLs it returns are ACLs of the one listing
    it made, in the order of that listing. *)
Lemma associatedACLs_reads_only (project : Project) (args : Args) (i : Instance)
    (w : World) :
  let r := run h (associatedACLs project args (ByHandle i)) w in
  Forall (fun e => is_mutation e = false) (trace r) /\
  (forall found, outcome r = Returned found ->
     exists listing,
       omap lists_acls (trace r) = [listing] /\ found `sublist_of` listing).
Proof.
  cbv zeta.
  pose proof (associatedACLs_identify project args i w) as H0. cbv beta in H0.
  set (o := outcome _) in *. set (t := trace _) in *. clearbody o t.
  destruct H0 as (found & Hid & Hres).
  inversion Hid as [e Ht Hok|listing t' ok Hs Ht Hok]; subst t.
  - split; [by repeat constructor|]. intros found' Ho. by rewrite Ho in Hok.
  - destruct (acl_scan_reads _ _ _ _ _ Hs) as (H1 & H2 & H3).
    split; [by constructor|]. intros found' Ho.
    rewrite (Hres found' Ho). exists listing.
    cbn [omap list_omap lists_acls]. by rewrite H2.
Qed.

(** *** Resolving the remote and the project of a declaration *)

(** X7.  Resolving the scope of a declaration only reads.  A project is
    returned only after the remote and the project were both reported to
    exist; a remote or a project reported missing ends the script with
    status 1 right after the message, before any further call; the only
    other way out is a call that raised. *)
Lemma main_scope_checks (conf : Config) (w : World) :
  let r := run h (main_scope conf) w in
  Forall (fun e => is_mutation e = false) (trace r) /\
  match outcome r with
  | Returned project =>
      exists remote,
        trace r =
          [EvCall (RemotesExists (Config_remote conf)) (Ok true);
           EvCall (RemotesGet (Config_remote conf)) (Ok remote);
           EvCall (ProjectsExists remote (Config_project conf)) (Ok true);
           EvCall (ProjectsGet remote (Config_project conf)) (Ok project)]
  | Exited c =>
      c = 1 /\
      (trace r =
         [EvCall (RemotesExists (Config_remote conf)) (Ok false);
          EvPrint ("Remote was not found: " +:+ Config_remote conf)] \/
       exists remote,
         trace r =
           [EvCall (RemotesExists (Config_remote conf)) (Ok true);
            EvCall (RemotesGet (Config_remote conf)) (Ok remote);
            EvCall (ProjectsExists remote (Config_project conf)) (Ok false);
            EvPrint ("Project was not found: " +:+ Config_project conf)])
  | Uncaught e =>
      exists t R (op : Op R), trace r = t ++ [EvCall op (Err e)]
  | StillWaiting => False
  end.
Proof.
  cbv zeta. revert w.
  change (sat (main_scope conf) (fun o t =>
    Forall (fun e => is_mutation e = false) t /\
    match o with
    | Returned project =>
        exists remote,
          t = [EvCall (RemotesExists (Config_remote conf)) (Ok true);
               EvCall (RemotesGet (Config_remote conf)) (Ok remote);
               EvCall (ProjectsExists remote (Config_project conf)) (Ok true);
               EvCall (ProjectsGet remote (Config_project conf)) (Ok project)]
    | Exited c =>
        c = 1 /\
        (t = [EvCall (RemotesExists (Config_remote conf)) (Ok false);
              EvPrint ("Remote was not found: " +:+ Config_remote conf)] \/
         exists remote,
           t = [EvCall (RemotesExists (Config_remote conf)) (Ok true);
                EvCall (RemotesGet (Config_remote conf)) (Ok remote);
                EvCall (ProjectsExists remote (Config_project conf)) (Ok false);
                EvPrint ("Project was not found: " +:+ Config_project conf)])
    | Uncaught e => exists t' R (op : Op R), t = t' ++ [EvCall op (Err e)]
    | StillWaiting => False
    end)).
  unfold main_scope. apply sat_call_bind.
  2:{ intros e. split; [by repeat constructor|]. by eexists [], _, _. }
  intros [|]; cbn [negb].
  2:{ apply sat_print, sat_exit. split; [by repeat constructor|]. split; [done|by left]. }
  apply sat_call_bind.
  2:{ intros e. split; [by repeat constructor|]. by eexists [_], _, _. }
  intros remote. apply sat_call_bind.
  2:{ intros e. split; [by repeat constructor|]. by eexists [_; _], _, _. }
  intros [|]; cbn [negb].
  2:{ apply sat_print, sat_exit. split; [by repeat constructor|].
      split; [done|]. right. by exists remote. }
  apply sat_call.
  - intros project. split; [by repeat constructor|]. by exists remote.
  - intros e. split; [by repeat constructor|]. by eexists [_; _; _], _, _.
Qed.

(** *** Waiting for the instances *)

Lemma main_fetch_reads (conf : Config) :
  sat (main_fetch conf) (fun o t =>
    Forall (fun e => is_mutation e = false) t /\
    omap reads_state t = [] /\
    (length t <= 3)%nat /\
    match o with
    | Returned _ => length t = 3%nat
    | _ => returned o = false /\ ~ Forall (fun e => is_error e = false) t
    end).
Proof.
  unfold main_fetch. apply sat_call_bind.
  2:{ intros e. split_and!; [by repeat constructor|done|cbn; lia|done|].
      by inversion 1. }
  intros remote. apply sat_call_bind.
  2:{ intros e. split_and!; [by repeat constructor|done|cbn; lia|done|].
      inversion 1 as [|? ? _ H2]. by inversion H2. }
  intros project. apply sat_call_bind.
  2:{ intros e. split_and!; [by repeat constructor|done|cbn; lia|done|].
      inversion 1 as [|? ? _ H2]. inversion H2 as [|? ? _ H3]. by inversion H3. }
  intros instance. apply sat_ret. split_and!; [by repeat constructor|done|cbn; lia|done].
Qed.

(** X8.  The wait loop needs a network on every declaration.  On a
    declaration without one it fetches the instance and stops there: the
    script does not go on, nothing was polled or changed, and when the three
    fetching calls succeed the end is the [AttributeError] of reading
    [ipv4] on [None]. *)
Lemma main_wait_needs_network (fuel : nat) (conf : Config) (rest : list Config)
    (w : World) :
  Config_network conf = None ->
  let r := run h (main_wait fuel (conf :: rest)) w in
  returned (outcome r) = false /\
  Forall (fun e => is_mutation e = false) (trace r) /\
  omap reads_state (trace r) = [] /\
  (length (trace r) <= 3)%nat /\
  (Forall (fun e => is_error e = false) (trace r) ->
   outcome r = Uncaught (OtherError "AttributeError"
                           "'NoneType' object has no attribute 'ipv4'") /\
   length (trace r) = 3%nat).
Proof.
  intros Hnone. cbv zeta. revert w.
  change (sat (main_wait fuel (conf :: rest)) (fun o t =>
    returned o = false /\
    Forall (fun e => is_mutation e = false) t /\
    omap reads_state t = [] /\
    (length t <= 3)%nat /\
    (Forall (fun e => is_error e = false) t ->
     o = Uncaught (OtherError "AttributeError"
                     "'NoneType' object has no attribute 'ipv4'") /\
     length t = 3%nat))).
  unfold main_wait. cbn [for_each]. rewrite Hnone.
  apply sat_bind_assoc. eapply sat_bind; [apply main_fetch_reads| |].
  - intros [project instance] t1 (Hm & Hs & Hl & Hlen). cbn [bind].
    apply sat_raise. rewrite app_nil_r. by split_and!.
  - intros o t1 (Hm & Hs & Hl & Ho) Hr.
    destruct o as [a| | |]; [done|..]; destruct Ho as [_ Hne];
      (split_and!; [done|done|done|done|by intros ?]).
Qed.

(** *** Waiting for the guest *)

Lemma sat_Call {A R : Type} (op : Op R) (k : result R -> Prog A)
    (Q : Outcome A -> list Event -> Prop) :
  (forall r, sat (k r) (fun o t => Q o (EvCall op r :: t))) ->
  sat (Call op k) Q.
Proof.
  intros Hk w. cbn [run]. destruct (h R w op) as [r w1].
  specialize (Hk r w1). by destruct (run h (k r) w1) as [[o t] w'].
Qed.

Lemma guest_not_ready_classes (c : InstanceExceptionClass) :
  guest_not_ready c = true <->
  c ∈ [InstanceIsPausedException; InstanceIsNotRunningException;
       InstanceExecFailedException; InstanceNotFoundException].
Proof.
  rewrite !elem_of_cons, elem_of_nil.
  destruct c; cbn; split; intros H; try done; try tauto;
    repeat (destruct H as [H|H]; try done).
Qed.

Lemma waitForBoot_loop_polls (fuel : nat) (i : Instance) :
  sat (waitForBoot_loop fuel i) (fun o t => boot_polls i fuel t o).
Proof.
  induction fuel as [|fuel IH]; cbn [waitForBoot_loop].
  - apply sat_out_of_fuel. constructor.
  - cbn [call bind try_except_InstanceException]. apply sat_Call.
    intros [[]|e]; cbn [bind try_except_InstanceException].
    + apply sat_ret. constructor.
    + destruct e as [c msg| | | | |]; cbn [bind try_except_InstanceException];
        try (apply sat_raise; by constructor).
      destruct (guest_not_ready c) eqn:Hc; cbn [negb bind].
      * apply guest_not_ready_classes in Hc. apply sat_sleep.
        eapply sat_conseq; [exact IH|]. intros o t Ht. by apply boot_polls_again.
      * apply sat_print, sat_exit. apply boot_polls_fatal.
        intros Hin. apply guest_not_ready_classes in Hin. congruence.
Qed.

Lemma cons_eq_inv {A : Type} (a b : A) (t t' : list A) :
  a :: t = b :: t' -> a = b /\ t = t'.
Proof. by intros [= -> ->]. Qed.

(** X9.  Waiting for the guest starts with a read of the status.  On an
    instance that is not running nothing is run in the guest: the status is
    read once more for the message and the wait ends with the exception
    "Instance is not running".  On a running instance [whoami] is attempted
    until it succeeds, with a pause after each attempt that failed for one
    of the four classes of a guest that is not ready; another
    [InstanceException] is printed and ends the script with status 1. *)
Lemma waitForBoot_polls (project : Project) (fuel : nat) (i : Instance) (w : World) :
  let r := run h (waitForBoot project fuel (ByHandle i)) w in
  forall status t,
    trace r = EvCall (InstanceStatus i) (Ok status) :: t ->
    if String.eqb (lower status) "running" then boot_polls i fuel t (outcome r)
    else
      returned (outcome r) = false /\
      Forall (fun e => is_exec e = false) t /\
      forall status',
        t = [EvCall (InstanceStatus i) (Ok status')] ->
        outcome r = Uncaught (Exception ("Instance is not running: " +:+ status')).
Proof.
  cbv zeta. revert w.
  change (sat (waitForBoot project fuel (ByHandle i)) (fun o t0 =>
    forall status t,
      t0 = EvCall (InstanceStatus i) (Ok status) :: t ->
      if String.eqb (lower status) "running" then boot_polls i fuel t o
      else
        returned o = false /\
        Forall (fun e => is_exec e = false) t /\
        forall status',
          t = [EvCall (InstanceStatus i) (Ok status')] ->
          o = Uncaught (Exception ("Instance is not running: " +:+ status')))).
  unfold waitForBoot. cbn [resolve bind]. apply sat_call_bind.
  2:{ intros e status t Ht. apply cons_eq_inv in Ht as [Ht _].
      by apply (f_equal reads_status) in Ht. }
  intros status.
  eapply sat_conseq with (Q := fun o t =>
    if String.eqb (lower status) "running" then boot_polls i fuel t o
    else
      returned o = false /\
      Forall (fun e => is_exec e = false) t /\
      forall status',
        t = [EvCall (InstanceStatus i) (Ok status')] ->
        o = Uncaught (Exception ("Instance is not running: " +:+ status'))).
  2:{ intros o t Hq status0 t0 Ht. apply cons_eq_inv in Ht as [Hs <-].
      apply (f_equal reads_status) in Hs. cbn in Hs. injection Hs as <-.
      exact Hq. }
  destruct (String.eqb (lower status) "running"); cbn [negb bind].
  - apply waitForBoot_loop_polls.
  - apply sat_bind_assoc. apply sat_call_bind.
    + intros status'. cbn [bind]. apply sat_raise.
      split_and!; [done|by repeat constructor|].
      intros status0 Ht. apply cons_eq_inv in Ht as [Ht _].
      apply (f_equal reads_status) in Ht. cbn in Ht. by injection Ht as <-.
    + intros e. split_and!; [done|by repeat constructor|].
      intros status0 Ht. apply cons_eq_inv in Ht as [Ht _].
      by apply (f_equal reads_status) in Ht.
Qed.

End Semantics.

(** ** Concrete runs *)

(** Without [--force], deploying over an existing instance. *)
Lemma deploy_existing_instance_witness :
  Demo.hypervisor Demo.running bool 0%nat
    (InstancesExists Demo.default_project "web") = (Ok true, 1%nat)
  /\ (let r := run (Demo.hypervisor Demo.running)
                 (deploy Demo.default_project Demo.quiet_args "web"
                    (Some "ubuntu/20.04") (Some "images") None None None false false)
                 0%nat in
      outcome r = Exited 1 /\
      trace r = [EvCall (InstancesExists Demo.default_project "web") (Ok true);
                 EvPrint "Instance already exists. Use --force if you want to redeploy."] /\
      Forall (fun e => is_mutation e = false) (trace r) /\
      world r = 1%nat).
Proof.
  split; [reflexivity|].
  exact (deploy_existing_instance (Demo.hypervisor Demo.running)
           Demo.default_project Demo.quiet_args "web"
           (Some "ubuntu/20.04") (Some "images") None None None false false
           0%nat 1%nat eq_refl).
Defined.

(** Updating [testnetwork] from the declaration [Demo.declared]. *)
Lemma network_update_merges_witness :
  Network_action Demo.declared = "update"
  /\ Demo.hypervisor Demo.running bool 0%nat
       (NetworksExists Demo.default_project (Network_name Demo.declared))
     = (Ok true, 1%nat)
  /\ dict_merge {[ "a" := "1"; "b" := "2" ]} {[ "b" := "3"; "c" := "4" ]}
     = ({[ "a" := "1"; "b" := "3"; "c" := "4" ]} : Dict).
Proof.
  split; [reflexivity|]. split; [reflexivity|].
  exact (proj2 (proj2 (network_update_merges (Demo.hypervisor Demo.running)
                         Demo.default_project Demo.quiet_args Demo.declared
                         0%nat 1%nat eq_refl eq_refl))).
Defined.

(** The scripted hypervisor, when no call fails, answers every read of the
    network config with the config of its script. *)
Lemma scripted_config_is {A : Type} (s : Demo.Script) (p : Prog A) (clock : nat) :
  (forall n, Demo.fails s n = None) ->
  config_is (Demo.config s) (trace (run (Demo.hypervisor s) p clock)).
Proof.
  intros Hfails. revert clock.
  induction p as [a|e|c|msg k IH|k IH| |R op k IH]; intros clock; cbn [run];
    try (by constructor).
  - specialize (IH clock). destruct (run _ k clock) as [[o t] w'].
    constructor; [done|exact IH].
  - specialize (IH clock). destruct (run _ k clock) as [[o t] w'].
    constructor; [done|exact IH].
  - unfold Demo.hypervisor at 1. rewrite Hfails.
    specialize (IH (Ok (Demo.answer s clock op)) (S clock)).
    destruct (run _ (k _) (S clock)) as [[o t] w'].
    constructor; [|exact IH].
    intros c. destruct op; cbn; congruence.
Qed.

(** Waiting on [Demo.running], where only IPv4 is enabled. *)
Lemma waitForIPAddresses_ipv4_only_witness :
  let r := run (Demo.hypervisor Demo.running)
             (@waitForIPAddresses Demo.lib Demo.default_project 10
                (ByHandle Demo.web) None None) 0%nat in
  config_is (Demo.config Demo.running) (trace r)
  /\ (returned (outcome r) = true ->
      (@enabled Demo.lib (Demo.config Demo.running) None "ipv4.address" = true ->
       @seen_in_subnet Demo.lib Demo.web "inet"
         (Demo.config Demo.running !! "ipv4.address" ≫= @ip_network Demo.lib)
         (trace r)) /\
      (@enabled Demo.lib (Demo.config Demo.running) None "ipv6.address" = true ->
       @seen_in_subnet Demo.lib Demo.web "inet6"
         (Demo.config Demo.running !! "ipv6.address" ≫= @ip_network Demo.lib)
         (trace r))).
Proof.
  assert (config_is (Demo.config Demo.running)
            (trace (run (Demo.hypervisor Demo.running)
                      (@waitForIPAddresses Demo.lib Demo.default_project 10
                         (ByHandle Demo.web) None None) 0%nat))) as Hc.
  { apply scripted_config_is. reflexivity. }
  split; [exact Hc|].
  exact (proj1 (@waitForIPAddresses_ipv4_only Demo.lib nat
                  (Demo.hypervisor Demo.running) Demo.default_project 10
                  Demo.web None None (Demo.config Demo.running) 0%nat Hc)).
Defined.

(** Pinning 192.168.1.5 on an instance of [testnetwork] (10.66.241.1/24):
    the run returns, and its one change is the write of that address. *)
Lemma static_ipv4_is_pinned_as_given_witness :
  "192.168.1.5" <> ""
  /\ let r := run (Demo.hypervisor Demo.running)
                (@setStaticIP Demo.lib Demo.default_project Demo.quiet_args
                   (ByHandle Demo.web) (Some "192.168.1.5") None) 0%nat in
     Forall (pins "192.168.1.5") (trace r)
     /\ outcome r = Returned tt
     /\ exists devices,
          mutations (trace r) = [EvCall (InstanceSetDevices Demo.web devices) (Ok tt)] /\
          static_ipv4 devices = Some "192.168.1.5".
Proof.
  assert ("192.168.1.5" <> "") as Hne by discriminate.
  split; [exact Hne|].
  destruct (@static_ipv4_is_pinned_as_given Demo.lib nat
              (Demo.hypervisor Demo.running) Demo.declared None
              Demo.default_project Demo.quiet_args Demo.web
              "192.168.1.5" None 0%nat Hne) as (_ & _ & Hpins & Hwrite & Hrun).
  destruct (Hrun 1%nat 2%nat 3%nat 4%nat 5%nat 6%nat
              (Demo.devices Demo.running) (Demo.expandedDevices Demo.running)
              (Demo.expandedDevices Demo.running) Demo.nic Demo.nic "testnetwork"
              Demo.ovn (Demo.config Demo.running))
    as (msgs & _ & Hr);
    [reflexivity|by vm_compute|reflexivity|by vm_compute|reflexivity|by vm_compute
    |by vm_compute|reflexivity|reflexivity|by vm_compute|reflexivity|].
  cbv zeta. split; [exact Hpins|]. split; [by rewrite Hr|].
  apply Hwrite. by rewrite Hr.
Defined.

(** C9, as the specification states it, fails: the declaration
    [Demo.declared] asks for the static address 192.168.1.5 on a network
    whose subnet is 10.66.241.1/24; the address is outside the subnet, the
    constructor accepts the declaration unchanged, and [setStaticIP] returns
    after writing that address to the device override. *)
Lemma static_ipv4_outside_subnet_accepted :
  Network_ipv4 Demo.declared = Some "192.168.1.5"
  /\ (exists ip subnet,
        @IPv4Address Demo.lib "192.168.1.5" = Some ip /\
        @ip_network Demo.lib "10.66.241.1/24" = Some subnet /\
        Demo.config Demo.running !! "ipv4.address" = Some "10.66.241.1/24" /\
        ip_in (IPv4 ip) subnet = false)
  /\ @Network_init Demo.lib Demo.declared = Ok Demo.declared
  /\ (let r := run (Demo.hypervisor Demo.running)
                 (@setStaticIP Demo.lib Demo.default_project Demo.quiet_args
                    (ByHandle Demo.web) (Network_ipv4 Demo.declared) None) 0%nat in
      outcome r = Returned tt /\
      omap (fun e => static_ipv4 <$> sets_devices e) (trace r)
      = [Some "192.168.1.5"]).
Proof.
  split; [reflexivity|]. split.
  - exists 3232235781, {| net_v6 := false; network_address := 172159232; prefixlen := 24 |}.
    by vm_compute.
  - split; [by vm_compute|]. by vm_compute.
Qed.

(** Registering a forward on the dual-stack instance: the IPv6 address,
    listed first, is the target. *)
Lemma setForwardsPorts_first_global_witness :
  let a := {| family := "inet6"; scope := "global";
              address := "fd42:989b:45bb:a2f9:216:3eff:fe39:1980" |} in
  let forwards := [ {| forward_source := 21234; forward_destination := 80;
                       forward_protocol := "tcp" |} ] in
  let r := run (Demo.hypervisor Demo.dual_stack)
             (setForwardsPorts Demo.default_project Demo.quiet_args
                (ByHandle Demo.web) "testnetwork" (Some "45.45.148.200") forwards)
             0%nat in
  Demo.hypervisor Demo.dual_stack _ 0%nat (InstanceState Demo.web)
  = (Ok (Demo.state Demo.dual_stack 0%nat), 1%nat)
  /\ Demo.state Demo.dual_stack 0%nat !! "eth0"
     = Some [ {| family := "inet6"; scope := "link";
                 address := "fe80::216:3eff:fe39:1980" |};
              a;
              {| family := "inet"; scope := "global"; address := "10.66.241.3" |} ]
  /\ (family a = "inet" \/ family a = "inet6")
  /\ address a <> ""
  /\ Forall (targets_only (Some (address a))) (trace r)
  /\ (returned (outcome r) = true ->
      omap adds_port_for (trace r) = replicate (length forwards) (Some (address a))).
Proof.
  intros a forwards r.
  assert (Demo.state Demo.dual_stack 0%nat !! "eth0"
          = Some [ {| family := "inet6"; scope := "link";
                      address := "fe80::216:3eff:fe39:1980" |};
                   a;
                   {| family := "inet"; scope := "global"; address := "10.66.241.3" |} ])
    as Heth0 by (vm_compute; reflexivity).
  assert (address a <> "") as Hne by discriminate.
  split; [reflexivity|]. split; [exact Heth0|].
  split; [right; reflexivity|]. split; [exact Hne|].
  exact (setForwardsPorts_first_global (Demo.hypervisor Demo.dual_stack)
           Demo.default_project Demo.quiet_args Demo.web "testnetwork"
           (Some "45.45.148.200") forwards 0%nat 1%nat
           (Demo.state Demo.dual_stack 0%nat) _ a
           eq_refl Heth0 eq_refl (or_intror eq_refl) Hne).
Defined.
